(** * University AI Assistant: the retrieval-and-response pipeline

    A shallow embedding of the Python sources of the assistant (the FAQ
    response cache, the two embedding adapters, the LLM client, the QA agent,
    the orchestrator and the chat handler of the Streamlit application),
    followed by the properties proved about them.

    Conventions of the embedding.
    - Python [str] values are Rocq [string]s.  The embedding is exact for
      ASCII text: [lower], [strip], [split] and the regex classes act on the
      ASCII range the way CPython does, other bytes pass through unchanged.
    - Python [int] is [Z]; a length ([len]) is a [nat] injected into [Z]
      where it meets an [int].
    - A Python exception is a value [Raise msg] of the result type, [msg]
      being [str(e)].
    - The remote services (generation provider, embedding provider, vector
      index) are oracles: functions of the number of calls made so far and of
      the request.  Every call and every [time.sleep] is recorded in the
      [World], so that calls can be counted.
    - Wall clocks are inputs: an operation of the cache that reads a clock
      takes the reading (whole seconds) as an argument, and the handlers
      read them from two oracles, one for Python's [datetime.now()] and one
      for SQLite's CURRENT_TIMESTAMP.
    - Rows of a table are kept in rowid order.  What is printed to the
      standard output is not part of the state. *)

From Stdlib Require Import ZArith List String Ascii Bool Lia Arith QArith.
From Stdlib Require Import Permutation Sorted DecimalString DecimalNat.
From Stdlib Require OrderedTypeEx.
Import ListNotations.

Local Open Scope string_scope.
Local Open Scope Z_scope.

(* ================================================================== *)
(** ** Python strings *)
(* ================================================================== *)

Module PyStr.

(** [str.isspace] on the ASCII range, which is also what [\s] matches in a
    [str] pattern: TAB, LF, VT, FF, CR, FS, GS, RS, US and the space. *)
Definition isspace (c : ascii) : bool :=
  let n := nat_of_ascii c in
  ((9 <=? n) && (n <=? 13) || (28 <=? n) && (n <=? 32))%nat.

Definition lower_char (c : ascii) : ascii :=
  let n := nat_of_ascii c in
  if ((65 <=? n) && (n <=? 90))%nat then ascii_of_nat (n + 32) else c.

Definition upper_char (c : ascii) : ascii :=
  let n := nat_of_ascii c in
  if ((97 <=? n) && (n <=? 122))%nat then ascii_of_nat (n - 32) else c.

Fixpoint map_str (f : ascii -> ascii) (s : string) : string :=
  match s with
  | EmptyString => EmptyString
  | String c r => String (f c) (map_str f r)
  end.

(** [s.lower()], [s.upper()] *)
Definition lower : string -> string := map_str lower_char.
Definition upper : string -> string := map_str upper_char.

(** [len(s)] *)
Definition len (s : string) : Z := Z.of_nat (String.length s).

(** [s.lstrip()] *)
Fixpoint lstrip (s : string) : string :=
  match s with
  | EmptyString => EmptyString
  | String c r => if isspace c then lstrip r else s
  end.

(** [s.rstrip()]: a character goes when it is a space and everything
    after it went. *)
Fixpoint rstrip (s : string) : string :=
  match s with
  | EmptyString => EmptyString
  | String c r =>
      match rstrip r with
      | EmptyString => if isspace c then EmptyString else String c EmptyString
      | r' => String c r'
      end
  end.

(** [s.strip()] *)
Definition strip (s : string) : string := rstrip (lstrip s).

(** [s.split()]: the maximal runs of non-space characters.  [cur] is the
    word being read, reversed. *)
Fixpoint rev_str (acc s : string) : string :=
  match s with
  | EmptyString => acc
  | String c r => rev_str (String c acc) r
  end.

Definition flush (cur : string) (k : list string) : list string :=
  match cur with
  | EmptyString => k
  | _ => rev_str EmptyString cur :: k
  end.

Fixpoint split_ws (cur : string) (s : string) : list string :=
  match s with
  | EmptyString => flush cur []
  | String c r =>
      if isspace c then flush cur (split_ws EmptyString r)
      else split_ws (String c cur) r
  end.

Definition split (s : string) : list string := split_ws EmptyString s.

(** [sep.join(parts)] *)
Fixpoint join (sep : string) (parts : list string) : string :=
  match parts with
  | [] => EmptyString
  | [p] => p
  | p :: rest => p ++ sep ++ join sep rest
  end.

(** [s.startswith(p)] *)
Fixpoint startswith (p s : string) : bool :=
  match p, s with
  | EmptyString, _ => true
  | String a p', String b s' => Ascii.eqb a b && startswith p' s'
  | String _ _, EmptyString => false
  end.

(** [sub in s] *)
Fixpoint contains (sub s : string) : bool :=
  startswith sub s ||
  match s with
  | EmptyString => false
  | String _ r => contains sub r
  end.

(** The first [n] characters. *)
Fixpoint take (n : nat) (s : string) : string :=
  match n, s with
  | O, _ => EmptyString
  | S _, EmptyString => EmptyString
  | S n', String c r => String c (take n' r)
  end.

(** [s[:k]] for a Python int [k]: a negative [k] counts from the end. *)
Definition slice_to (s : string) (k : Z) : string :=
  if 0 <=? k then take (Z.to_nat k) s
  else take (Z.to_nat (len s + k)) s.

(** [l[-k:]] on a list, for [k > 0]: the last [k] elements. *)
Definition last_n {A} (k : nat) (l : list A) : list A :=
  skipn (List.length l - k) l.

(** The truth value of a string: non-empty. *)
Definition truthy (s : string) : bool :=
  match s with EmptyString => false | _ => true end.

(** [x in l] for a list of strings. *)
Definition mem (x : string) (l : list string) : bool :=
  existsb (String.eqb x) l.

(** [s.replace(old, new)] for a non-empty [old]; [skip] characters of a
    match just replaced are still to be passed over. *)
Fixpoint replace_from (old new : string) (skip : nat) (s : string) : string :=
  match s with
  | EmptyString => EmptyString
  | String c r =>
      match skip with
      | S k => replace_from old new k r
      | O =>
          if startswith old s
          then new ++ replace_from old new (String.length old - 1) r
          else String c (replace_from old new 0 r)
      end
  end.

Definition replace (old new s : string) : string := replace_from old new 0 s.

End PyStr.

(* ================================================================== *)
(** ** hashlib.sha256 (FIPS 180-4), on bytes *)
(* ================================================================== *)

Module Sha256.

Definition mask32 : Z := 4294967295.
Definition add32 (a b : Z) : Z := Z.land (a + b) mask32.
Definition rotr (n x : Z) : Z :=
  Z.lor (Z.shiftr x n) (Z.land (Z.shiftl x (32 - n)) mask32).
Definition shr (n x : Z) : Z := Z.shiftr x n.
Definition xor3 (a b c : Z) : Z := Z.lxor (Z.lxor a b) c.

Definition Ch (x y z : Z) : Z :=
  Z.lxor (Z.land x y) (Z.land (Z.lxor x mask32) z).
Definition Maj (x y z : Z) : Z :=
  xor3 (Z.land x y) (Z.land x z) (Z.land y z).
Definition bsig0 (x : Z) : Z := xor3 (rotr 2 x) (rotr 13 x) (rotr 22 x).
Definition bsig1 (x : Z) : Z := xor3 (rotr 6 x) (rotr 11 x) (rotr 25 x).
Definition ssig0 (x : Z) : Z := xor3 (rotr 7 x) (rotr 18 x) (shr 3 x).
Definition ssig1 (x : Z) : Z := xor3 (rotr 17 x) (rotr 19 x) (shr 10 x).

(** Round constants, in decimal. *)
Definition K : list Z :=
  [1116352408; 1899447441; 3049323471; 3921009573;
   961987163; 1508970993; 2453635748; 2870763221;
   3624381080; 310598401; 607225278; 1426881987;
   1925078388; 2162078206; 2614888103; 3248222580;
   3835390401; 4022224774; 264347078; 604807628;
   770255983; 1249150122; 1555081692; 1996064986;
   2554220882; 2821834349; 2952996808; 3210313671;
   3336571891; 3584528711; 113926993; 338241895;
   666307205; 773529912; 1294757372; 1396182291;
   1695183700; 1986661051; 2177026350; 2456956037;
   2730485921; 2820302411; 3259730800; 3345764771;
   3516065817; 3600352804; 4094571909; 275423344;
   430227734; 506948616; 659060556; 883997877;
   958139571; 1322822218; 1537002063; 1747873779;
   1955562222; 2024104815; 2227730452; 2361852424;
   2428436474; 2756734187; 3204031479; 3329325298].

Definition H0 : list Z :=
  [1779033703; 3144134277; 1013904242; 2773480762;
   1359893119; 2600822924; 528734635; 1541459225].

(** Padding: the byte 128, zeros up to 56 modulo 64, the bit length on 8
    bytes, most significant first. *)
Fixpoint be_bytes (n : nat) (x : Z) : list Z :=
  match n with
  | O => []
  | S n' => Z.land (Z.shiftr x (8 * Z.of_nat n')) 255 :: be_bytes n' x
  end.

Definition pad (msg : list Z) : list Z :=
  let l := Z.of_nat (List.length msg) in
  let k := Z.to_nat ((55 - l) mod 64) in
  (msg ++ [128] ++ repeat 0 k ++ be_bytes 8 (8 * l))%list.

(** Big-endian 32-bit words of a byte list. *)
Fixpoint words (fuel : nat) (bs : list Z) : list Z :=
  match fuel, bs with
  | S f, b0 :: b1 :: b2 :: b3 :: r =>
      (Z.shiftl b0 24 + Z.shiftl b1 16 + Z.shiftl b2 8 + b3) :: words f r
  | _, _ => []
  end.

(** Message schedule; [w] holds the words computed so far, newest first. *)
Fixpoint schedule (n : nat) (w : list Z) : list Z :=
  match n with
  | O => w
  | S n' =>
      let x := add32 (add32 (ssig1 (nth 1 w 0)) (nth 6 w 0))
                     (add32 (ssig0 (nth 14 w 0)) (nth 15 w 0)) in
      schedule n' (x :: w)
  end.

Record regs := Regs { ra : Z; rb : Z; rc : Z; rd : Z;
                      re : Z; rf : Z; rg : Z; rh : Z }.

Definition round (s : regs) (kw : Z * Z) : regs :=
  let t1 := add32 (add32 (add32 (rh s) (bsig1 (re s)))
                         (add32 (Ch (re s) (rf s) (rg s)) (fst kw)))
                  (snd kw) in
  let t2 := add32 (bsig0 (ra s)) (Maj (ra s) (rb s) (rc s)) in
  Regs (add32 t1 t2) (ra s) (rb s) (rc s) (add32 (rd s) t1) (re s) (rf s) (rg s).

Definition regs_of (h : list Z) : regs :=
  Regs (nth 0 h 0) (nth 1 h 0) (nth 2 h 0) (nth 3 h 0)
       (nth 4 h 0) (nth 5 h 0) (nth 6 h 0) (nth 7 h 0).

Definition compress (h : list Z) (block : list Z) : list Z :=
  let w := List.rev (schedule 48 (List.rev (words 16 block))) in
  let s0 := regs_of h in
  let s := fold_left round (combine K w) s0 in
  [add32 (ra s0) (ra s); add32 (rb s0) (rb s); add32 (rc s0) (rc s);
   add32 (rd s0) (rd s); add32 (re s0) (re s); add32 (rf s0) (rf s);
   add32 (rg s0) (rg s); add32 (rh s0) (rh s)].

Fixpoint blocks (fuel : nat) (h : list Z) (bs : list Z) : list Z :=
  match fuel with
  | O => h
  | S f =>
      match bs with
      | [] => h
      | _ => blocks f (compress h (firstn 64 bs)) (skipn 64 bs)
      end
  end.

Definition digest (msg : list Z) : list Z :=
  let p := pad msg in
  flat_map (be_bytes 4) (blocks (List.length p) H0 p).

Definition hex_digit (n : Z) : ascii :=
  if n <? 10 then ascii_of_nat (Z.to_nat (48 + n))
  else ascii_of_nat (Z.to_nat (87 + n)).

Fixpoint hex (bs : list Z) : string :=
  match bs with
  | [] => EmptyString
  | b :: r => String (hex_digit (Z.shiftr b 4)) (String (hex_digit (Z.land b 15)) (hex r))
  end.

(** [s.encode()]: the bytes of the text. *)
Fixpoint encode (s : string) : list Z :=
  match s with
  | EmptyString => []
  | String c r => Z.of_nat (nat_of_ascii c) :: encode r
  end.

(** [hashlib.sha256(b).hexdigest()] *)
Definition hexdigest (s : string) : string := hex (digest (encode s)).

End Sha256.

(* ================================================================== *)
(** ** Regular expressions ([re], flag IGNORECASE) *)
(* ================================================================== *)

Module Regex.

(** The fragment of [re] syntax the two greeting patterns use.  A literal
    character matches case-insensitively (the patterns are compiled with
    [re.IGNORECASE]); [Space] is [\s]; [OneOf] is a bracketed set. *)
Inductive re : Type :=
| Eps : re
| Lit : ascii -> re
| Space : re
| OneOf : list ascii -> re
| Seq : re -> re -> re
| Alt : re -> re -> re
| Star : re -> re
| Void : re.

Definition accepts_char (r : re) (x : ascii) : bool :=
  match r with
  | Lit c => Ascii.eqb (PyStr.lower_char x) (PyStr.lower_char c)
  | Space => PyStr.isspace x
  | OneOf cs => existsb (Ascii.eqb x) cs
  | _ => false
  end.

Fixpoint nullable (r : re) : bool :=
  match r with
  | Eps => true
  | Star _ => true
  | Seq a b => nullable a && nullable b
  | Alt a b => nullable a || nullable b
  | _ => false
  end.

(** Brzozowski derivative of [r] by the character [x]. *)
Fixpoint deriv (x : ascii) (r : re) : re :=
  match r with
  | Eps | Void => Void
  | Lit _ | Space | OneOf _ => if accepts_char r x then Eps else Void
  | Seq a b =>
      if nullable a then Alt (Seq (deriv x a) b) (deriv x b)
      else Seq (deriv x a) b
  | Alt a b => Alt (deriv x a) (deriv x b)
  | Star a => Seq (deriv x a) (Star a)
  end.

(** The whole of [s] is in the language of [r]. *)
Fixpoint fullmatch (r : re) (s : string) : bool :=
  match s with
  | EmptyString => nullable r
  | String x s' => fullmatch (deriv x r) s'
  end.

(** The words of a pattern. *)
Inductive Denotes : re -> string -> Prop :=
| DEps : Denotes Eps ""
| DLit c x : accepts_char (Lit c) x = true -> Denotes (Lit c) (String x "")
| DSpace x : accepts_char Space x = true -> Denotes Space (String x "")
| DOneOf cs x : accepts_char (OneOf cs) x = true -> Denotes (OneOf cs) (String x "")
| DSeq a b s1 s2 : Denotes a s1 -> Denotes b s2 -> Denotes (Seq a b) (s1 ++ s2)
| DAltL a b s : Denotes a s -> Denotes (Alt a b) s
| DAltR a b s : Denotes b s -> Denotes (Alt a b) s
| DStarNone a : Denotes (Star a) ""
| DStarMore a s1 s2 :
    Denotes a s1 -> Denotes (Star a) s2 -> Denotes (Star a) (s1 ++ s2).

(** [re.compile('^' r '$').match(s)]: without MULTILINE, [$] holds at the
    end of the text and also just before a newline that ends it. *)
Fixpoint chop_final_newline (s : string) : option string :=
  match s with
  | EmptyString => None
  | String c EmptyString =>
      if Ascii.eqb c (ascii_of_nat 10) then Some EmptyString else None
  | String c r =>
      match chop_final_newline r with
      | Some r' => Some (String c r')
      | None => None
      end
  end.

Definition match_anchored (r : re) (s : string) : bool :=
  fullmatch r s ||
  match chop_final_newline s with
  | Some s' => fullmatch r s'
  | None => false
  end.

(** Pattern builders. *)
Fixpoint lit (s : string) : re :=
  match s with
  | EmptyString => Eps
  | String c EmptyString => Lit c
  | String c r => Seq (Lit c) (lit r)
  end.

Definition opt (r : re) : re := Alt r Eps.
Definition ws : re := Star Space.

Fixpoint alts (rs : list re) : re :=
  match rs with
  | [] => Void
  | [r] => r
  | r :: rest => Alt r (alts rest)
  end.

Fixpoint seqs (rs : list re) : re :=
  match rs with
  | [] => Eps
  | [r] => r
  | r :: rest => Seq r (seqs rest)
  end.

Definition apostrophe : ascii := ascii_of_nat 39.
Definition punct : re := Star (OneOf ["!"%char; "?"%char; "."%char]).

(** The alternatives shared by the two greeting patterns:
    [hi|hello|hey|bonjour|salut|salam|bonsoir|good\s*(morning|afternoon|evening)|
     how\s*are\s*you|what\'?s?\s*up|yo|thanks|thank\s*you|merci|bye|goodbye|
     au\s*revoir] *)
Definition greeting_words : list re :=
  [ lit "hi"; lit "hello"; lit "hey"; lit "bonjour"; lit "salut"; lit "salam";
    lit "bonsoir";
    seqs [lit "good"; ws; alts [lit "morning"; lit "afternoon"; lit "evening"]];
    seqs [lit "how"; ws; lit "are"; ws; lit "you"];
    seqs [lit "what"; opt (Lit apostrophe); opt (Lit "s"%char); ws; lit "up"];
    lit "yo"; lit "thanks";
    seqs [lit "thank"; ws; lit "you"];
    lit "merci"; lit "bye"; lit "goodbye";
    seqs [lit "au"; ws; lit "revoir"] ].

Definition comment_vas : re := seqs [lit "comment"; ws; lit "vas"].

(** [core/llm.py], [_greeting_re]:
    [^(... |aidez|comment\s*vas)\s*[!?.]*$] *)
Definition llm_greeting_re : re :=
  seqs [ alts (greeting_words ++ [lit "aidez"; comment_vas]); ws; punct ].

(** [agents/orchestrator.py], [_GREETING_PATTERNS]:
    [^\s*(... |help|aidez|comment\s*vas)\s*[!?.]*\s*$] *)
Definition orchestrator_greeting_re : re :=
  seqs [ ws; alts (greeting_words ++ [lit "help"; lit "aidez"; comment_vas]);
         ws; punct; ws ].

End Regex.

(* ================================================================== *)
(** ** database/faq_cache.py: FAQCache *)
(* ================================================================== *)

Module FAQCache.

(** A row of the table [faq_cache].  The DATETIME columns hold a clock
    reading in whole seconds. *)
Record Row := mkRow {
  id : Z;
  query_hash : string;
  query : string;
  response : string;
  hit_count : Z;
  created_at : Z;
  last_accessed : Z }.

(** The table: its rows in rowid order, and the largest rowid handed out so
    far (AUTOINCREMENT never reuses one). *)
Record Table := mkTable {
  rows : list Row;
  last_rowid : Z }.

(** [_init_db] on a new database file. *)
Definition empty : Table := mkTable [] 0.

(** [_hash_query]:
    [hashlib.sha256(" ".join(query.lower().strip().split()).encode()).hexdigest()[:32]] *)
Definition normalize (query : string) : string :=
  PyStr.join " " (PyStr.split (PyStr.strip (PyStr.lower query))).

Definition _hash_query (query : string) : string :=
  PyStr.take 32 (Sha256.hexdigest (normalize query)).

Definition has_hash (h : string) (r : Row) : bool := String.eqb (query_hash r) h.

(** [UPDATE faq_cache SET ... WHERE query_hash = ?] *)
Definition update_where (h : string) (f : Row -> Row) (rs : list Row) : list Row :=
  map (fun r => if has_hash h r then f r else r) rs.

Definition touch (now : Z) (r : Row) : Row :=
  mkRow (id r) (query_hash r) (query r) (response r)
        (hit_count r + 1) (created_at r) now.

Definition overwrite (resp : string) (now : Z) (r : Row) : Row :=
  mkRow (id r) (query_hash r) (query r) resp
        (hit_count r + 1) (created_at r) now.

(** [ORDER BY last_accessed ASC].  SQL leaves the order of rows with equal
    keys open; SQLite's sorter for a query with LIMIT keeps them in scan
    order, which is rowid order here, and so does this stable insertion
    sort. *)
Fixpoint insert_by_last_accessed (r : Row) (l : list Row) : list Row :=
  match l with
  | [] => [r]
  | x :: l' =>
      if last_accessed r <=? last_accessed x then r :: x :: l'
      else x :: insert_by_last_accessed r l'
  end.

Fixpoint order_by_last_accessed (l : list Row) : list Row :=
  match l with
  | [] => []
  | r :: l' => insert_by_last_accessed r (order_by_last_accessed l')
  end.

Definition mem_id (i : Z) (ids : list Z) : bool := existsb (Z.eqb i) ids.

Section Cache.
(** [config.FAQ_CACHE_TTL_HOURS], [config.MAX_CACHE_SIZE] *)
Variable ttl_hours : Z.
Variable max_size : Z.

(** The ids of [SELECT id FROM faq_cache ORDER BY last_accessed ASC LIMIT ?] *)
Definition victims (excess : Z) (rs : list Row) : list Z :=
  map id (firstn (Z.to_nat excess) (order_by_last_accessed rs)).

(** [_cleanup_if_needed] *)
Definition _cleanup_if_needed (t : Table) : Table :=
  let count := Z.of_nat (List.length (rows t)) in
  if count >? max_size then
    let excess := count - max_size in
    let ids := victims excess (rows t) in
    mkTable (filter (fun r => negb (mem_id (id r) ids)) (rows t)) (last_rowid t)
  else t.

(** [get], whose SELECT is [fetch].  [py_now] is the reading of
    [datetime.now()], [sql_now] the one of CURRENT_TIMESTAMP.  The cutoff
    carries the microseconds of [datetime.now()] and [created_at] carries
    none, so the text comparison [created_at > cutoff] holds exactly when
    the seconds of [created_at] exceed the whole seconds of the cutoff. *)
Definition fetch (t : Table) (query : string) (py_now : Z) : option Row :=
  let h := _hash_query query in
  let ttl_cutoff := py_now - ttl_hours * 3600 in
  find (fun r => has_hash h r && (created_at r >? ttl_cutoff)) (rows t).

Definition get (t : Table) (query : string) (py_now sql_now : Z)
    : option string * Table :=
  let h := _hash_query query in
  match fetch t query py_now with
  | Some row =>
      (Some (response row),
       mkTable (update_where h (touch sql_now) (rows t)) (last_rowid t))
  | None => (None, t)
  end.

(** The upsert of [set]: INSERT, or on a conflict on [query_hash] the
    DO UPDATE clause. *)
Definition upsert (t : Table) (query response : string) (sql_now : Z) : Table :=
  let h := _hash_query query in
  if existsb (has_hash h) (rows t)
  then mkTable (update_where h (overwrite response sql_now) (rows t)) (last_rowid t)
  else
    let i := last_rowid t + 1 in
    mkTable (rows t ++ [mkRow i h query response 1 sql_now sql_now]) i.

(** [set] *)
Definition set (t : Table) (query response : string) (sql_now : Z) : Table :=
  _cleanup_if_needed (upsert t query response sql_now).

(** [invalidate]: the table left, and the number of rows deleted. *)
Definition invalidate (t : Table) (query : option string) : Z * Table :=
  let keep :=
    match query with
    | Some q =>
        if PyStr.truthy q
        then filter (fun r => negb (has_hash (_hash_query q) r)) (rows t)
        else []
    | None => []
    end in
  (Z.of_nat (List.length (rows t)) - Z.of_nat (List.length keep),
   mkTable keep (last_rowid t)).

(** The operations a caller can run on the cache, with the clock readings
    they take. *)
Inductive Op : Type :=
| OpGet (query : string) (py_now sql_now : Z)
| OpSet (query response : string) (sql_now : Z)
| OpInvalidate (query : option string).

Definition step (t : Table) (op : Op) : Table :=
  match op with
  | OpGet q py_now sql_now => snd (get t q py_now sql_now)
  | OpSet q r sql_now => set t q r sql_now
  | OpInvalidate q => snd (invalidate t q)
  end.

Definition run (ops : list Op) (t : Table) : Table := fold_left step ops t.

(** Rows of the table under a hash. *)
Definition rows_for (h : string) (t : Table) : list Row :=
  filter (has_hash h) (rows t).

Definition count (t : Table) : Z := Z.of_nat (List.length (rows t)).

End Cache.

(** *** Vocabulary of the properties of the cache *)

(** Accessed no later than. *)
Definition le_la (x y : Row) : Prop := last_accessed x <= last_accessed y.

(** Well-formed tables: what the PRIMARY KEY AUTOINCREMENT and the UNIQUE
    constraint of the schema guarantee. *)
Definition wf (t : Table) : Prop :=
  NoDup (map id (rows t)) /\
  Forall (fun r => id r <= last_rowid t) (rows t) /\
  NoDup (map query_hash (rows t)).

(** What the DELETE of [_cleanup_if_needed] leaves: the rows past the
    first [n] in the order of [last_accessed]. *)
Definition survivors (n : nat) (rs : list Row) : list Row :=
  filter (fun r => negb (mem_id (id r) (map id (firstn n (order_by_last_accessed rs))))) rs.

(** A sequence of writes [(query, response, clock)]. *)
Definition writes (l : list (string * string * Z)) : list Op :=
  map (fun x => OpSet (fst (fst x)) (snd (fst x)) (snd x)) l.

(** The rows these writes insert into an empty table, when no hash
    repeats: numbered from [start + 1] on. *)
Fixpoint fresh_rows (start : Z) (l : list (string * string * Z)) : list Row :=
  match l with
  | [] => []
  | (q, r, now) :: l' =>
      mkRow (start + 1) (_hash_query q) q r 1 now now :: fresh_rows (start + 1) l'
  end.

End FAQCache.

(* ================================================================== *)
(** ** core/memory.py: SessionMemory and ConversationMemory *)
(* ================================================================== *)

(** [l[-k:]] for a Python int [k]. *)
Definition py_last {A} (k : Z) (l : list A) : list A :=
  if 0 <? k then skipn (List.length l - Z.to_nat k) l
  else skipn (Z.to_nat (- k)) l.

Module SessionMemory.

(** One turn: the dict [{"user", "assistant", "timestamp"}]. *)
Record Turn := mkTurn {
  user : string;
  assistant : string;
  timestamp : Z }.

(** [self._sessions], a dict from session ids to lists of turns. *)
Definition t := list (string * list Turn).

Fixpoint lookup (sid : string) (m : t) : option (list Turn) :=
  match m with
  | [] => None
  | (k, v) :: r => if String.eqb k sid then Some v else lookup sid r
  end.

Fixpoint store (sid : string) (v : list Turn) (m : t) : t :=
  match m with
  | [] => [(sid, v)]
  | (k, v0) :: r =>
      if String.eqb k sid then (k, v) :: r else (k, v0) :: store sid v r
  end.

(** [get_history] *)
Definition get_history (m : t) (sid : string) : list Turn :=
  match lookup sid m with Some l => l | None => [] end.

(** [add_turn]; [now] is the reading of [datetime.now()]. *)
Definition add_turn (max_turns : Z) (m : t) (sid query response : string)
    (now : Z) : t :=
  let l := (get_history m sid ++ [mkTurn query response now])%list in
  if Z.of_nat (List.length l) >? max_turns
  then store sid (py_last max_turns l) m
  else store sid l m.

(** [clear_session] *)
Definition clear_session (m : t) (sid : string) : t :=
  filter (fun kv => negb (String.eqb (fst kv) sid)) m.

End SessionMemory.

Module ConversationMemory.

(** A row of the table [conversations]. *)
Record Row := mkRow {
  id : Z;
  session_id : string;
  user_id : option string;
  query : string;
  response : string;
  intent : option string;
  context_chunks : string;
  timestamp : Z }.

Record t := mk {
  rows : list Row;
  last_rowid : Z }.

Definition empty : t := mk [] 0.

(** [add_turn]: the table left and the id of the new row; [sql_now] is the
    reading of CURRENT_TIMESTAMP. *)
Definition add_turn (m : t) (session_id : string) (query response : string)
    (user_id : option string) (intent : option string)
    (context_chunks : option (list string)) (sql_now : Z) : Z * t :=
  let chunks_str :=
    match context_chunks with
    | Some ((_ :: _) as l) => PyStr.join "|" l
    | _ => EmptyString
    end in
  let i := last_rowid m + 1 in
  (i, mk (rows m ++ [mkRow i session_id user_id query response intent
                           chunks_str sql_now]) i).

Definition session_rows (m : t) (sid : string) : list Row :=
  filter (fun r => String.eqb (session_id r) sid) (rows m).

End ConversationMemory.

(* ================================================================== *)
(** ** Effects: exceptions, remote calls, sleeps *)
(* ================================================================== *)

Module Eff.

(** The outcome of a Python call: a value, or an exception [e] carried as
    [str(e)]. *)
Inductive Res (A : Type) : Type :=
| Ok (a : A)
| Raise (msg : string).
Arguments Ok {A} a.
Arguments Raise {A} msg.

(** What [client.models.generate_content] is given. *)
Record LlmRequest := mkLlmRequest {
  contents : string;
  temperature : Q;
  system_instruction : option string }.

(** What [collection.query] is given. *)
Record ChromaQuery := mkChromaQuery {
  query_texts : list string;
  n_results : Z;
  where_ : option (list (string * string)) }.

(** One metadata dict of a passage. *)
Record Meta := mkMeta {
  m_source : option string;
  m_document_type : option string;
  m_page : option Z }.

(** What [collection.query] answers: one inner list per query text. *)
Record ChromaResult := mkChromaResult {
  c_documents : list (list string);
  c_metadatas : list (list (option Meta));
  c_distances : list (list Q);
  c_ids : list (list string) }.

(** What [AdminAgent._execute_query] fetches: the rows stay opaque, the
    agent only reads their number and [str(results[:10])]. *)
Record AdminRows := mkAdminRows {
  rows_count : nat;
  rows_preview : string }.

Inductive Event : Type :=
| EvGenerate (req : LlmRequest)
| EvEmbed (text : string)
| EvChroma (q : ChromaQuery)
| EvSql (sql : string)
| EvSleep (seconds : Z)
| EvPyNow
| EvSqlNow.

(** The state of the process: the trace of the run so far, newest event
    first, and the module-level singletons ([get_session_memory],
    [get_conversation_memory], [get_faq_cache]). *)
Record World := mkWorld {
  trace : list Event;
  sessions : SessionMemory.t;
  conversations : ConversationMemory.t;
  cache : FAQCache.Table }.

Definition is_generate (e : Event) : bool :=
  match e with EvGenerate _ => true | _ => false end.
Definition is_embed (e : Event) : bool :=
  match e with EvEmbed _ => true | _ => false end.
Definition is_chroma (e : Event) : bool :=
  match e with EvChroma _ => true | _ => false end.
Definition is_sleep (e : Event) : bool :=
  match e with EvSleep _ => true | _ => false end.
Definition is_py_now (e : Event) : bool :=
  match e with EvPyNow => true | _ => false end.
Definition is_sql_now (e : Event) : bool :=
  match e with EvSqlNow => true | _ => false end.

Definition count_events (p : Event -> bool) (w : World) : nat :=
  List.length (filter p (trace w)).

(** The requests sent to the generation provider, newest first. *)
Fixpoint requests (tr : list Event) : list LlmRequest :=
  match tr with
  | [] => []
  | EvGenerate r :: tr' => r :: requests tr'
  | _ :: tr' => requests tr'
  end.

(** The seconds slept, newest first. *)
Fixpoint sleeps (tr : list Event) : list Z :=
  match tr with
  | [] => []
  | EvSleep n :: tr' => n :: sleeps tr'
  | _ :: tr' => sleeps tr'
  end.

(** The remote services and the clocks.  Each oracle sees how many calls of
    its kind were made before, so it may answer the same request
    differently over time. *)
Record Env := mkEnv {
  llm_provider : nat -> LlmRequest -> Res string;
  embed_provider : nat -> string -> Res (list Q);
  chroma : nat -> ChromaQuery -> Res (option ChromaResult);
  admin_schema : string;
  admin_execute : string -> Res AdminRows;
  py_clock : nat -> Z;
  sql_clock : nat -> Z }.

Definition M (A : Type) : Type := World -> Res A * World.

Definition ret {A} (a : A) : M A := fun w => (Ok a, w).
Definition raise {A} (msg : string) : M A := fun w => (Raise msg, w).
Definition bind {A B} (c : M A) (k : A -> M B) : M B :=
  fun w =>
    match c w with
    | (Ok a, w') => k a w'
    | (Raise msg, w') => (Raise msg, w')
    end.

(** [try: c except Exception as e: h(str(e))] *)
Definition try_except {A} (c : M A) (h : string -> M A) : M A :=
  fun w =>
    match c w with
    | (Ok a, w') => (Ok a, w')
    | (Raise msg, w') => h msg w'
    end.

Definition push (e : Event) (w : World) : World :=
  mkWorld (e :: trace w) (sessions w) (conversations w) (cache w).

Definition emit (e : Event) : M unit := fun w => (Ok tt, push e w).

(** [time.sleep(seconds)] *)
Definition sleep (seconds : Z) : M unit := emit (EvSleep seconds).

Definition call_llm (env : Env) (req : LlmRequest) : M string :=
  fun w => (llm_provider env (count_events is_generate w) req,
            push (EvGenerate req) w).

Definition call_embed (env : Env) (text : string) : M (list Q) :=
  fun w => (embed_provider env (count_events is_embed w) text,
            push (EvEmbed text) w).

Definition call_chroma (env : Env) (q : ChromaQuery) : M (option ChromaResult) :=
  fun w => (chroma env (count_events is_chroma w) q, push (EvChroma q) w).

Definition call_sql (env : Env) (sql : string) : M AdminRows :=
  fun w => (admin_execute env sql, push (EvSql sql) w).

(** [datetime.now()] and SQLite's CURRENT_TIMESTAMP, in whole seconds. *)
Definition now_py (env : Env) : M Z :=
  fun w => (Ok (py_clock env (count_events is_py_now w)), push EvPyNow w).
Definition now_sql (env : Env) : M Z :=
  fun w => (Ok (sql_clock env (count_events is_sql_now w)), push EvSqlNow w).

(** Reading and replacing the singletons. *)
Definition with_sessions (f : SessionMemory.t -> SessionMemory.t) : M unit :=
  fun w => (Ok tt, mkWorld (trace w) (f (sessions w)) (conversations w) (cache w)).
Definition with_conversations {A}
    (f : ConversationMemory.t -> A * ConversationMemory.t) : M A :=
  fun w => let (a, c) := f (conversations w) in
           (Ok a, mkWorld (trace w) (sessions w) c (cache w)).
Definition with_cache {A} (f : FAQCache.Table -> A * FAQCache.Table) : M A :=
  fun w => let (a, c) := f (cache w) in
           (Ok a, mkWorld (trace w) (sessions w) (conversations w) c).
Definition read_sessions : M SessionMemory.t := fun w => (Ok (sessions w), w).
Definition read_cache : M FAQCache.Table := fun w => (Ok (cache w), w).

(** [config.py], with its defaults. *)
Record Config := mkConfig {
  TOP_K_RESULTS : Z;
  MAX_CONTEXT_LENGTH : Z;
  FAQ_CACHE_TTL_HOURS : Z;
  MAX_CACHE_SIZE : Z;
  MAX_CONVERSATION_HISTORY : Z }.

Definition default_config : Config := mkConfig 5 8000 24 1000 10.

(** *** Vocabulary of the properties of effects *)

(** The singletons are left as they were. *)
Definition same_stores (w w' : World) : Prop :=
  sessions w' = sessions w /\ conversations w' = conversations w /\
  cache w' = cache w.

(** A computation that may raise but leaves the singletons alone. *)
Definition framed {A} (c : M A) : Prop :=
  forall w, same_stores w (snd (c w)).

(** A computation that returns a value and leaves the singletons alone. *)
Definition returns {A} (c : M A) : Prop :=
  forall w, exists a w', c w = (Ok a, w') /\ same_stores w w'.

End Eff.

Notation "x <- c1 ;; c2" := (Eff.bind c1 (fun x => c2))
  (at level 61, c1 at next level, right associativity).
Notation "c1 ;;; c2" := (Eff.bind c1 (fun _ => c2))
  (at level 61, right associativity).

(** A double quote, a newline. *)
Definition dq : string := String (ascii_of_nat 34) EmptyString.
Definition nl : string := String (ascii_of_nat 10) EmptyString.

(** [str(n)] for a natural number. *)
Definition str_of_nat (n : nat) : string :=
  DecimalString.NilEmpty.string_of_uint (Nat.to_uint n).

(** The provider signals a rate limit in the text of the error. *)
Definition is_rate_limit (err : string) : bool :=
  PyStr.contains "429" err || PyStr.contains "RESOURCE_EXHAUSTED" err.

(* ================================================================== *)
(** ** core/llm.py: LLMClient *)
(* ================================================================== *)

Module LLMClient.
Import Eff.
Import SessionMemory(Turn, user, assistant).

Section Client.
Variable env : Env.
Variable cfg : Config.

(** [self.max_context] *)
Definition max_context : Z := MAX_CONTEXT_LENGTH cfg.

(** [_call_with_retry]: [left] attempts remain, this one is number
    [attempt] of [max_retries].  Falling off the loop returns [None]. *)
Fixpoint call_loop (left : nat) (attempt max_retries : Z)
    (req : LlmRequest) : M (option string) :=
  match left with
  | O => ret None
  | S left' =>
      try_except
        (text <- call_llm env req ;; ret (Some text))
        (fun err =>
           if is_rate_limit err && (attempt <? max_retries - 1)
           then sleep (15 * (attempt + 1)) ;;;
                call_loop left' (attempt + 1) max_retries req
           else raise err)
  end.

Definition _call_with_retry (req : LlmRequest) (max_retries : nat)
    : M (option string) :=
  call_loop max_retries 0 (Z.of_nat max_retries) req.

(** [generate]: never raises, an error becomes the text of the answer.
    A [None] from the retry loop has no [.text]. *)
Definition generate (prompt : string) (system_instruction : option string)
    (temperature : Q) : M string :=
  let sys :=
    match system_instruction with
    | Some s => if PyStr.truthy s then Some s else None
    | None => None
    end in
  try_except
    (response <- _call_with_retry (mkLlmRequest prompt temperature sys) 3 ;;
     match response with
     | Some text => ret text
     | None => raise "'NoneType' object has no attribute 'text'"
     end)
    (fun err => ret ("I apologize, but I encountered an error: " ++ err)).

(** [f"[Reference {i+1}]: {passage}" for i, passage in enumerate(...)],
    counting from [i]. *)
Fixpoint reference_lines (i : nat) (passages : list string) : list string :=
  match passages with
  | [] => []
  | p :: rest =>
      ("[Reference " ++ str_of_nat (i + 1) ++ "]: " ++ p)
        :: reference_lines (S i) rest
  end.

Definition render_turn (t : Turn) : string :=
  "User: " ++ user t ++ nl ++ "Assistant: " ++ assistant t ++ nl ++ nl.

Fixpoint concat_str (l : list string) : string :=
  match l with
  | [] => EmptyString
  | x :: r => x ++ concat_str r
  end.

Definition history_text (conversation_history : option (list Turn)) : string :=
  match conversation_history with
  | Some ((_ :: _) as h) => concat_str (map render_turn (PyStr.last_n 5 h))
  | _ => EmptyString
  end.

Definition _default_university_prompt : string :=
  "You are a helpful AI assistant for university students and staff.
Your role is to answer questions about university policies, procedures, academic programs, 
and administrative matters using the provided reference information.

Guidelines:
- Be accurate and base your answers on the provided references
- Be friendly and professional in your tone
- If information is not in the references, say so clearly
- Provide specific details like dates, requirements, and procedures when available
- For complex procedures, break down steps clearly
- Do not invent or assume information not present in the references".

(** The prompt [generate_with_context] assembles, before truncation. *)
Definition assemble (query : string) (context_passages : list string)
    (conversation_history : option (list Turn)) (system_prompt : string)
    : string :=
  let context := PyStr.join (nl ++ nl) (reference_lines 0 context_passages) in
  let hist := history_text conversation_history in
  nl ++ system_prompt ++ nl ++ nl ++
  "REFERENCE INFORMATION:" ++ nl ++ context ++ nl ++ nl ++
  (if PyStr.truthy hist then "PREVIOUS CONVERSATION:" else "") ++ nl ++
  hist ++ nl ++ nl ++
  "USER QUESTION: " ++ query ++ nl ++ nl ++
  "Provide a helpful, accurate response based on the reference information above." ++ nl.

Definition truncation_marker : string :=
  nl ++ "[Context truncated due to length]".

Definition truncate (prompt : string) : string :=
  if PyStr.len prompt >? max_context
  then PyStr.slice_to prompt max_context ++ truncation_marker
  else prompt.

Definition generate_with_context (query : string)
    (context_passages : list string)
    (conversation_history : option (list Turn))
    (system_prompt : option string) : M string :=
  let sp := match system_prompt with
            | Some p => p
            | None => _default_university_prompt
            end in
  generate (truncate (assemble query context_passages conversation_history sp))
           None (7 # 10)%Q.

Definition _admin_kw : list string :=
  ["student data"; "system metric"; "all users"; "manage document"].

Definition valid_intents : list string := ["qa"; "admin"; "general"].

Definition classify_prompt (q : string) : string :=
  "Classify the following user query into one of these categories:
- qa: Questions about university policies, procedures, academics, administration
- admin: Administrative queries about student data, system metrics (staff only)
- general: General greetings, off-topic, or unclear queries

Query: " ++ dq ++ q ++ dq ++ "

Respond with ONLY the category name (qa, admin, or general):".

Definition classify_intent (query : string) : M string :=
  let q := PyStr.strip query in
  if Regex.match_anchored Regex.llm_greeting_re q then ret "general"
  else if existsb (fun kw => PyStr.contains kw (PyStr.lower q)) _admin_kw
  then ret "admin"
  else
    response <- generate (classify_prompt q) None (1 # 10)%Q ;;
    let intent := PyStr.lower (PyStr.strip response) in
    ret (if PyStr.mem intent valid_intents then intent else "qa").

End Client.
End LLMClient.

(* ================================================================== *)
(** ** GeminiEmbeddingFunction.py and core/embeddings.py *)
(* ================================================================== *)

Module GeminiEmbeddingFunction.
Import Eff.

Section Adapter.
Variable env : Env.

(** [_embed_with_retry]: [left] attempts remain, this one has index
    [attempt].  [None] is Python's [None]. *)
Fixpoint embed_loop (left : nat) (attempt : Z) (text : string)
    : M (option (list Q)) :=
  match left with
  | O => ret None
  | S left' =>
      try_except
        (values <- call_embed env text ;; ret (Some values))
        (fun err =>
           if is_rate_limit err
           then sleep (30 * (attempt + 1)) ;;;
                embed_loop left' (attempt + 1) text
           else ret None)
  end.

Definition _embed_with_retry (text : string) (max_retries : nat)
    : M (option (list Q)) :=
  embed_loop max_retries 0 text.

Fixpoint embed_each (input : list string) : M (list (option (list Q))) :=
  match input with
  | [] => ret []
  | text :: rest =>
      e <- _embed_with_retry text 5 ;;
      es <- embed_each rest ;;
      ret (e :: es)
  end.

Definition is_none {A} (o : option A) : bool :=
  match o with None => true | Some _ => false end.

Fixpoint unwrap {A} (l : list (option A)) : list A :=
  match l with
  | [] => []
  | Some a :: r => a :: unwrap r
  | None :: r => unwrap r
  end.

(** [__call__] *)
Definition call (input : list string) : M (list (list Q)) :=
  embeddings <- embed_each input ;;
  if existsb is_none embeddings
  then raise "Some embeddings failed. Please retry."
  else ret (unwrap embeddings).

End Adapter.
End GeminiEmbeddingFunction.

Module GeminiEmbeddings.
Import Eff.

Section Adapter.
Variable env : Env.

Definition embedding_dim : nat := 768.

(** [[0.0] * self.embedding_dim] *)
Definition zero_vector : list Q := repeat (0 # 1)%Q embedding_dim.

(** [__call__]: one request per text, any error gives the zero vector. *)
Fixpoint call (input : list string) : M (list (list Q)) :=
  match input with
  | [] => ret []
  | text :: rest =>
      e <- try_except (call_embed env text) (fun _ => ret zero_vector) ;;
      es <- call rest ;;
      ret (e :: es)
  end.

End Adapter.
End GeminiEmbeddings.

(** *** Vocabulary of the properties of the adapters *)

Module EmbeddingSpec.
Import Eff.

(** The provider signals a rate limit for [text] on every attempt. *)
Definition always_rate_limited (env : Env) (text : string) : Prop :=
  forall n, exists e, embed_provider env n text = Raise e /\ is_rate_limit e = true.

(** The trace of [left] rate-limited attempts from attempt index [attempt]
    on: a request, then a sleep of [30 * (attempt + 1)] seconds. *)
Fixpoint backoff_trace (left : nat) (attempt : Z) (text : string)
    (tr : list Event) : list Event :=
  match left with
  | O => tr
  | S left' =>
      backoff_trace left' (attempt + 1) text
        (EvSleep (30 * (attempt + 1)) :: EvEmbed text :: tr)
  end.

Definition with_trace (tr : list Event) (w : World) : World :=
  mkWorld tr (sessions w) (conversations w) (cache w).

(** What the spec says of an adapter: a text that is rate-limited on every
    attempt costs exactly five requests and comes back as a vector of
    zeros, without an exception. *)
Definition retries_then_zero_vector
    (adapter : Env -> list string -> M (list (list Q))) : Prop :=
  forall env text w,
    always_rate_limited env text ->
    exists zeros w',
      adapter env [text] w = (Ok [zeros], w') /\
      Forall (fun x => x = (0 # 1)%Q) zeros /\
      count_events is_embed w' = (count_events is_embed w + 5)%nat.

End EmbeddingSpec.

(* ================================================================== *)
(** ** core/vector_store.py: VectorStore *)
(* ================================================================== *)

Module VectorStore.
Import Eff.

(** The dict [query] returns. *)
Record Result := mkResult {
  documents : list string;
  metadatas : list (option Meta);
  distances : list Q;
  ids : list string }.

Definition no_result : Result := mkResult [] [] [] [].

(** [results.get(key, [[]])[0] if results.get(key) else []] *)
Definition first_of {A} (l : list (list A)) : list A :=
  match l with
  | [] => []
  | x :: _ => x
  end.

Section Store.
Variable env : Env.

(** [query] *)
Definition query (query_text : string) (n_results : Z)
    (where_ : option (list (string * string))) : M Result :=
  try_except
    (results <- call_chroma env (mkChromaQuery [query_text] n_results where_) ;;
     match results with
     | None => ret no_result
     | Some r =>
         ret (mkResult (first_of (c_documents r)) (first_of (c_metadatas r))
                       (first_of (c_distances r)) (first_of (c_ids r)))
     end)
    (fun _ => ret no_result).

(** [query_with_filter] *)
Definition query_with_filter (query_text : string)
    (document_type source_file : option string) (n_results : Z) : M Result :=
  let w1 := match document_type with
            | Some d => if PyStr.truthy d then [("document_type", d)] else []
            | None => []
            end in
  let w2 := match source_file with
            | Some f => if PyStr.truthy f then [("source", f)] else []
            | None => []
            end in
  let where_ := (w1 ++ w2)%list in
  query query_text n_results
        (match where_ with [] => None | _ => Some where_ end).

End Store.
End VectorStore.

(* ================================================================== *)
(** ** The dicts the agents return *)
(* ================================================================== *)

(** One entry of [sources]. *)
Record Source := mkSource {
  file : string;
  document_type : string;
  page : option Z }.

(** The [metadata] dicts the agents build. *)
Inductive Metadata : Type :=
| MdEmpty
| MdQA (num_passages : nat) (distances : list Q)
| MdGeneral.

(** A response dict; a key that is absent is [None]. *)
Record AgentResponse := mkAgentResponse {
  answer : option string;
  sources : option (list Source);
  context_chunks : option (list string);
  metadata : option Metadata;
  data : option (option Eff.AdminRows);
  sql : option string;
  error : option string }.

(* ================================================================== *)
(** ** agents/qa_agent.py: QAAgent *)
(* ================================================================== *)

Module QAAgent.
Import Eff.

Definition system_prompt : string :=
  "You are an expert university administrative assistant with deep knowledge of academic policies, procedures, and student services.

Your role is to:
1. Answer questions accurately based on the provided reference documents
2. Provide clear, step-by-step guidance for procedures
3. Include specific details like deadlines, requirements, and contact information when available
4. Be sympathetic to student concerns while maintaining professionalism
5. Redirect to appropriate offices when questions are beyond your knowledge

Guidelines:
- Base answers ONLY on the provided reference passages
- If information is incomplete, acknowledge what you know and what's unclear
- Never invent policies or procedures
- Use a friendly, helpful tone
- For complex procedures, use numbered steps
- Include relevant deadlines or timeframes when mentioned in references".

(** [_no_context_response] *)
Definition no_context_head : string :=
  "I apologize, but I couldn't find specific information about " ++ dq.

Definition no_context_tail : string :=
  dq ++ " in our university documents.

Here are some suggestions:
1. Try rephrasing your question with different keywords
2. Contact the relevant administrative office directly
3. Check the university website for the most up-to-date information

Is there something else I can help you with?".

Definition _no_context_response (query : string) : string :=
  no_context_head ++ query ++ no_context_tail.

(** [_extract_sources]; [seen] is [seen_sources].  A metadata entry that is
    [None], not a dict or an empty dict is [None] here. *)
Fixpoint extract_from (seen : list string) (metadatas : list (option Meta))
    : list Source :=
  match metadatas with
  | [] => []
  | None :: rest => extract_from seen rest
  | Some meta :: rest =>
      let source := match m_source meta with Some s => s | None => "Unknown" end in
      if PyStr.mem source seen then extract_from seen rest
      else
        mkSource source
                 (match m_document_type meta with Some d => d | None => "general" end)
                 (m_page meta)
          :: extract_from (source :: seen) rest
  end.

Definition _extract_sources (metadatas : list (option Meta)) : list Source :=
  extract_from [] metadatas.

(** A [document_filter] dict, as an association list. *)
Definition DocumentFilter := list (string * option string).

Fixpoint dict_get (k : string) (d : DocumentFilter) : option string :=
  match d with
  | [] => None
  | (k', v) :: r => if String.eqb k' k then v else dict_get k r
  end.

Section Agent.
Variable env : Env.
Variable cfg : Config.

(** The retrieval step of [answer]. *)
Definition retrieve (query : string) (document_filter : option DocumentFilter)
    : M VectorStore.Result :=
  match document_filter with
  | Some ((_ :: _) as f) =>
      VectorStore.query_with_filter env query
        (dict_get "document_type" f) (dict_get "source_file" f)
        (TOP_K_RESULTS cfg)
  | _ => VectorStore.query env query (TOP_K_RESULTS cfg) None
  end.

(** [answer] *)
Definition answer (query : string)
    (conversation_history : option (list SessionMemory.Turn))
    (document_filter : option DocumentFilter) : M AgentResponse :=
  try_except
    (results <- retrieve query document_filter ;;
     let passages := VectorStore.documents results in
     let metadatas := VectorStore.metadatas results in
     let distances := VectorStore.distances results in
     match passages with
     | _ :: _ =>
         a <- LLMClient.generate_with_context env cfg query passages
                conversation_history (Some system_prompt) ;;
         ret (mkAgentResponse (Some a) (Some (_extract_sources metadatas))
                (Some passages)
                (Some (MdQA (List.length passages) distances))
                None None None)
     | [] =>
         ret (mkAgentResponse (Some (_no_context_response query)) (Some [])
                (Some passages)
                (Some (MdQA (List.length passages) distances))
                None None None)
     end)
    (fun err =>
       ret (mkAgentResponse
              (Some ("I encountered an error while searching: " ++ err))
              (Some []) (Some []) (Some MdEmpty) None None None)).

End Agent.
End QAAgent.

(* ================================================================== *)
(** ** agents/admin_agent.py: AdminAgent *)
(* ================================================================== *)

Module AdminAgent.
Import Eff.

Section Agent.
Variable env : Env.

Definition sql_prompt (user_query schema : string) : string :=
  "You are a SQL expert. Convert the following natural language query to SQL.

Database Schema:
" ++ schema ++ "

User Query: " ++ dq ++ user_query ++ dq ++ "

Rules:
- Only generate SELECT queries (no INSERT, UPDATE, DELETE)
- Use proper SQL syntax for SQLite
- Return ONLY the SQL query, nothing else
- If the query cannot be answered with the schema, return " ++ dq ++ "INVALID" ++ dq ++ "

SQL Query:".

(** [_generate_sql] *)
Definition _generate_sql (user_query schema : string) : M (option string) :=
  response <- LLMClient.generate env (sql_prompt user_query schema) None (1 # 10)%Q ;;
  let sql0 := PyStr.strip response in
  let sql1 := PyStr.strip (PyStr.replace "```" "" (PyStr.replace "```sql" "" sql0)) in
  if PyStr.contains "INVALID" (PyStr.upper sql1)
     || negb (PyStr.startswith "SELECT" (PyStr.upper sql1))
  then ret None
  else ret (Some sql1).

Definition format_prompt (user_query : string) (results : AdminRows) : string :=
  "Convert these database results into a natural, helpful response.

User asked: " ++ dq ++ user_query ++ dq ++ "

Results (showing up to 10 of " ++ str_of_nat (rows_count results) ++ " total):
" ++ rows_preview results ++ "

Provide a clear, natural language summary of the data. Include specific numbers and names where relevant.
Keep the response concise but informative.".

(** [_format_response] *)
Definition _format_response (user_query sql_text : string) (results : AdminRows)
    : M string :=
  match rows_count results with
  | O => ret "No results found matching your query."
  | _ => LLMClient.generate env (format_prompt user_query results) None (3 # 10)%Q
  end.

(** [query] *)
Definition query (user_query : string) : M AgentResponse :=
  let schema := admin_schema env in
  s <- _generate_sql user_query schema ;;
  match s with
  | None =>
      ret (mkAgentResponse
             (Some "I couldn't understand that query. Could you rephrase it?")
             None None None (Some None) None None)
  | Some sql_text =>
      if negb (PyStr.truthy sql_text)
      then ret (mkAgentResponse
             (Some "I couldn't understand that query. Could you rephrase it?")
             None None None (Some None) None None)
      else
      try_except
        (results <- call_sql env sql_text ;;
         a <- _format_response user_query sql_text results ;;
         ret (mkAgentResponse (Some a) None None None (Some (Some results))
                (Some sql_text) None))
        (fun err =>
           ret (mkAgentResponse
                  (Some ("I encountered an error executing that query: " ++ err))
                  None None None (Some None) None (Some err)))
  end.

End Agent.
End AdminAgent.

(* ================================================================== *)
(** ** agents/orchestrator.py: AgentOrchestrator *)
(* ================================================================== *)

Module AgentOrchestrator.
Import Eff.

(** The attributes an orchestrator carries itself; its [llm],
    [session_memory] and [conversation_memory] are the singletons. *)
Record t := mk {
  session_id : string;
  user_id : option string }.

(** The optional [context] dict of [process_query]. *)
Record Context := mkContext {
  document_filter : option QAAgent.DocumentFilter }.

(** The dict [process_query] returns. *)
Record Reply := mkReply {
  reply_answer : string;
  reply_intent : string;
  reply_sources : list Source;
  reply_metadata : Metadata }.

Definition or_empty (o : option string) : string :=
  match o with Some s => s | None => EmptyString end.

Section Orchestrator.
Variable env : Env.
Variable cfg : Config.

Definition general_prompt (query : string) : string :=
  "You are a friendly university AI assistant named " ++ dq ++ "University Assistant" ++ dq ++ ".
The user said: " ++ dq ++ query ++ dq ++ "

If this is a greeting, respond warmly and offer to help with university-related questions.
You can also help with generating administrative emails.
If this is a thank you, respond politely.
If this is off-topic, politely redirect to university topics you can help with.

Keep your response brief, friendly and helpful. Respond in the same language the user used.".

(** [_handle_general_query] *)
Definition _handle_general_query (query : string)
    (history : list SessionMemory.Turn) : M AgentResponse :=
  a <- LLMClient.generate env (general_prompt query) None (7 # 10)%Q ;;
  ret (mkAgentResponse (Some a) (Some []) None (Some MdGeneral) None None None).

(** [_check_admin_permission] *)
Definition _check_admin_permission : bool := true.

(** [_route_to_agent] *)
Definition _route_to_agent (query intent : string)
    (history : list SessionMemory.Turn) (context : option Context)
    : M AgentResponse :=
  if String.eqb intent "qa" then
    QAAgent.answer env cfg query (Some history)
      (match context with Some c => document_filter c | None => None end)
  else if String.eqb intent "admin" then
    if negb _check_admin_permission
    then ret (mkAgentResponse
                (Some "You don't have permission to access administrative features.")
                (Some []) None None None None None)
    else AdminAgent.query env query
  else _handle_general_query query history.

(** [process_query] *)
Definition process_query (self : t) (query : string) (context : option Context)
    : M Reply :=
  ss <- read_sessions ;;
  let history := SessionMemory.get_history ss (session_id self) in
  intent <- (if Regex.match_anchored Regex.orchestrator_greeting_re query
             then ret "general"
             else LLMClient.classify_intent env query) ;;
  response <- _route_to_agent query intent history context ;;
  t_py <- now_py env ;;
  with_sessions (fun m =>
    SessionMemory.add_turn (MAX_CONVERSATION_HISTORY cfg) m (session_id self)
      query (or_empty (answer response)) t_py) ;;;
  t_sql <- now_sql env ;;
  _ <- with_conversations (fun m =>
    ConversationMemory.add_turn m (session_id self) query
      (or_empty (answer response)) (user_id self) (Some intent)
      (Some (match context_chunks response with Some l => l | None => [] end))
      t_sql) ;;
  ret (mkReply (or_empty (answer response)) intent
         (match sources response with Some l => l | None => [] end)
         (match metadata response with Some m => m | None => MdEmpty end)).

End Orchestrator.
End AgentOrchestrator.

(* ================================================================== *)
(** ** app.py: the chat handler *)
(* ================================================================== *)

Module App.
Import Eff.

(** One message of [st.session_state.chat_history]; the user's messages
    have no [sources] key. *)
Record ChatMessage := mkChatMessage {
  role : string;
  content : string;
  msg_sources : option (list Source) }.

(** [st.session_state] of a logged-in user. *)
Record SessionState := mkSessionState {
  session_id : string;
  username : string;
  chat_history : list ChatMessage;
  orchestrator : option AgentOrchestrator.t }.

Section Handler.
Variable env : Env.
Variable cfg : Config.

(** [create_orchestrator] *)
Definition create_orchestrator (session_id : string) (user_id : option string)
    : AgentOrchestrator.t :=
  AgentOrchestrator.mk session_id user_id.

(** [faq_cache.get]: CURRENT_TIMESTAMP is read by the UPDATE of a hit
    only. *)
Definition faq_get (query : string) : M (option string) :=
  t_py <- now_py env ;;
  c <- read_cache ;;
  match FAQCache.fetch (FAQ_CACHE_TTL_HOURS cfg) c query t_py with
  | None => ret None
  | Some _ =>
      t_sql <- now_sql env ;;
      with_cache (fun c =>
        FAQCache.get (FAQ_CACHE_TTL_HOURS cfg) c query t_py t_sql)
  end.

Definition faq_set (query response : string) : M unit :=
  t_sql <- now_sql env ;;
  with_cache (fun c =>
    (tt, FAQCache.set (MAX_CACHE_SIZE cfg) c query response t_sql)).

(** The block [if user_question:] of the script, up to [st.rerun()]: the
    session state it leaves. *)
Definition on_question (st : SessionState) (user_question : string)
    : M SessionState :=
  let history1 :=
    (chat_history st ++ [mkChatMessage "user" user_question None])%list in
  cached_response <- faq_get user_question ;;
  match cached_response with
  | Some ((String _ _) as cached) =>
      ret (mkSessionState (session_id st) (username st)
             (history1 ++ [mkChatMessage "assistant" cached (Some [])])%list
             (orchestrator st))
  | _ =>
      let orch :=
        match orchestrator st with
        | Some o => o
        | None => create_orchestrator (session_id st) (Some (username st))
        end in
      result <- AgentOrchestrator.process_query env cfg orch user_question None ;;
      let response_text := AgentOrchestrator.reply_answer result in
      let sources := AgentOrchestrator.reply_sources result in
      faq_set user_question response_text ;;;
      ret (mkSessionState (session_id st) (username st)
             (history1 ++ [mkChatMessage "assistant" response_text (Some sources)])%list
             (Some orch))
  end.

End Handler.
(** What the spec says of the entry point, for a non-negative window
    [MAX_CONVERSATION_HISTORY]: whenever the handler answers a question,
    the session tier ends with a turn for the question, under the session
    id of the user's orchestrator, and the durable tier has gained a row
    for it. *)
Definition every_question_is_recorded : Prop :=
  forall env cfg st q w st' w',
    0 <= MAX_CONVERSATION_HISTORY cfg ->
    on_question env cfg st q w = (Ok st', w') ->
    let sid := match orchestrator st with
               | Some o => AgentOrchestrator.session_id o
               | None => session_id st
               end in
    (exists earlier a t,
       SessionMemory.get_history (sessions w') sid
       = (earlier ++ [SessionMemory.mkTurn q a t])%list) /\
    (exists row,
       ConversationMemory.rows (conversations w')
       = (ConversationMemory.rows (conversations w) ++ [row])%list /\
       ConversationMemory.query row = q).

End App.


(* ================================================================== *)
(** ** Sample inputs *)
(* ================================================================== *)

Module Samples.
Import Eff.

(** Decidable absence of duplicates in a list of strings. *)
Fixpoint nodupb (l : list string) : bool :=
  match l with
  | [] => true
  | x :: r => negb (PyStr.mem x r) && nodupb r
  end.

(** A process that has just started. *)
Definition fresh_world : World :=
  mkWorld [] [] ConversationMemory.empty FAQCache.empty.

(** An index holding the passage of the handbook, a provider that answers
    with the deadline, clocks that advance one second per reading. *)
Definition handbook_env : Env :=
  mkEnv (fun _ _ => Ok "Registration closes on March 1.")
        (fun _ _ => Ok [(1 # 2)%Q])
        (fun _ _ => Ok (Some (mkChromaResult
                                [["Registration closes March 1"]]
                                [[Some (mkMeta (Some "handbook.pdf") None (Some 3))]]
                                [[(1 # 4)%Q]] [["doc_0"]])))
        "Table: users"
        (fun _ => Ok (mkAdminRows 0 "[]"))
        (fun n => 1000 + Z.of_nat n)
        (fun n => 1000 + Z.of_nat n).

(** The same with an empty index. *)
Definition empty_index_env : Env :=
  mkEnv (llm_provider handbook_env) (embed_provider handbook_env)
        (fun _ _ => Ok (Some (mkChromaResult [[]] [[]] [[]] [[]])))
        (admin_schema handbook_env) (admin_execute handbook_env)
        (py_clock handbook_env) (sql_clock handbook_env).

(** The same with a provider that answers outside the three intents. *)
Definition vague_env : Env :=
  mkEnv (fun _ _ => Ok "  Maybe?  ") (embed_provider handbook_env)
        (chroma handbook_env)
        (admin_schema handbook_env) (admin_execute handbook_env)
        (py_clock handbook_env) (sql_clock handbook_env).

(** The same with an embedding provider out of quota. *)
Definition exhausted_env : Env :=
  mkEnv (llm_provider handbook_env)
        (fun _ _ => Raise "429 RESOURCE_EXHAUSTED")
        (chroma handbook_env)
        (admin_schema handbook_env) (admin_execute handbook_env)
        (py_clock handbook_env) (sql_clock handbook_env).

(** Seven writes of seven different questions, one per second. *)
Definition seven_writes : list (string * string * Z) :=
  [("q one", "r1", 1); ("q two", "r2", 2); ("q three", "r3", 3);
   ("q four", "r4", 4); ("q five", "r5", 5); ("q six", "r6", 6);
   ("q seven", "r7", 7)].

(** A table with one row written at second 0. *)
Definition day_zero : FAQCache.Table :=
  FAQCache.set 1000 FAQCache.empty "what is the deadline?" "March 1" 0.

(** A budget of sixty characters. *)
Definition tight_config : Config := mkConfig 5 60 24 1000 10.

(** A logged-in user who has not asked anything yet. *)
Definition alice : App.SessionState :=
  App.mkSessionState "session-1" "alice" [] None.

(** A process whose cache already holds an answer written ten seconds
    before the clocks start, and whose memory tiers are empty. *)
Definition warm_world : World :=
  mkWorld [] [] ConversationMemory.empty
          (FAQCache.set 1000 FAQCache.empty "what is the deadline?" "March 1" 990).

(** The first question of [alice], against the handbook. *)
Definition first_ask : Res App.SessionState * World :=
  App.on_question handbook_env default_config alice
    "What is the registration deadline?" fresh_world.

Definition after_first_ask : World := snd first_ask.

Definition alice_after_first_ask : App.SessionState :=
  match fst first_ask with
  | Ok st => st
  | Raise _ => alice
  end.

End Samples.

(* ================================================================== *)
(** ** Vocabulary of the properties of the agents *)
(* ================================================================== *)

Module AgentSpec.
Import Eff.



(** A string of white space only. *)
Fixpoint blank (s : string) : bool :=
  match s with
  | EmptyString => true
  | String c r => PyStr.isspace c && blank r
  end.






(** The queries handed to the vector index, newest first. *)
Fixpoint lookups (tr : list Event) : list ChromaQuery :=
  match tr with
  | [] => []
  | EvChroma q :: tr' => q :: lookups tr'
  | _ :: tr' => lookups tr'
  end.


(** An event of the generation client: a request or a sleep. *)
Definition of_llm (e : Event) : bool := is_generate e || is_sleep e.

End AgentSpec.

(* ================================================================== *)
(** ** agents/orchestrator.py: the session methods *)
(* ================================================================== *)

Module OrchestratorSession.
Import Eff.

(** [clear_session] *)
Definition clear_session (self : AgentOrchestrator.t) : M unit :=
  with_sessions (fun m =>
    SessionMemory.clear_session m (AgentOrchestrator.session_id self)).

End OrchestratorSession.

(** *** Vocabulary of the properties of the session tier *)

Module SessionSpec.

(** What a caller can do to the session tier. *)
Inductive Op : Type :=
| OpAdd (sid query response : string) (now : Z)
| OpClear (sid : string).

Definition step (max_turns : Z) (m : SessionMemory.t) (op : Op) : SessionMemory.t :=
  match op with
  | OpAdd sid q r now => SessionMemory.add_turn max_turns m sid q r now
  | OpClear sid => SessionMemory.clear_session m sid
  end.

Definition run (max_turns : Z) (ops : list Op) (m : SessionMemory.t)
    : SessionMemory.t :=
  fold_left (step max_turns) ops m.

End SessionSpec.

(* ================================================================== *)
(** ** Batches: core/embeddings.py, core/vector_store.py, load_document.py *)
(* ================================================================== *)

Module Batches.
Import Eff.

(** The slices [l[i:i + size]] for [i] in [range(0, len(l), size)], for a
    step [size >= 1]; [fuel] bounds the number of slices. *)
Fixpoint slices {A} (fuel size : nat) (l : list A) : list (list A) :=
  match fuel, l with
  | S fuel', _ :: _ => firstn size l :: slices fuel' size (skipn size l)
  | _, _ => []
  end.

(** The same for a Python int [size]: [range] refuses a step of zero and
    is empty for a negative one. *)
Definition py_slices {A} (size : Z) (l : list A) : Res (list (list A)) :=
  if size =? 0 then Raise "range() arg 3 must not be zero"
  else if size <? 0 then Ok []
  else Ok (slices (List.length l) (Z.to_nat size) l).

(** [[f"doc_{i}" for i in range(n)]] *)
Definition doc_ids (n : nat) : list string :=
  map (fun i => "doc_" ++ str_of_nat i) (seq 0 n).

(** [x, sep, y, sep, z] *)
Fixpoint intersperse {A} (sep : A) (l : list A) : list A :=
  match l with
  | [] => []
  | [x] => [x]
  | x :: rest => x :: sep :: intersperse sep rest
  end.

End Batches.

Module GeminiEmbeddingsBatch.
Import Eff.

Section Adapter.
Variable env : Env.

(** The loop of [batch_embed] over its batches. *)
Fixpoint embed_batches (batches : list (list string)) : M (list (list Q)) :=
  match batches with
  | [] => ret []
  | batch :: rest =>
      batch_embeddings <- GeminiEmbeddings.call env batch ;;
      more <- embed_batches rest ;;
      ret (batch_embeddings ++ more)%list
  end.

(** [batch_embed] *)
Definition batch_embed (texts : list string) (batch_size : Z)
    : M (list (list Q)) :=
  match Batches.py_slices batch_size texts with
  | Ok batches => embed_batches batches
  | Raise e => raise e
  end.

End Adapter.
End GeminiEmbeddingsBatch.

Module VectorStoreIngest.
Import Eff.

(** One call of [collection.add]. *)
Record AddCall := mkAddCall {
  add_documents_of : list string;
  add_ids_of : list string;
  add_metadatas_of : list Meta }.

(** [batch_size = 100] *)
Definition batch_size : nat := 100.

(** The loop of [add_documents]: the calls of [collection.add] it makes,
    in order, as long as none of them raises. *)
Fixpoint add_calls (fuel : nat) (documents ids : list string)
    (metadatas : list Meta) : list AddCall :=
  match fuel, documents with
  | S fuel', _ :: _ =>
      mkAddCall (firstn batch_size documents) (firstn batch_size ids)
                (firstn batch_size metadatas)
        :: add_calls fuel' (skipn batch_size documents) (skipn batch_size ids)
                     (skipn batch_size metadatas)
  | _, _ => []
  end.

(** [add_documents] *)
Definition add_documents (documents : list string) (ids : option (list string))
    (metadatas : option (list Meta)) : list AddCall :=
  let ids' := match ids with
              | Some l => l
              | None => Batches.doc_ids (List.length documents)
              end in
  let metadatas' := match metadatas with
                    | Some l => l
                    | None => map (fun _ => mkMeta (Some "unknown") None None) documents
                    end in
  add_calls (List.length documents) documents ids' metadatas'.

End VectorStoreIngest.

Module LoadDocument.

Definition BATCH_SIZE : nat := 50.
Definition BATCH_DELAY : Z := 60.

(** What the loop of [load_documents] does, in order, as long as no call
    raises: a [db.add] of a batch with its ids, or a [time.sleep]. *)
Inductive Step : Type :=
| Add (documents ids : list string)
| Wait (seconds : Z).

Fixpoint steps (fuel : nat) (documents ids : list string) : list Step :=
  match fuel, documents with
  | S fuel', _ :: _ =>
      (Add (firstn BATCH_SIZE documents) (firstn BATCH_SIZE ids)
         :: (if (BATCH_SIZE <? List.length documents)%nat
             then [Wait BATCH_DELAY] else []))
      ++ steps fuel' (skipn BATCH_SIZE documents) (skipn BATCH_SIZE ids)
  | _, _ => []
  end.

(** [load_documents], from the chunks on. *)
Definition load_documents (documents : list string) : list Step :=
  steps (List.length documents) documents
        (Batches.doc_ids (List.length documents)).

(** The batches a run adds, and the seconds it sleeps. *)
Fixpoint added (l : list Step) : list (list string * list string) :=
  match l with
  | [] => []
  | Add d i :: r => (d, i) :: added r
  | Wait _ :: r => added r
  end.

End LoadDocument.

(* ================================================================== *)
(** ** database/operations.py: the users table; app.py: login, register *)
(* ================================================================== *)

Module DatabaseOperations.

(** A row of the table [users]. *)
Record User := mkUser {
  id : Z;
  username : string;
  password : string;
  role : string;
  email : option string;
  created_at : Z;
  last_login : option Z }.

(** The table: its rows in rowid order and the largest rowid handed out. *)
Record Table := mkTable {
  rows : list User;
  last_rowid : Z }.

Definition empty : Table := mkTable [] 0.

(** [WHERE username = ?] *)
Definition named (name : string) (u : User) : bool := String.eqb (username u) name.

(** The dict [authenticate_user] returns. *)
Record Account := mkAccount {
  account_id : Z;
  account_username : string;
  account_role : string;
  account_email : option string }.

(** The dict [get_user] returns. *)
Record Profile := mkProfile {
  profile_id : Z;
  profile_username : string;
  profile_role : string;
  profile_email : option string;
  profile_created_at : Z;
  profile_last_login : option Z }.

(** [create_user]: the INSERT, or [False] when the UNIQUE constraint on
    [username] raises IntegrityError.  [sql_now] is the reading of
    CURRENT_TIMESTAMP. *)
Definition create_user (t : Table) (name pass role_ : string)
    (email_ : option string) (sql_now : Z) : bool * Table :=
  if existsb (named name) (rows t) then (false, t)
  else
    let i := last_rowid t + 1 in
    (true, mkTable (rows t ++ [mkUser i name pass role_ email_ sql_now None]) i).

Definition with_last_login (now : Z) (u : User) : User :=
  mkUser (id u) (username u) (password u) (role u) (email u) (created_at u)
         (Some now).

Definition with_role (role_ : string) (u : User) : User :=
  mkUser (id u) (username u) (password u) role_ (email u) (created_at u)
         (last_login u).

(** [UPDATE users SET ... WHERE username = ?] *)
Definition update_named (name : string) (f : User -> User) (rs : list User)
    : list User :=
  map (fun u => if named name u then f u else u) rs.

(** [authenticate_user] *)
Definition authenticate_user (t : Table) (name pass : string) (sql_now : Z)
    : option Account * Table :=
  match find (fun u => named name u && String.eqb (password u) pass) (rows t) with
  | Some u =>
      (Some (mkAccount (id u) (username u) (role u) (email u)),
       mkTable (update_named name (with_last_login sql_now) (rows t)) (last_rowid t))
  | None => (None, t)
  end.

(** [get_user] *)
Definition get_user (t : Table) (name : string) : option Profile :=
  match find (named name) (rows t) with
  | Some u =>
      Some (mkProfile (id u) (username u) (role u) (email u) (created_at u)
                      (last_login u))
  | None => None
  end.

(** [update_user_role]: [rowcount > 0], and the table left. *)
Definition update_user_role (t : Table) (name role_ : string) : bool * Table :=
  (existsb (named name) (rows t),
   mkTable (update_named name (with_role role_) (rows t)) (last_rowid t)).

(** What a caller can do to the table. *)
Inductive Op : Type :=
| OpCreate (name pass role_ : string) (email_ : option string) (sql_now : Z)
| OpAuthenticate (name pass : string) (sql_now : Z)
| OpUpdateRole (name role_ : string).

Definition step (t : Table) (op : Op) : Table :=
  match op with
  | OpCreate n p r e now => snd (create_user t n p r e now)
  | OpAuthenticate n p now => snd (authenticate_user t n p now)
  | OpUpdateRole n r => snd (update_user_role t n r)
  end.

Definition run (ops : list Op) (t : Table) : Table := fold_left step ops t.

(** What the schema guarantees: ids and user names are keys. *)
Definition wf (t : Table) : Prop :=
  NoDup (map id (rows t)) /\
  Forall (fun u => id u <= last_rowid t) (rows t) /\
  NoDup (map username (rows t)).

End DatabaseOperations.

Module AppAuth.
Import DatabaseOperations.

(** [st.session_state], logged in or not. *)
Record Visit := mkVisit {
  visit_session_id : string;
  visit_user : option Account;
  visit_chat_history : list App.ChatMessage;
  visit_orchestrator : option AgentOrchestrator.t }.

(** [login] *)
Definition login (st : Visit) (t : Table) (name pass : string) (sql_now : Z)
    : bool * Visit * Table :=
  match authenticate_user t name pass sql_now with
  | (Some user, t') =>
      (true,
       mkVisit (visit_session_id st) (Some user) (visit_chat_history st)
         (Some (App.create_orchestrator (visit_session_id st) (Some name))),
       t')
  | (None, t') => (false, st, t')
  end.

(** [register] *)
Definition register (t : Table) (name pass : string) (sql_now : Z)
    : bool * Table :=
  create_user t name pass "student" None sql_now.

(** [logout]; [fresh_id] is what [uuid.uuid4()] gives. *)
Definition logout (st : Visit) (fresh_id : string) : Visit :=
  mkVisit fresh_id None [] None.

End AppAuth.

(* ================================================================== *)
(** ** core/memory.py: reading the conversations table *)
(* ================================================================== *)

Module ConversationQueries.
Import ConversationMemory.

(** [LIMIT ?]: a negative limit is no limit. *)
Definition sql_limit {A} (k : Z) (l : list A) : list A :=
  if k <? 0 then l else firstn (Z.to_nat k) l.

(** [r] comes before [x] under [ORDER BY timestamp DESC].  The statement
    is answered from the index [idx_session (session_id, timestamp)] read
    backwards, whose entries end with the rowid: rows with equal
    timestamps come out by descending rowid. *)
Definition newer (r x : Row) : bool :=
  (timestamp x <? timestamp r) ||
  ((timestamp x =? timestamp r) && (id x <=? id r)).

Fixpoint insert_newer_first (r : Row) (l : list Row) : list Row :=
  match l with
  | [] => [r]
  | x :: l' =>
      if newer r x then r :: x :: l' else x :: insert_newer_first r l'
  end.

Fixpoint order_newer_first (l : list Row) : list Row :=
  match l with
  | [] => []
  | r :: l' => insert_newer_first r (order_newer_first l')
  end.

(** One dict of the list [get_history] returns. *)
Record Turn := mkTurn {
  user : string;
  assistant : string;
  turn_intent : option string;
  turn_timestamp : Z }.

Definition turn_of (r : Row) : Turn :=
  mkTurn (query r) (response r) (intent r) (timestamp r).

(** [get_history] *)
Definition get_history (m : t) (sid : string) (limit : Z) : list Turn :=
  map turn_of (rev (sql_limit limit (order_newer_first (session_rows m sid)))).

(** [clear_session]: the number of rows deleted, and the table left. *)
Definition clear_session (m : t) (sid : string) : Z * t :=
  (Z.of_nat (List.length (session_rows m sid)),
   mk (filter (fun r => negb (String.eqb (session_id r) sid)) (rows m))
      (last_rowid m)).

(** Rows in the order of their ids, with a clock that never ran
    backwards. *)
Definition before (a b : Row) : Prop :=
  timestamp a <= timestamp b /\ id a < id b.

Definition chronological (m : t) : Prop :=
  StronglySorted before (rows m) /\
  Forall (fun r => id r <= last_rowid m) (rows m).

End ConversationQueries.

(* ================================================================== *)
(** ** database/faq_cache.py: get_popular_queries *)
(* ================================================================== *)

Module FAQCacheReports.
Import FAQCache.

(** [ORDER BY hit_count DESC]; rows with equal counts stay in scan order,
    as for [ORDER BY last_accessed]. *)
Fixpoint insert_by_hits (r : Row) (l : list Row) : list Row :=
  match l with
  | [] => [r]
  | x :: l' =>
      if hit_count x <=? hit_count r then r :: x :: l'
      else x :: insert_by_hits r l'
  end.

Fixpoint order_by_hits (l : list Row) : list Row :=
  match l with
  | [] => []
  | r :: l' => insert_by_hits r (order_by_hits l')
  end.

(** One dict of the list [get_popular_queries] returns. *)
Record Popular := mkPopular {
  popular_query : string;
  popular_response : string;
  popular_hit_count : Z;
  popular_last_accessed : Z }.

(** [row[1][:200] + "..." if len(row[1]) > 200 else row[1]] *)
Definition preview (response : string) : string :=
  if PyStr.len response >? 200 then PyStr.slice_to response 200 ++ "..."
  else response.

Definition popular_of (r : Row) : Popular :=
  mkPopular (query r) (preview (response r)) (hit_count r) (last_accessed r).

(** [get_popular_queries] *)
Definition get_popular_queries (t : Table) (limit : Z) : list Popular :=
  map popular_of
      (ConversationQueries.sql_limit limit (order_by_hits (rows t))).

End FAQCacheReports.

(* ================================================================== *)
(** ** core/memory.py, agents/orchestrator.py: get_session_summary *)
(* ================================================================== *)

Module ConversationSummary.
Import ConversationMemory.

(** The dict [get_session_summary] returns; [intents] in the order in
    which the comprehension inserts its keys. *)
Record Summary := mkSummary {
  summary_session_id : string;
  total_turns : Z;
  start_time : option Z;
  end_time : option Z;
  intents : list (string * Z) }.

(** [MIN(timestamp)], [MAX(timestamp)]: NULL over no row. *)
Definition min_timestamp (l : list Row) : option Z :=
  match l with
  | [] => None
  | r :: l' => Some (fold_left (fun a x => Z.min a (timestamp x)) l' (timestamp r))
  end.

Definition max_timestamp (l : list Row) : option Z :=
  match l with
  | [] => None
  | r :: l' => Some (fold_left (fun a x => Z.max a (timestamp x)) l' (timestamp r))
  end.

(** [GROUP BY intent] gives one row per intent, in ascending order of the
    text. *)
Fixpoint insert_label (s : string) (ls : list string) : list string :=
  match ls with
  | [] => [s]
  | x :: r =>
      match String.compare s x with
      | Lt => s :: x :: r
      | Eq => x :: r
      | Gt => x :: insert_label s r
      end
  end.

(** The groups that pass [if r[0]]: the intent is neither NULL nor
    empty. *)
Fixpoint labels (l : list Row) : list string :=
  match l with
  | [] => []
  | r :: l' =>
      match intent r with
      | Some ((String _ _) as s) => insert_label s (labels l')
      | _ => labels l'
      end
  end.

Definition has_intent (s : string) (r : Row) : bool :=
  match intent r with
  | Some x => String.eqb x s
  | None => false
  end.

(** [COUNT( * )] of a group. *)
Definition count_intent (s : string) (l : list Row) : Z :=
  Z.of_nat (List.length (filter (has_intent s) l)).

(** [get_session_summary] *)
Definition get_session_summary (m : t) (sid : string) : Summary :=
  let mine := session_rows m sid in
  mkSummary sid (Z.of_nat (List.length mine))
            (min_timestamp mine) (max_timestamp mine)
            (map (fun s => (s, count_intent s mine)) (labels mine)).

(** [d.get(k)] *)
Fixpoint lookup (k : string) (d : list (string * Z)) : option Z :=
  match d with
  | [] => None
  | (k', v) :: r => if String.eqb k' k then Some v else lookup k r
  end.

End ConversationSummary.

Module OrchestratorSummary.
Import Eff.

(** [AgentOrchestrator.get_session_summary] *)
Definition get_session_summary (self : AgentOrchestrator.t)
    : M ConversationSummary.Summary :=
  fun w =>
    (Ok (ConversationSummary.get_session_summary (conversations w)
           (AgentOrchestrator.session_id self)),
     w).

End OrchestratorSummary.

(* ================================================================== *)
(** ** More sample inputs *)
(* ================================================================== *)

Module MoreSamples.
Import Eff.

(** A session tier holding two turns of one session. *)
Definition two_turns : SessionMemory.t :=
  [("session-1", [SessionMemory.mkTurn "hello" "Hi!" 1;
                  SessionMemory.mkTurn "when is the deadline?" "March 1" 2])].

(** A generation provider that is always out of quota. *)
Definition busy_env : Env :=
  mkEnv (fun _ _ => Raise "429 Too Many Requests")
        (embed_provider Samples.handbook_env) (chroma Samples.handbook_env)
        (admin_schema Samples.handbook_env) (admin_execute Samples.handbook_env)
        (py_clock Samples.handbook_env) (sql_clock Samples.handbook_env).


(** An embedding provider that throttles the first two requests. *)
Definition throttled_env : Env :=
  mkEnv (llm_provider Samples.handbook_env)
        (fun n _ => if (n <? 2)%nat then Raise "429 RESOURCE_EXHAUSTED"
                    else Ok [(1 # 2)%Q])
        (chroma Samples.handbook_env)
        (admin_schema Samples.handbook_env) (admin_execute Samples.handbook_env)
        (py_clock Samples.handbook_env) (sql_clock Samples.handbook_env).


(** The orchestrator of [Samples.alice]. *)
Definition alice_orchestrator : AgentOrchestrator.t :=
  AgentOrchestrator.mk "session-1" (Some "alice").

(** A conversations table with two turns of one session and one of
    another, added at seconds 5, 5 and 9. *)
Definition three_rows : ConversationMemory.t :=
  snd (ConversationMemory.add_turn
    (snd (ConversationMemory.add_turn
      (snd (ConversationMemory.add_turn ConversationMemory.empty
              "session-1" "hello" "Hi!" (Some "alice") (Some "general") None 5))
      "session-2" "who teaches algebra?" "Dr. Noether" None (Some "qa") None 5))
    "session-1" "when is the deadline?" "March 1" (Some "alice") (Some "qa")
    (Some ["Registration closes March 1"]) 9).

(** A visitor who has not logged in. *)
Definition visitor : AppAuth.Visit := AppAuth.mkVisit "session-1" None [] None.

End MoreSamples.

(* ================================================================== *)
(** * Properties *)
(* ================================================================== *)

(** ** Lists *)

Lemma filter_permutation {A} (keep : A -> bool) l1 l2 :
  Permutation l1 l2 -> Permutation (filter keep l1) (filter keep l2).
Proof.
  induction 1 as [| x l l' _ IH | x y l | l l' l'' _ IH1 _ IH2]; simpl.
  - constructor.
  - destruct (keep x); [constructor|]; exact IH.
  - destruct (keep x), (keep y); try reflexivity. constructor.
  - etransitivity; eassumption.
Qed.

Lemma filter_none {A} (f : A -> bool) (l : list A) :
  (forall x, In x l -> f x = false) -> filter f l = [].
Proof.
  induction l as [| a l IH]; simpl; intros H; [reflexivity|].
  rewrite (H a (or_introl eq_refl)). apply IH. intros; apply H; now right.
Qed.

Lemma filter_all {A} (f : A -> bool) (l : list A) :
  (forall x, In x l -> f x = true) -> filter f l = l.
Proof.
  induction l as [| a l IH]; simpl; intros H; [reflexivity|].
  rewrite (H a (or_introl eq_refl)). f_equal. apply IH. intros; apply H; now right.
Qed.

Lemma NoDup_map_inj {A B} (f : A -> B) (l : list A) (x y : A) :
  NoDup (map f l) -> In x l -> In y l -> f x = f y -> x = y.
Proof.
  induction l as [| a l IH]; simpl; intros ND Hx Hy E; [contradiction|].
  inversion ND as [| ? ? Hnin ND']; subst.
  destruct Hx as [-> | Hx], Hy as [-> | Hy]; auto.
  - exfalso. apply Hnin. rewrite E. now apply in_map.
  - exfalso. apply Hnin. rewrite <- E. now apply in_map.
Qed.

Lemma NoDup_app_disjoint {A} (l1 l2 : list A) (x : A) :
  NoDup (l1 ++ l2) -> In x l1 -> In x l2 -> False.
Proof.
  induction l1 as [| a l1 IH]; simpl; intros ND H1 H2; [contradiction|].
  inversion ND as [| ? ? Hnin ND']; subst.
  destruct H1 as [-> | H1].
  - apply Hnin. apply in_or_app. now right.
  - now apply IH.
Qed.

Lemma StronglySorted_app_le {A} (R : A -> A -> Prop) (l1 l2 : list A) :
  StronglySorted R (l1 ++ l2) ->
  forall x y, In x l1 -> In y l2 -> R x y.
Proof.
  induction l1 as [| a l1 IH]; simpl; intros S x y Hx Hy; [contradiction|].
  inversion S as [| ? ? S' F]; subst.
  destruct Hx as [-> | Hx].
  - rewrite Forall_forall in F. apply F. apply in_or_app. now right.
  - now apply IH.
Qed.

(** ** Strings *)

Lemma str_app_assoc (a b c : string) : (a ++ b) ++ c = a ++ (b ++ c).
Proof. induction a as [| x a IH]; simpl; [reflexivity | now rewrite IH]. Qed.

Lemma str_app_nil_r (a : string) : a ++ "" = a.
Proof. induction a as [| x a IH]; simpl; [reflexivity | now rewrite IH]. Qed.

Lemma str_length_app (a b : string) :
  String.length (a ++ b) = (String.length a + String.length b)%nat.
Proof. induction a as [| x a IH]; simpl; [reflexivity | now rewrite IH]. Qed.

Lemma length_take n s :
  String.length (PyStr.take n s) = Nat.min n (String.length s).
Proof.
  revert s. induction n as [| n IH]; intros [| c s]; simpl; auto.
Qed.

Lemma take_app n a b :
  (n <= String.length a)%nat -> PyStr.take n (a ++ b) = PyStr.take n a.
Proof.
  revert a. induction n as [| n IH]; intros [| c a] H; simpl in *; try lia; auto.
  rewrite IH; [reflexivity | lia].
Qed.

Lemma take_take n s : PyStr.take n (PyStr.take n s) = PyStr.take n s.
Proof.
  revert s. induction n as [| n IH]; intros [| c s]; simpl; auto.
  now rewrite IH.
Qed.

Lemma occurs_in_block (P a r1 r2 r3 p b S : string) :
  P ++ (a ++ (r1 ++ r2 ++ r3 ++ p) ++ b) ++ S =
  (P ++ a ++ r1 ++ r2 ++ r3) ++ p ++ (b ++ S).
Proof. rewrite !str_app_assoc. reflexivity. Qed.

(** An element of a list occurs in its [join]. *)
Lemma join_occurs sep (l : list string) x :
  In x l -> exists a b, PyStr.join sep l = a ++ x ++ b.
Proof.
  induction l as [| y l IH]; [contradiction|].
  intros [-> | Hin].
  - destruct l as [| z l].
    + exists "", "". simpl. now rewrite str_app_nil_r.
    + exists "", (sep ++ PyStr.join sep (z :: l)). reflexivity.
  - destruct (IH Hin) as (a & b & E). destruct l as [| z l]; [contradiction|].
    exists (y ++ sep ++ a), b.
    change (PyStr.join sep (y :: z :: l)) with (y ++ sep ++ PyStr.join sep (z :: l)).
    rewrite E. now rewrite !str_app_assoc.
Qed.

(** ** Regular expressions: the matcher decides the language *)

Module RegexFacts.
Import Regex.

Lemma str_app_eq_nil (a b : string) : a ++ b = "" -> a = "" /\ b = "".
Proof. destruct a; simpl; [auto | discriminate]. Qed.

Lemma nullable_sound r : nullable r = true -> Denotes r "".
Proof.
  induction r; simpl; intros H; try discriminate.
  - constructor.
  - apply andb_true_iff in H as [H1 H2].
    change "" with ("" ++ ""). constructor; auto.
  - apply orb_true_iff in H as [H | H]; [apply DAltL | apply DAltR]; auto.
  - constructor.
Qed.

Lemma nullable_complete r s : Denotes r s -> s = "" -> nullable r = true.
Proof.
  induction 1; intros E; simpl; try reflexivity; try discriminate.
  - apply str_app_eq_nil in E as [-> ->]. now rewrite IHDenotes1, IHDenotes2.
  - now rewrite IHDenotes.
  - rewrite IHDenotes by assumption. apply orb_true_r.
Qed.

Lemma denotes_seq a b s :
  Denotes (Seq a b) s ->
  exists s1 s2, s = s1 ++ s2 /\ Denotes a s1 /\ Denotes b s2.
Proof. intros D. inversion D; subst. eauto. Qed.

Lemma denotes_alt a b s : Denotes (Alt a b) s -> Denotes a s \/ Denotes b s.
Proof. intros D. inversion D; subst; auto. Qed.

Lemma denotes_eps s : Denotes Eps s -> s = "".
Proof. intros D. now inversion D. Qed.

Lemma denotes_void s : ~ Denotes Void s.
Proof. intros D. inversion D. Qed.

Lemma deriv_sound x r s : Denotes (deriv x r) s -> Denotes r (String x s).
Proof.
  revert s. induction r as [| c | | cs | r1 IH1 r2 IH2 | r1 IH1 r2 IH2 | r1 IH1 |];
    intros s D; cbn [deriv] in D.
  - now apply denotes_void in D.
  - destruct (accepts_char (Lit c) x) eqn:E; [| now apply denotes_void in D].
    apply denotes_eps in D as ->. now constructor.
  - destruct (accepts_char Space x) eqn:E; [| now apply denotes_void in D].
    apply denotes_eps in D as ->. now constructor.
  - destruct (accepts_char (OneOf cs) x) eqn:E; [| now apply denotes_void in D].
    apply denotes_eps in D as ->. now constructor.
  - assert (Head : forall u, Denotes (Seq (deriv x r1) r2) u ->
                             Denotes (Seq r1 r2) (String x u)).
    { intros u Du. apply denotes_seq in Du as (s1 & s2 & -> & D1 & D2).
      change (String x (s1 ++ s2)) with (String x s1 ++ s2). constructor; auto. }
    destruct (nullable r1) eqn:N; [| now apply Head].
    apply denotes_alt in D as [D | D]; [now apply Head|].
    change (String x s) with ("" ++ String x s).
    constructor; [now apply nullable_sound | auto].
  - apply denotes_alt in D as [D | D]; [apply DAltL | apply DAltR]; auto.
  - apply denotes_seq in D as (s1 & s2 & -> & D1 & D2).
    change (String x (s1 ++ s2)) with (String x s1 ++ s2).
    apply DStarMore; auto.
  - now apply denotes_void in D.
Qed.

Lemma deriv_complete r w :
  Denotes r w -> forall y u, w = String y u -> Denotes (deriv y r) u.
Proof.
  induction 1 as [| c x A | x A | cs x A | a b s1 s2 D1 IH1 D2 IH2
                 | a b s D IH | a b s D IH | a | a s1 s2 D1 IH1 D2 IH2];
    intros y u E; cbn [deriv]; try discriminate.
  - injection E as -> <-. rewrite A. constructor.
  - injection E as -> <-. rewrite A. constructor.
  - injection E as -> <-. rewrite A. constructor.
  - destruct s1 as [| z s1].
    + simpl in E. rewrite (nullable_complete _ _ D1 eq_refl).
      apply DAltR. now apply IH2.
    + simpl in E. injection E as -> <-.
      assert (D : Denotes (Seq (deriv y a) b) (s1 ++ s2))
        by (constructor; [now apply IH1 | assumption]).
      destruct (nullable a); [now apply DAltL | exact D].
  - apply DAltL. now apply IH.
  - apply DAltR. now apply IH.
  - destruct s1 as [| z s1].
    + simpl in E. now apply IH2.
    + simpl in E. injection E as -> <-.
      constructor; [now apply IH1 | assumption].
Qed.

(** [fullmatch] accepts exactly the words of the pattern. *)
Theorem fullmatch_denotes r s : fullmatch r s = true <-> Denotes r s.
Proof.
  revert r. induction s as [| x s IH]; intros r; simpl.
  - split; [apply nullable_sound | intros D; now apply (nullable_complete r "")].
  - rewrite IH. split; [apply deriv_sound | intros D; now apply (deriv_complete r _ D)].
Qed.

End RegexFacts.

(** ** The response cache *)

Module FAQCacheFacts.
Import FAQCache.

Lemma insert_perm r l : Permutation (insert_by_last_accessed r l) (r :: l).
Proof.
  induction l as [| x l IH]; simpl; [reflexivity|].
  destruct (last_accessed r <=? last_accessed x); [reflexivity|].
  rewrite IH. apply perm_swap.
Qed.

Lemma order_perm l : Permutation (order_by_last_accessed l) l.
Proof.
  induction l as [| r l IH]; simpl; [reflexivity|].
  rewrite insert_perm. now constructor.
Qed.

Lemma insert_sorted r l :
  StronglySorted le_la l -> StronglySorted le_la (insert_by_last_accessed r l).
Proof.
  induction 1 as [| x l S IH F]; simpl.
  - constructor; constructor.
  - destruct (last_accessed r <=? last_accessed x) eqn:E.
    + apply Z.leb_le in E. constructor.
      * now constructor.
      * constructor; [exact E|].
        rewrite Forall_forall in F |- *. intros y Hy.
        unfold le_la in *. specialize (F y Hy). lia.
    + apply Z.leb_gt in E. constructor; [exact IH|].
      rewrite Forall_forall in F |- *. intros y Hy.
      apply (Permutation_in _ (insert_perm r l)) in Hy.
      destruct Hy as [<- | Hy]; [unfold le_la; lia | now apply F].
Qed.

Lemma order_sorted l : StronglySorted le_la (order_by_last_accessed l).
Proof.
  induction l as [| r l IH]; simpl; [constructor | now apply insert_sorted].
Qed.

(** A table already in order of [last_accessed] is scanned as it is. *)
Lemma order_of_sorted l :
  StronglySorted le_la l -> order_by_last_accessed l = l.
Proof.
  induction 1 as [| x l S IH F]; simpl; [reflexivity|].
  rewrite IH. destruct l as [| y l]; [reflexivity|]. simpl.
  inversion F as [| ? ? Hxy _]; subst. unfold le_la in Hxy.
  apply Z.leb_le in Hxy. now rewrite Hxy.
Qed.

Lemma wf_empty : wf empty.
Proof. repeat split; simpl; constructor. Qed.

Lemma mem_id_In i ids : mem_id i ids = true <-> In i ids.
Proof.
  unfold mem_id. rewrite existsb_exists. split.
  - intros [x [Hx E]]. apply Z.eqb_eq in E. now subst.
  - intros H. exists i. split; [exact H | apply Z.eqb_refl].
Qed.

Lemma has_hash_true h r : has_hash h r = true <-> query_hash r = h.
Proof. unfold has_hash. apply String.eqb_eq. Qed.

Lemma map_id_update h f rs :
  (forall r, id (f r) = id r) -> map id (update_where h f rs) = map id rs.
Proof.
  intros Hf. unfold update_where. rewrite map_map. apply map_ext.
  intros r. destruct (has_hash h r); auto.
Qed.

Lemma map_hash_update h f rs :
  (forall r, query_hash (f r) = query_hash r) ->
  map query_hash (update_where h f rs) = map query_hash rs.
Proof.
  intros Hf. unfold update_where. rewrite map_map. apply map_ext.
  intros r. destruct (has_hash h r); auto.
Qed.

Lemma length_update h f rs : List.length (update_where h f rs) = List.length rs.
Proof. unfold update_where. apply length_map. Qed.

Lemma wf_update h f t :
  (forall r, id (f r) = id r) -> (forall r, query_hash (f r) = query_hash r) ->
  wf t -> wf (mkTable (update_where h f (rows t)) (last_rowid t)).
Proof.
  intros Hi Hh (N & F & U). unfold wf; simpl.
  rewrite map_id_update, map_hash_update by assumption.
  repeat split; try assumption.
  unfold update_where. rewrite Forall_map. 
  eapply Forall_impl; [| exact F]. simpl. intros r Hr.
  destruct (has_hash h r); [rewrite Hi|]; exact Hr.
Qed.

Lemma NoDup_map_filter {A B} (key : A -> B) (keep : A -> bool) rs :
  NoDup (map key rs) -> NoDup (map key (filter keep rs)).
Proof.
  induction rs as [| a rs IH]; simpl; intros ND; [constructor|].
  inversion ND as [| ? ? Hnin ND']; subst.
  destruct (keep a); simpl; [constructor|]; auto.
  intros Hin. apply Hnin. apply in_map_iff in Hin as (x & <- & Hx).
  apply filter_In in Hx as [Hx _]. now apply in_map.
Qed.

Lemma wf_filter p t : wf t -> wf (mkTable (filter p (rows t)) (last_rowid t)).
Proof.
  intros (N & F & U). unfold wf; simpl. repeat split.
  - now apply NoDup_map_filter.
  - rewrite Forall_forall in F |- *. intros r Hr.
    apply filter_In in Hr as [Hr _]. now apply F.
  - now apply NoDup_map_filter.
Qed.

Lemma existsb_has_hash h rs :
  existsb (has_hash h) rs = true <-> In h (map query_hash rs).
Proof.
  rewrite existsb_exists, in_map_iff. split.
  - intros (r & Hr & E). exists r. split; [now apply has_hash_true | exact Hr].
  - intros (r & E & Hr). exists r. split; [exact Hr | now apply has_hash_true].
Qed.

Lemma wf_upsert t q r now : wf t -> wf (upsert t q r now).
Proof.
  intros W. unfold upsert.
  destruct (existsb (has_hash (_hash_query q)) (rows t)) eqn:E.
  - apply wf_update; auto.
  - destruct W as (N & F & U). unfold wf; simpl.
    rewrite !map_app; simpl. repeat split.
    + apply NoDup_app_remove_l with (l := []). simpl.
      apply Permutation_NoDup with (l := (last_rowid t + 1) :: map id (rows t)).
      * apply Permutation_cons_append.
      * constructor; [| exact N]. intros Hin.
        apply in_map_iff in Hin as (x & Hx & Hin).
        rewrite Forall_forall in F. specialize (F x Hin). lia.
    + apply Forall_app. split.
      * eapply Forall_impl; [| exact F]. simpl. intros; lia.
      * constructor; [simpl; lia | constructor].
    + apply Permutation_NoDup with (l := _hash_query q :: map query_hash (rows t)).
      * apply Permutation_cons_append.
      * constructor; [| exact U]. intros Hin.
        apply existsb_has_hash in Hin. congruence.
Qed.

Lemma wf_cleanup max_size t : wf t -> wf (_cleanup_if_needed max_size t).
Proof.
  intros W. unfold _cleanup_if_needed.
  destruct (_ >? _); [now apply wf_filter | exact W].
Qed.

Lemma wf_set max_size t q r now : wf t -> wf (set max_size t q r now).
Proof. intros W. unfold set. now apply wf_cleanup, wf_upsert. Qed.

Lemma wf_get ttl t q py_now sql_now :
  wf t -> wf (snd (get ttl t q py_now sql_now)).
Proof.
  intros W. unfold get. destruct (fetch _ _ _ _); simpl; [| exact W].
  now apply wf_update.
Qed.

Lemma wf_invalidate t q : wf t -> wf (snd (invalidate t q)).
Proof.
  intros W. unfold invalidate; simpl.
  assert (E : wf (mkTable [] (last_rowid t))) by (repeat split; simpl; constructor).
  destruct q as [q|]; [| exact E].
  destruct (PyStr.truthy q); [now apply wf_filter | exact E].
Qed.

Lemma wf_step ttl max_size t op : wf t -> wf (step ttl max_size t op).
Proof.
  intros W. destruct op; simpl;
    [now apply wf_get | now apply wf_set | now apply wf_invalidate].
Qed.

Lemma wf_run ttl max_size ops t : wf t -> wf (run ttl max_size ops t).
Proof.
  revert t. induction ops as [| op ops IH]; simpl; intros t W; [exact W|].
  apply IH. now apply wf_step.
Qed.

Lemma keep_second_part (l1 l2 : list Row) :
  NoDup (map id (l1 ++ l2)) ->
  filter (fun r => negb (mem_id (id r) (map id l1))) (l1 ++ l2) = l2.
Proof.
  intros ND. rewrite filter_app, filter_none, filter_all; [reflexivity| |].
  - intros y Hy. apply negb_true_iff.
    destruct (mem_id (id y) (map id l1)) eqn:E; [| reflexivity].
    exfalso. apply mem_id_In in E. rewrite map_app in ND.
    eapply NoDup_app_disjoint; [exact ND | exact E | now apply in_map].
  - intros x Hx. apply negb_false_iff, mem_id_In. now apply in_map.
Qed.

Lemma keep_after_first n (l : list Row) :
  NoDup (map id l) ->
  filter (fun r => negb (mem_id (id r) (map id (firstn n l)))) l = skipn n l.
Proof.
  intros ND.
  pose proof (keep_second_part (firstn n l) (skipn n l)) as K.
  rewrite firstn_skipn in K. now apply K.
Qed.

Lemma survivors_perm n rs :
  NoDup (map id rs) ->
  Permutation (survivors n rs) (skipn n (order_by_last_accessed rs)).
Proof.
  intros ND. unfold survivors.
  rewrite (filter_permutation _ _ _ (Permutation_sym (order_perm rs))).
  rewrite keep_after_first; [reflexivity|].
  eapply Permutation_NoDup; [| exact ND].
  apply Permutation_map, Permutation_sym, order_perm.
Qed.

Lemma survivors_length n rs :
  NoDup (map id rs) ->
  List.length (survivors n rs) = (List.length rs - n)%nat.
Proof.
  intros ND. rewrite (Permutation_length (survivors_perm n rs ND)).
  rewrite length_skipn. now rewrite (Permutation_length (order_perm rs)).
Qed.

Lemma survivors_sorted n rs :
  NoDup (map id rs) -> StronglySorted le_la rs -> survivors n rs = skipn n rs.
Proof.
  intros ND S. unfold survivors. rewrite (order_of_sorted _ S).
  now apply keep_after_first.
Qed.

(** A deleted row was accessed no later than any row that stays. *)
Lemma survivors_lru n rs x y :
  NoDup (map id rs) ->
  In x rs -> ~ In x (survivors n rs) -> In y (survivors n rs) ->
  last_accessed x <= last_accessed y.
Proof.
  intros ND Hx Hnx Hy.
  pose proof (survivors_perm n rs ND) as P.
  apply (Permutation_in _ P) in Hy.
  assert (Hx' : In x (firstn n (order_by_last_accessed rs))).
  { apply (Permutation_in _ (Permutation_sym (order_perm rs))) in Hx.
    rewrite <- (firstn_skipn n (order_by_last_accessed rs)) in Hx.
    apply in_app_or in Hx as [Hx | Hx]; [exact Hx|].
    exfalso. apply Hnx. apply (Permutation_in _ (Permutation_sym P)). exact Hx. }
  apply (StronglySorted_app_le le_la (firstn n (order_by_last_accessed rs))
           (skipn n (order_by_last_accessed rs))); try assumption.
  rewrite firstn_skipn. apply order_sorted.
Qed.

Lemma cleanup_rows max_size t :
  rows (_cleanup_if_needed max_size t) =
  if count t >? max_size
  then survivors (Z.to_nat (count t - max_size)) (rows t)
  else rows t.
Proof.
  unfold _cleanup_if_needed, count, survivors, victims.
  destruct (_ >? _); reflexivity.
Qed.

Lemma cleanup_last_rowid max_size t :
  last_rowid (_cleanup_if_needed max_size t) = last_rowid t.
Proof. unfold _cleanup_if_needed. destruct (_ >? _); reflexivity. Qed.

Lemma table_eq (a b : Table) :
  rows a = rows b -> last_rowid a = last_rowid b -> a = b.
Proof. destruct a, b; simpl; congruence. Qed.

Lemma cleanup_count max_size t :
  0 <= max_size -> wf t ->
  count (_cleanup_if_needed max_size t) = Z.min (count t) max_size.
Proof.
  intros M (ND & _). unfold count at 1. rewrite cleanup_rows.
  destruct (count t >? max_size) eqn:E.
  - apply Z.gtb_lt in E. rewrite survivors_length by exact ND.
    unfold count in *. lia.
  - assert (count t <= max_size) by (destruct (Z.gtb_spec (count t) max_size); [discriminate | lia]).
    unfold count in *. lia.
Qed.

Lemma fresh_rows_app start l1 l2 :
  fresh_rows start (l1 ++ l2) =
  (fresh_rows start l1 ++ fresh_rows (start + Z.of_nat (List.length l1)) l2)%list.
Proof.
  revert start. induction l1 as [| [[q r] now] l1 IH]; intros start.
  - simpl. now rewrite Z.add_0_r.
  - cbn [fresh_rows app List.length]. rewrite IH, Nat2Z.inj_succ.
    do 3 f_equal. lia.
Qed.

Lemma fresh_rows_length start l : List.length (fresh_rows start l) = List.length l.
Proof.
  revert start. induction l as [| [[q r] now] l IH]; intros; simpl; auto.
Qed.

Lemma fresh_rows_hash start l :
  map query_hash (fresh_rows start l) = map (fun x => _hash_query (fst (fst x))) l.
Proof.
  revert start. induction l as [| [[q r] now] l IH]; intros; simpl; [reflexivity|].
  now rewrite IH.
Qed.

Lemma fresh_rows_query start l :
  map query (fresh_rows start l) = map (fun x => fst (fst x)) l.
Proof.
  revert start. induction l as [| [[q r] now] l IH]; intros; simpl; [reflexivity|].
  now rewrite IH.
Qed.

Lemma fresh_rows_la start l :
  map last_accessed (fresh_rows start l) = map snd l.
Proof.
  revert start. induction l as [| [[q r] now] l IH]; intros; simpl; [reflexivity|].
  now rewrite IH.
Qed.

Lemma fresh_rows_id_bounds start l :
  Forall (fun r => start < id r <= start + Z.of_nat (List.length l)) (fresh_rows start l).
Proof.
  revert start. induction l as [| [[q r] now] l IH]; intros; simpl; constructor.
  - simpl. lia.
  - eapply Forall_impl; [| apply IH]. simpl. intros; lia.
Qed.

Lemma fresh_rows_NoDup start l : NoDup (map id (fresh_rows start l)).
Proof.
  revert start. induction l as [| [[q r] now] l IH]; intros; simpl; constructor.
  - intros Hin. apply in_map_iff in Hin as (x & E & Hx).
    pose proof (fresh_rows_id_bounds (start + 1) l) as B.
    rewrite Forall_forall in B. specialize (B x Hx). lia.
  - apply IH.
Qed.

Lemma sorted_map_la (rs : list Row) :
  StronglySorted Z.le (map last_accessed rs) -> StronglySorted le_la rs.
Proof.
  induction rs as [| r rs IH]; simpl; intros S; [constructor|].
  inversion S as [| ? ? S' F]; subst. constructor; [now apply IH|].
  rewrite Forall_forall in F |- *. intros y Hy. apply F. now apply in_map.
Qed.

Lemma StronglySorted_skipn {A} (R : A -> A -> Prop) n (l : list A) :
  StronglySorted R l -> StronglySorted R (skipn n l).
Proof.
  revert l. induction n as [| n IH]; intros l S; [exact S|].
  destruct l as [| a l]; [constructor|]. simpl.
  inversion S; subst. now apply IH.
Qed.

Lemma NoDup_skipn {A} n (l : list A) : NoDup l -> NoDup (skipn n l).
Proof.
  revert l. induction n as [| n IH]; intros l ND; [exact ND|].
  destruct l as [| a l]; [constructor|]. simpl.
  inversion ND; subst. now apply IH.
Qed.

Lemma In_skipn {A} n (l : list A) x : In x (skipn n l) -> In x l.
Proof.
  intros H. rewrite <- (firstn_skipn n l). apply in_or_app. now right.
Qed.

Lemma skipn_app_le {A} n (l1 l2 : list A) :
  (n <= List.length l1)%nat -> skipn n (l1 ++ l2) = (skipn n l1 ++ l2)%list.
Proof.
  intros H. rewrite skipn_app.
  replace (n - List.length l1)%nat with 0%nat by lia. reflexivity.
Qed.

Lemma run_snoc ttl max_size ops op t :
  run ttl max_size (ops ++ [op]) t = step ttl max_size (run ttl max_size ops t) op.
Proof. unfold run. now rewrite fold_left_app. Qed.

(** Writes of pairwise different hashes under a clock that does not run
    backwards, into an empty table: the table holds the rows of the last
    [max_size] writes. *)
Lemma writes_into_empty ttl max_size l :
  0 <= max_size ->
  NoDup (map (fun x => _hash_query (fst (fst x))) l) ->
  StronglySorted Z.le (map snd l) ->
  run ttl max_size (writes l) empty =
  mkTable (skipn (List.length l - Z.to_nat max_size) (fresh_rows 0 l))
          (Z.of_nat (List.length l)).
Proof.
  intros M. induction l as [| [[q r] now] l IH] using rev_ind; intros NDh St.
  - reflexivity.
  - unfold writes in *. rewrite map_app in *. simpl map in *.
    rewrite run_snoc. simpl step.
    assert (NDh' : NoDup (map (fun x => _hash_query (fst (fst x))) l)).
    { eapply NoDup_app_remove_r. exact NDh. }
    assert (St' : StronglySorted Z.le (map snd l)).
    { clear - St. induction l as [| a l IH]; simpl in *; [constructor|].
      inversion St as [| ? ? S F]; subst. constructor; [now apply IH|].
      apply Forall_app in F. tauto. }
    rewrite IH by assumption. clear IH.
    set (F := fresh_rows 0 l).
    set (k := (List.length l - Z.to_nat max_size)%nat).
    assert (Hfresh : existsb (has_hash (_hash_query q)) (skipn k F) = false).
    { destruct (existsb _ _) eqn:E; [| reflexivity]. exfalso.
      apply existsb_has_hash in E. apply in_map_iff in E as (x & E & Hx).
      apply In_skipn in Hx.
      assert (In (_hash_query q) (map query_hash F)).
      { rewrite <- E. now apply in_map. }
      unfold F in H. rewrite fresh_rows_hash in H.
      eapply NoDup_app_disjoint; [exact NDh | exact H | now left]. }
    unfold set, upsert. simpl rows. rewrite Hfresh. simpl last_rowid.
    rewrite fresh_rows_app. fold F. simpl fresh_rows.
    set (new := mkRow (Z.of_nat (List.length l) + 1) (_hash_query q) q r 1 now now).
    assert (LF : List.length F = List.length l) by apply fresh_rows_length.
    assert (Sorted_all : StronglySorted le_la (F ++ [new])).
    { apply sorted_map_la. rewrite map_app. unfold F. rewrite fresh_rows_la. exact St. }
    assert (ND_all : NoDup (map id (F ++ [new]))).
    { pose proof (fresh_rows_NoDup 0 (l ++ [(q, r, now)])) as N.
      rewrite fresh_rows_app in N. simpl in N. exact N. }
    assert (Hk : (k <= List.length F)%nat) by (unfold k; lia).
    apply table_eq;
      [| rewrite cleanup_last_rowid, length_app; simpl; lia].
    simpl rows at 2.
    rewrite cleanup_rows. unfold count. simpl rows.
    rewrite !length_app, length_skipn, LF. simpl List.length.
    destruct (_ >? _) eqn:E.
    + apply Z.gtb_lt in E.
      rewrite survivors_sorted.
      * rewrite <- skipn_app_le by exact Hk. rewrite skipn_skipn.
        f_equal. unfold k in *. lia.
      * rewrite <- skipn_app_le by exact Hk. rewrite <- skipn_map.
        now apply NoDup_skipn.
      * rewrite <- skipn_app_le by exact Hk. now apply StronglySorted_skipn.
    + assert (Z.of_nat (List.length l - k + 1) <= max_size)
        by (destruct (Z.gtb_spec (Z.of_nat (List.length l - k + 1)) max_size); [discriminate | lia]).
      rewrite <- skipn_app_le by exact Hk. f_equal. unfold k in *. lia.
Qed.

(** *** Rows under a hash *)

Lemma rows_for_unique h rs :
  NoDup (map query_hash rs) -> In h (map query_hash rs) ->
  exists row, filter (has_hash h) rs = [row] /\ In row rs /\ query_hash row = h.
Proof.
  induction rs as [| a rs IH]; simpl; intros ND Hin; [contradiction|].
  inversion ND as [| ? ? Hnin ND']; subst.
  destruct (has_hash h a) eqn:E.
  - apply has_hash_true in E. exists a. repeat split; auto.
    f_equal. apply filter_none. intros x Hx.
    destruct (has_hash h x) eqn:Ex; [| reflexivity].
    apply has_hash_true in Ex. exfalso. apply Hnin.
    rewrite E, <- Ex. now apply in_map.
  - destruct Hin as [Hin | Hin].
    + apply has_hash_true in Hin. congruence.
    + destruct (IH ND' Hin) as (row & F & I & Hh).
      exists row. repeat split; auto.
Qed.

Lemma rows_for_absent h rs :
  ~ In h (map query_hash rs) -> filter (has_hash h) rs = [].
Proof.
  intros Hnin. apply filter_none. intros x Hx.
  destruct (has_hash h x) eqn:E; [| reflexivity].
  apply has_hash_true in E. exfalso. apply Hnin. rewrite <- E. now apply in_map.
Qed.

Lemma filter_update h f rs :
  (forall r, query_hash (f r) = query_hash r) ->
  filter (has_hash h) (update_where h f rs) = map f (filter (has_hash h) rs).
Proof.
  intros Hf. induction rs as [| a rs IH]; simpl; [reflexivity|].
  destruct (has_hash h a) eqn:E; simpl.
  - unfold has_hash in *. rewrite Hf, E. simpl. now rewrite IH.
  - rewrite E. exact IH.
Qed.

(** *** A write to a key already in the table *)

Lemma set_present max_size t q r now :
  count t <= max_size ->
  existsb (has_hash (_hash_query q)) (rows t) = true ->
  set max_size t q r now =
  mkTable (update_where (_hash_query q) (overwrite r now) (rows t)) (last_rowid t).
Proof.
  intros C E. unfold set, upsert. rewrite E. unfold _cleanup_if_needed.
  simpl rows. rewrite length_update.
  unfold count in C.
  destruct (Z.gtb_spec (Z.of_nat (List.length (rows t))) max_size); [lia | reflexivity].
Qed.

(** *** A write of a new key under a clock that did not run backwards *)

Lemma insert_before_last a l new :
  last_accessed a <= last_accessed new ->
  insert_by_last_accessed a (l ++ [new]) =
  (insert_by_last_accessed a l ++ [new])%list.
Proof.
  intros H. induction l as [| x l IH]; simpl.
  - apply Z.leb_le in H. now rewrite H.
  - destruct (last_accessed a <=? last_accessed x); [reflexivity|].
    now rewrite IH.
Qed.

Lemma order_newest_last rs new :
  Forall (fun x => last_accessed x <= last_accessed new) rs ->
  order_by_last_accessed (rs ++ [new]) =
  (order_by_last_accessed rs ++ [new])%list.
Proof.
  induction 1 as [| a rs Ha _ IH]; simpl; [reflexivity|].
  rewrite IH. now apply insert_before_last.
Qed.

Lemma newest_survives n rs new :
  (n <= List.length rs)%nat ->
  Forall (fun x => last_accessed x <= last_accessed new) rs ->
  ~ In (id new) (map id rs) ->
  In new (survivors n (rs ++ [new])).
Proof.
  intros Hn F Hid. unfold survivors. apply filter_In. split.
  - apply in_or_app. right. now left.
  - apply negb_true_iff.
    destruct (mem_id _ _) eqn:E; [| reflexivity]. exfalso.
    apply mem_id_In in E. rewrite (order_newest_last _ _ F) in E.
    rewrite firstn_app in E.
    replace (n - List.length (order_by_last_accessed rs))%nat with 0%nat in E
      by (rewrite (Permutation_length (order_perm rs)); lia).
    simpl in E. rewrite app_nil_r in E.
    apply Hid. apply in_map_iff in E as (x & Ex & Hx).
    apply in_map_iff. exists x. split; [exact Ex|].
    apply (Permutation_in _ (order_perm rs)).
    rewrite <- (firstn_skipn n (order_by_last_accessed rs)).
    apply in_or_app. now left.
Qed.

Lemma set_absent_keeps_new max_size t q r now :
  1 <= max_size -> wf t -> count t <= max_size ->
  Forall (fun x => last_accessed x <= now) (rows t) ->
  existsb (has_hash (_hash_query q)) (rows t) = false ->
  In (mkRow (last_rowid t + 1) (_hash_query q) q r 1 now now)
     (rows (set max_size t q r now)).
Proof.
  intros M (ND & B & U) C F E. unfold set, upsert. rewrite E.
  rewrite cleanup_rows. unfold count in *. simpl rows.
  rewrite length_app. simpl List.length.
  destruct (_ >? _) eqn:G.
  - apply newest_survives.
    + lia.
    + exact F.
    + simpl. intros Hin. apply in_map_iff in Hin as (x & Ex & Hx).
      rewrite Forall_forall in B. specialize (B x Hx). lia.
  - apply in_or_app. right. now left.
Qed.

Lemma count_set max_size t q r now :
  0 <= max_size -> wf t -> count (set max_size t q r now) <= max_size.
Proof.
  intros M W. unfold set. rewrite cleanup_count; [lia | exact M |].
  now apply wf_upsert.
Qed.

(** Every table reached from the empty one is within the cap. *)
Lemma run_within_cap ttl_hours max_size ops :
  0 <= max_size -> count (run ttl_hours max_size ops empty) <= max_size.
Proof.
  intros M. induction ops as [| op ops IH] using rev_ind.
  - unfold count. simpl. lia.
  - rewrite run_snoc. destruct op as [q py_now sql_now | q r now | q]; simpl step.
    + unfold get. destruct (fetch _ _ _ _); simpl; [| exact IH].
      unfold count in *. simpl rows. now rewrite length_update.
    + apply count_set; [exact M | apply wf_run, wf_empty].
    + unfold invalidate, count in *. simpl rows.
      assert (L : forall p, (List.length (filter p (rows (run ttl_hours max_size ops empty)))
                             <= List.length (rows (run ttl_hours max_size ops empty)))%nat)
        by (intros p; apply filter_length_le).
      destruct q as [q |]; [destruct (PyStr.truthy q) |]; simpl; try lia.
      specialize (L (fun r => negb (has_hash (_hash_query q) r))). lia.
Qed.

(** *** The claims about the cache *)

(** C5.  After every write ([set]) to a well-formed table the number of
    entries is at most the cap [max_size] (it is the smaller of the count
    after the upsert and the cap); the write deletes nothing but rows of
    the table, and every row it deletes was accessed no later than every
    row it keeps.  In particular, [max_size + 5] writes of pairwise
    different keys into an empty cache, under a clock that does not run
    backwards, leave exactly [max_size] entries: those of the last
    [max_size] writes, the first five being absent. *)
Theorem C5_cap_and_lru_eviction (ttl_hours max_size : Z) :
  0 <= max_size ->
  (forall t q r now, wf t ->
     let written := upsert t q r now in
     let t' := set max_size t q r now in
     count t' <= max_size /\
     count t' = Z.min (count written) max_size /\
     (forall y, In y (rows t') -> In y (rows written)) /\
     (forall x y, In x (rows written) -> ~ In x (rows t') -> In y (rows t') ->
        last_accessed x <= last_accessed y))
  /\
  (forall l : list (string * string * Z),
     Z.of_nat (List.length l) = max_size + 5 ->
     NoDup (map (fun x => _hash_query (fst (fst x))) l) ->
     StronglySorted Z.le (map snd l) ->
     let t := run ttl_hours max_size (writes l) empty in
     count t = max_size /\
     map query (rows t) = skipn 5 (map (fun x => fst (fst x)) l) /\
     (forall x, In x (firstn 5 l) ->
        rows_for (_hash_query (fst (fst x))) t = [])).
Proof.
  intros M. split.
  - intros t q r now W written t'.
    assert (Ww : wf written) by now apply wf_upsert.
    assert (Hc : count t' = Z.min (count written) max_size)
      by now apply cleanup_count.
    assert (Hrows : rows t' =
              if count written >? max_size
              then survivors (Z.to_nat (count written - max_size)) (rows written)
              else rows written) by apply cleanup_rows.
    repeat split.
    + lia.
    + exact Hc.
    + intros y Hy. rewrite Hrows in Hy.
      destruct (_ >? _); [| exact Hy].
      unfold survivors in Hy. now apply filter_In in Hy.
    + intros x y Hx Hnx Hy. rewrite Hrows in Hnx, Hy.
      destruct (_ >? _); [| contradiction].
      eapply survivors_lru; try eassumption. apply Ww.
  - intros l Hlen NDh St t.
    assert (E : t = mkTable (skipn 5 (fresh_rows 0 l)) (Z.of_nat (List.length l))).
    { unfold t. rewrite writes_into_empty by assumption.
      do 2 f_equal. lia. }
    rewrite E. unfold count, rows_for. cbn [rows].
    repeat split.
    + rewrite length_skipn, fresh_rows_length. lia.
    + now rewrite <- skipn_map, fresh_rows_query.
    + intros x Hx. apply rows_for_absent.
      rewrite <- skipn_map, fresh_rows_hash. intros Hin.
      rewrite <- (firstn_skipn 5 l), map_app in NDh.
      rewrite skipn_map in Hin.
      eapply NoDup_app_disjoint; [exact NDh | | exact Hin].
      now apply (in_map (fun x => _hash_query (fst (fst x)))).
Qed.

(** C7.  In a well-formed table within its cap (of at least one entry),
    under a clock that has not run backwards, calling [set q r] twice
    leaves exactly one row under the hash of [q]: the row the first call
    left, with [hit_count] incremented by one (and the same id), not a
    second row; the number of rows does not change with the second call.
    And after any sequence of operations on an empty cache the
    [query_hash] values of the rows are pairwise different. *)
Theorem C7_set_is_an_upsert (ttl_hours max_size : Z) :
  (forall t q r now1 now2,
     1 <= max_size -> wf t -> count t <= max_size ->
     Forall (fun x => last_accessed x <= now1) (rows t) ->
     let h := _hash_query q in
     let t1 := set max_size t q r now1 in
     let t2 := set max_size t1 q r now2 in
     exists row1 row2,
       rows_for h t1 = [row1] /\ rows_for h t2 = [row2] /\
       hit_count row2 = hit_count row1 + 1 /\
       id row2 = id row1 /\ response row2 = r /\
       count t2 = count t1)
  /\
  (forall ops, NoDup (map query_hash (rows (run ttl_hours max_size ops empty)))).
Proof.
  split.
  - intros t q r now1 now2 M W C F h t1 t2.
    assert (W1 : wf t1) by now apply wf_set.
    assert (C1 : count t1 <= max_size) by (apply count_set; [lia | exact W]).
    assert (P1 : In h (map query_hash (rows t1))).
    { destruct (existsb (has_hash h) (rows t)) eqn:E.
      - unfold t1. rewrite set_present by assumption. simpl rows.
        rewrite map_hash_update by reflexivity. now apply existsb_has_hash.
      - pose proof (set_absent_keeps_new max_size t q r now1 M W C F E) as I.
        apply in_map_iff. eexists. split; [| exact I]. reflexivity. }
    destruct (rows_for_unique h (rows t1) (proj2 (proj2 W1)) P1)
      as (row1 & F1 & I1 & H1).
    exists row1, (overwrite r now2 row1).
    assert (E2 : t2 = mkTable (update_where h (overwrite r now2) (rows t1))
                              (last_rowid t1)).
    { unfold t2. apply set_present; [exact C1 | now apply existsb_has_hash]. }
    repeat split.
    + exact F1.
    + rewrite E2. unfold rows_for in *. simpl rows.
      rewrite filter_update by reflexivity. now rewrite F1.
    + rewrite E2. unfold count. simpl rows. now rewrite length_update.
  - intros ops. apply (wf_run ttl_hours max_size ops empty wf_empty).
Qed.

Lemma get_expired_miss ttl_hours t q py_now sql_now :
  (forall row, In row (rows t) -> query_hash row = _hash_query q ->
               created_at row <= py_now - ttl_hours * 3600) ->
  get ttl_hours t q py_now sql_now = (None, t).
Proof.
  intros Hold. unfold get, fetch.
  destruct (find _ (rows t)) as [row|] eqn:E; [| reflexivity].
  apply find_some in E as [Hin Hp]. apply andb_true_iff in Hp as [Hh Hc].
  apply has_hash_true in Hh. apply Z.gtb_lt in Hc.
  specialize (Hold row Hin Hh). lia.
Qed.

Lemma set_within_cap max_size t q r now :
  count (upsert t q r now) <= max_size ->
  set max_size t q r now = upsert t q r now.
Proof.
  intros H. unfold set, _cleanup_if_needed. unfold count in H.
  destruct (Z.gtb_spec (Z.of_nat (List.length (rows (upsert t q r now)))) max_size);
    [lia | reflexivity].
Qed.


(** Equal normal forms give equal keys. *)
Lemma hash_of_normalize q1 q2 :
  normalize q1 = normalize q2 -> _hash_query q1 = _hash_query q2.
Proof. unfold _hash_query. now intros ->. Qed.


(** C6.  The keys of two queries with the same normal form are equal, but a
    [get] right after a [set] does not always return the response written:
    when the table holds a row under the key whose [created_at] is
    [ttl_hours] or more before the lookup, the upsert overwrites its
    response and leaves [created_at] as it was, so the lookup misses, at
    once and at every later time. *)
Theorem C6_write_to_expired_row_is_lost
    (ttl_hours max_size : Z) t q1 q2 r now py_now sql_now old :
  wf t -> count t <= max_size ->
  normalize q1 = normalize q2 ->
  In old (rows t) -> query_hash old = _hash_query q2 ->
  created_at old <= py_now - ttl_hours * 3600 ->
  _hash_query q1 = _hash_query q2 /\
  rows_for (_hash_query q2) (set max_size t q2 r now) = [overwrite r now old] /\
  get ttl_hours (set max_size t q2 r now) q1 py_now sql_now =
    (None, set max_size t q2 r now).
Proof.
  intros W C N Hin Hh Hold.
  assert (P : In (_hash_query q2) (map query_hash (rows t))).
  { rewrite <- Hh. now apply in_map. }
  assert (E : set max_size t q2 r now =
              mkTable (update_where (_hash_query q2) (overwrite r now) (rows t))
                      (last_rowid t)).
  { apply set_present; [exact C | now apply existsb_has_hash]. }
  destruct (rows_for_unique _ _ (proj2 (proj2 W)) P) as (row & F & I & H).
  assert (row = old).
  { eapply NoDup_map_inj; [exact (proj2 (proj2 W)) | exact I | exact Hin | congruence]. }
  subst row.
  assert (R : rows_for (_hash_query q2) (set max_size t q2 r now) = [overwrite r now old]).
  { rewrite E. unfold rows_for. simpl rows.
    rewrite filter_update by reflexivity. now rewrite F. }
  repeat split.
  - now apply hash_of_normalize.
  - exact R.
  - apply get_expired_miss.
    intros row Hrow Hq. rewrite <- (hash_of_normalize _ _ N) in R.
    assert (In row (rows_for (_hash_query q1) (set max_size t q2 r now))).
    { unfold rows_for. apply filter_In. split; [exact Hrow | now apply has_hash_true]. }
    rewrite R in H0. destruct H0 as [<- | []]. simpl. exact Hold.
Qed.

End FAQCacheFacts.

(** ** Effects *)

Module EffFacts.
Import Eff.

Lemma same_stores_refl w : same_stores w w.
Proof. repeat split. Qed.

Lemma same_stores_trans w1 w2 w3 :
  same_stores w1 w2 -> same_stores w2 w3 -> same_stores w1 w3.
Proof. unfold same_stores. intuition congruence. Qed.

Lemma same_stores_push e w : same_stores w (push e w).
Proof. repeat split. Qed.

Lemma requests_length tr : List.length (requests tr) = List.length (filter is_generate tr).
Proof.
  induction tr as [| e tr IH]; simpl; [reflexivity|].
  destruct e; simpl; auto.
Qed.

Lemma requests_count w : List.length (requests (trace w)) = count_events is_generate w.
Proof. apply requests_length. Qed.

Lemma returns_framed {A} (c : M A) : returns c -> framed c.
Proof. intros H w. destruct (H w) as (a & w' & E & S). now rewrite E. Qed.

Lemma returns_ret {A} (a : A) : returns (ret a).
Proof. intros w. exists a, w. split; [reflexivity | apply same_stores_refl]. Qed.

Lemma framed_raise {A} msg : framed (@raise A msg).
Proof. intros w. apply same_stores_refl. Qed.

Lemma returns_bind {A B} (c : M A) (k : A -> M B) :
  returns c -> (forall a, returns (k a)) -> returns (bind c k).
Proof.
  intros Hc Hk w. destruct (Hc w) as (a & w1 & E & S1).
  destruct (Hk a w1) as (b & w2 & E2 & S2).
  exists b, w2. unfold bind. rewrite E. split; [exact E2|].
  eapply same_stores_trans; eassumption.
Qed.

Lemma framed_bind {A B} (c : M A) (k : A -> M B) :
  framed c -> (forall a, framed (k a)) -> framed (bind c k).
Proof.
  intros Hc Hk w. unfold bind. specialize (Hc w).
  destruct (c w) as [[a | e] w1]; simpl in *; [| exact Hc].
  eapply same_stores_trans; [exact Hc | apply Hk].
Qed.

Lemma returns_try {A} (c : M A) (h : string -> M A) :
  framed c -> (forall e, returns (h e)) -> returns (try_except c h).
Proof.
  intros Hc Hh w. unfold try_except. specialize (Hc w).
  destruct (c w) as [[a | e] w1]; simpl in *.
  - exists a, w1. split; [reflexivity | exact Hc].
  - destruct (Hh e w1) as (a & w2 & E & S). exists a, w2.
    split; [exact E|]. eapply same_stores_trans; eassumption.
Qed.

Lemma framed_call_chroma env q : framed (call_chroma env q).
Proof. intros w. apply same_stores_push. Qed.

Lemma framed_call_sql env q : framed (call_sql env q).
Proof. intros w. apply same_stores_push. Qed.

Lemma framed_call_embed env q : framed (call_embed env q).
Proof. intros w. apply same_stores_push. Qed.

Lemma returns_sleep n : returns (sleep n).
Proof. intros w. exists tt, (push (EvSleep n) w). split; [reflexivity | apply same_stores_push]. Qed.

Lemma bind_ok {A B} (c : M A) (k : A -> M B) w a w1 :
  c w = (Ok a, w1) -> bind c k w = k a w1.
Proof. intros E. unfold bind. now rewrite E. Qed.

End EffFacts.

(** ** The LLM client *)

Module LLMClientFacts.
Import Eff EffFacts LLMClient.

Lemma repeat_snoc {A} (a : A) k l :
  (repeat a k ++ a :: l = repeat a (S k) ++ l)%list.
Proof.
  induction k as [| k IH]; simpl; [reflexivity|]. now rewrite IH.
Qed.

(** The retry loop sends the same request one to [left] times and touches
    nothing but the trace. *)
Lemma call_loop_spec env left attempt max_retries req w :
  attempt + Z.of_nat left = max_retries ->
  exists res w' k,
    call_loop env left attempt max_retries req w = (res, w') /\
    same_stores w w' /\
    requests (trace w') = (repeat req k ++ requests (trace w))%list /\
    (k <= left)%nat /\
    ((1 <= left)%nat ->
       (1 <= k)%nat /\ res <> Ok None /\
       (forall e, llm_provider env (count_events is_generate w) req = Raise e ->
                  is_rate_limit e = false -> k = 1%nat) /\
       (forall text, llm_provider env (count_events is_generate w) req = Ok text ->
                  k = 1%nat /\ res = Ok (Some text) /\ w' = push (EvGenerate req) w)).
Proof.
  revert attempt w. induction left as [| left IH]; intros attempt w Hsum.
  - exists (Ok None), w, 0%nat. simpl.
    repeat split; intros; try lia; try congruence.
  - cbn [call_loop]. unfold try_except at 1, bind at 1, call_llm at 1.
    destruct (llm_provider env (count_events is_generate w) req) as [text | e] eqn:P.
    + exists (Ok (Some text)), (push (EvGenerate req) w), 1%nat. unfold ret.
      repeat split; intros; try lia; try congruence.
    + destruct (is_rate_limit e && (attempt <? max_retries - 1)) eqn:C.
      * apply andb_true_iff in C as [Hrl Hlt]. apply Z.ltb_lt in Hlt.
        unfold bind at 1, sleep, emit.
        destruct (IH (attempt + 1)
                    (push (EvSleep (15 * (attempt + 1))) (push (EvGenerate req) w)))
          as (res & w' & k & Hrun & Hst & Hreq & Hk & Hpos); [lia|].
        assert (Hl : (1 <= left)%nat) by lia.
        destruct (Hpos Hl) as (Hk1 & Hnone & _).
        exists res, w', (S k). rewrite Hrun.
        split; [reflexivity|]. split; [exact Hst|].
        split; [rewrite Hreq; cbn [trace push requests]; apply repeat_snoc|].
        split; [lia|]. intros _.
        split; [lia|]. split; [exact Hnone|].
        split; intros; congruence.
      * exists (Raise e), (push (EvGenerate req) w), 1%nat. unfold raise.
        repeat split; intros; try lia; try congruence.
Qed.

(** [generate] always returns a text; it sends its request one to three
    times, once only unless the provider signals a rate limit. *)
Lemma generate_spec env prompt sys temp w :
  let req := mkLlmRequest prompt temp
               (match sys with
                | Some s => if PyStr.truthy s then Some s else None
                | None => None
                end) in
  exists text w' k,
    generate env prompt sys temp w = (Ok text, w') /\
    same_stores w w' /\
    requests (trace w') = (repeat req k ++ requests (trace w))%list /\
    (1 <= k <= 3)%nat /\
    (forall e, llm_provider env (count_events is_generate w) req = Raise e ->
               is_rate_limit e = false -> k = 1%nat) /\
    (forall t, llm_provider env (count_events is_generate w) req = Ok t ->
               k = 1%nat /\ text = t /\ w' = push (EvGenerate req) w).
Proof.
  intros req. unfold generate. fold req.
  destruct (call_loop_spec env 3 0 3 req w eq_refl)
    as (res & w' & k & Hrun & Hst & Hreq & Hk & Hpos).
  destruct (Hpos ltac:(lia)) as (Hk1 & Hnone & Hother & Hok).
  unfold try_except, bind, _call_with_retry. simpl Z.of_nat. rewrite Hrun.
  destruct res as [[text |] | e].
  - exists text, w', k. unfold ret.
    split; [reflexivity|]. split; [exact Hst|]. split; [exact Hreq|].
    split; [lia|]. split; [exact Hother|].
    intros t Ht. destruct (Hok t Ht) as (? & E & ?).
    repeat split; congruence.
  - congruence.
  - exists ("I apologize, but I encountered an error: " ++ e), w', k. unfold ret.
    split; [reflexivity|]. split; [exact Hst|]. split; [exact Hreq|].
    split; [lia|]. split; [exact Hother|].
    intros t Ht. destruct (Hok t Ht) as (? & E & ?). congruence.
Qed.

Lemma reference_lines_nth i0 passages i p :
  nth_error passages i = Some p ->
  nth_error (reference_lines i0 passages) i =
  Some ("[Reference " ++ str_of_nat (i0 + i + 1) ++ "]: " ++ p).
Proof.
  revert i0 i. induction passages as [| x l IH]; intros i0 [| i] H;
    cbn [nth_error reference_lines] in *; try discriminate.
  - injection H as ->. now rewrite Nat.add_0_r.
  - rewrite (IH (S i0) i H).
    replace (S i0 + i + 1)%nat with (i0 + S i + 1)%nat by lia. reflexivity.
Qed.

Lemma reference_lines_length i0 passages :
  List.length (reference_lines i0 passages) = List.length passages.
Proof.
  revert i0. induction passages as [| x l IH]; intros; simpl; auto.
Qed.

Lemma reference_lines_In i0 passages p :
  In p passages ->
  exists n, In ("[Reference " ++ str_of_nat n ++ "]: " ++ p) (reference_lines i0 passages).
Proof.
  intros H. apply In_nth_error in H as (i & H).
  exists (i0 + i + 1)%nat. eapply nth_error_In. now apply reference_lines_nth.
Qed.

(** C4.  [classify_intent] strips the query and then: a match of the
    greeting pattern gives [general] and leaves the world as it is (no
    request to the provider); otherwise an admin keyword inside the
    lowercased query gives [admin], again with no request; otherwise there
    is one call of [generate] with the classification prompt (one request
    to the provider, repeated at most twice more on a rate limit), and the
    result is its output stripped and lowercased when that is one of [qa],
    [admin], [general], and [qa] otherwise.  [Bonjour] is [general] and
    [show me all users data] is [admin], both without a request. *)
Theorem C4_intent_precedence env query w :
  let q := PyStr.strip query in
  let greeting := Regex.match_anchored Regex.llm_greeting_re q in
  let admin :=
    existsb (fun kw => PyStr.contains kw (PyStr.lower q))
            ["student data"; "system metric"; "all users"; "manage document"] in
  let req := mkLlmRequest (classify_prompt q) (1 # 10)%Q None in
  (greeting = true -> classify_intent env query w = (Ok "general", w)) /\
  (greeting = false -> admin = true ->
     classify_intent env query w = (Ok "admin", w)) /\
  (greeting = false -> admin = false ->
     exists text w' k,
       generate env (classify_prompt q) None (1 # 10)%Q w = (Ok text, w') /\
       classify_intent env query w =
         (Ok (if PyStr.mem (PyStr.lower (PyStr.strip text)) ["qa"; "admin"; "general"]
              then PyStr.lower (PyStr.strip text) else "qa"), w') /\
       requests (trace w') = (repeat req k ++ requests (trace w))%list /\
       (1 <= k <= 3)%nat /\
       (forall e, llm_provider env (count_events is_generate w) req = Raise e ->
                  is_rate_limit e = false -> k = 1%nat) /\
       (forall t, llm_provider env (count_events is_generate w) req = Ok t ->
                  k = 1%nat /\ text = t /\ w' = push (EvGenerate req) w)) /\
  classify_intent env "Bonjour" w = (Ok "general", w) /\
  classify_intent env "show me all users data" w = (Ok "admin", w).
Proof.
  intros q greeting admin req.
  split; [| split; [| split; [| split]]].
  - intros G. unfold classify_intent. fold q. fold greeting. now rewrite G.
  - intros G A. unfold classify_intent. fold q. fold greeting. rewrite G.
    unfold _admin_kw. fold admin. now rewrite A.
  - intros G A.
    destruct (generate_spec env (classify_prompt q) None (1 # 10)%Q w)
      as (text & w' & k & Hrun & _ & Hreq & Hk & Hother & Hok).
    exists text, w', k.
    split; [exact Hrun|].
    split.
    { unfold classify_intent. fold q. fold greeting. rewrite G.
      unfold _admin_kw. fold admin. rewrite A.
      unfold bind. rewrite Hrun. reflexivity. }
    split; [exact Hreq|]. split; [exact Hk|]. split; [exact Hother | exact Hok].
  - assert (G : Regex.match_anchored Regex.llm_greeting_re (PyStr.strip "Bonjour") = true)
      by (vm_compute; reflexivity).
    unfold classify_intent. rewrite G. reflexivity.
  - assert (G : Regex.match_anchored Regex.llm_greeting_re
                  (PyStr.strip "show me all users data") = false)
      by (vm_compute; reflexivity).
    assert (A : existsb (fun kw => PyStr.contains kw
                           (PyStr.lower (PyStr.strip "show me all users data")))
                  _admin_kw = true)
      by (vm_compute; reflexivity).
    unfold classify_intent. rewrite G, A. reflexivity.
Qed.

(** C9.  [generate_with_context] assembles one prompt: the system prompt,
    the reference block with one numbered entry per passage in the order
    given, the last five history turns, the question.  Every passage
    occurs in the assembled prompt.  What is sent to the provider (one to
    three identical requests) is that prompt when its length is within the
    budget [MAX_CONTEXT_LENGTH], and otherwise its first
    [MAX_CONTEXT_LENGTH] characters followed by the truncation marker. *)
Theorem C9_truncation_after_assembly
    env cfg query passages history system_prompt w :
  0 <= MAX_CONTEXT_LENGTH cfg ->
  let sp := match system_prompt with
            | Some p => p
            | None => _default_university_prompt
            end in
  let refs := reference_lines 0 passages in
  let hist := match history with
              | Some h => concat_str (map render_turn (PyStr.last_n 5 h))
              | None => ""
              end in
  let prompt := assemble query passages history sp in
  let budget := Z.to_nat (MAX_CONTEXT_LENGTH cfg) in
  let marker := nl ++ "[Context truncated due to length]" in
  let sent := if (budget <? String.length prompt)%nat
              then PyStr.take budget prompt ++ marker
              else prompt in
  (List.length refs = List.length passages /\
   (forall i p, nth_error passages i = Some p ->
      nth_error refs i = Some ("[Reference " ++ str_of_nat (i + 1) ++ "]: " ++ p)) /\
   prompt =
     (nl ++ sp ++ nl ++ nl ++ "REFERENCE INFORMATION:" ++ nl) ++
     PyStr.join (nl ++ nl) refs ++
     (nl ++ nl ++ (if PyStr.truthy hist then "PREVIOUS CONVERSATION:" else "") ++ nl) ++
     hist ++
     (nl ++ nl ++ "USER QUESTION: " ++ query ++ nl ++ nl ++
      "Provide a helpful, accurate response based on the reference information above." ++ nl) /\
   (forall p, In p passages -> exists a b, prompt = a ++ p ++ b)) /\
  (exists text w' k,
     generate_with_context env cfg query passages history system_prompt w
       = (Ok text, w') /\
     requests (trace w') =
       (repeat (mkLlmRequest sent (7 # 10)%Q None) k ++ requests (trace w))%list /\
     (1 <= k <= 3)%nat) /\
  ((budget < String.length prompt)%nat ->
     String.length sent = (budget + String.length marker)%nat /\
     PyStr.take budget sent = PyStr.take budget prompt /\
     String.length (PyStr.take budget prompt) = budget).
Proof.
  intros B sp refs hist prompt budget marker sent.
  assert (Hhist : history_text history = hist).
  { unfold history_text, hist. destruct history as [[| t h] |]; reflexivity. }
  assert (Hprompt : prompt =
     (nl ++ sp ++ nl ++ nl ++ "REFERENCE INFORMATION:" ++ nl) ++
     PyStr.join (nl ++ nl) refs ++
     (nl ++ nl ++ (if PyStr.truthy hist then "PREVIOUS CONVERSATION:" else "") ++ nl) ++
     hist ++
     (nl ++ nl ++ "USER QUESTION: " ++ query ++ nl ++ nl ++
      "Provide a helpful, accurate response based on the reference information above." ++ nl)).
  { unfold prompt, assemble. rewrite Hhist. fold refs.
    rewrite !str_app_assoc. reflexivity. }
  split; [| split].
  - split; [apply reference_lines_length|].
    split; [intros i p H; apply (reference_lines_nth 0 passages i p H)|].
    split; [exact Hprompt|].
    intros p Hp. destruct (reference_lines_In 0 passages p Hp) as (n & Hn).
    destruct (join_occurs (nl ++ nl) _ _ Hn) as (a & b & E).
    rewrite Hprompt. fold refs in E. rewrite E.
    eexists _, _. apply occurs_in_block.
  - unfold generate_with_context. fold sp. fold prompt.
    assert (Hsent : truncate cfg prompt = sent).
    { unfold truncate, max_context, sent, PyStr.len, PyStr.slice_to, truncation_marker.
      fold marker.
      destruct (Z.gtb_spec (Z.of_nat (String.length prompt)) (MAX_CONTEXT_LENGTH cfg)) as [G | G].
      - replace (budget <? String.length prompt)%nat with true
          by (symmetry; apply Nat.ltb_lt; unfold budget; lia).
        replace (0 <=? MAX_CONTEXT_LENGTH cfg) with true
          by (symmetry; now apply Z.leb_le).
        reflexivity.
      - replace (budget <? String.length prompt)%nat with false
          by (symmetry; apply Nat.ltb_ge; unfold budget; lia).
        reflexivity. }
    rewrite Hsent.
    destruct (generate_spec env sent None (7 # 10)%Q w)
      as (text & w' & k & Hrun & _ & Hreq & Hk & _).
    exists text, w', k. auto.
  - intros L. unfold sent.
    replace (budget <? String.length prompt)%nat with true
      by (symmetry; now apply Nat.ltb_lt).
    rewrite str_length_app, length_take.
    split; [lia|]. split.
    + rewrite take_app; [apply take_take | rewrite length_take; lia].
    + lia.
Qed.

End LLMClientFacts.

(** ** The agents *)

Module AgentFacts.
Import Eff EffFacts LLMClient LLMClientFacts.

Lemma returns_generate env prompt sys temp : returns (generate env prompt sys temp).
Proof.
  intros w. destruct (generate_spec env prompt sys temp w)
    as (text & w' & k & E & S & _). now exists text, w'.
Qed.

Lemma returns_generate_with_context env cfg q ps h sp :
  returns (generate_with_context env cfg q ps h sp).
Proof. apply returns_generate. Qed.

Lemma returns_classify_intent env query : returns (classify_intent env query).
Proof.
  unfold classify_intent.
  destruct (Regex.match_anchored _ _); [apply returns_ret|].
  destruct (existsb _ _); [apply returns_ret|].
  apply returns_bind; [apply returns_generate | intros; apply returns_ret].
Qed.

(** The vector store answers every query, with one call to the index. *)
Lemma query_spec env query_text n_results where_ w :
  exists r,
    VectorStore.query env query_text n_results where_ w =
    (Ok r, push (EvChroma (mkChromaQuery [query_text] n_results where_)) w).
Proof.
  unfold VectorStore.query, try_except, bind, call_chroma.
  destruct (chroma env _ _) as [[r |] | e]; eexists; reflexivity.
Qed.

Lemma retrieve_spec env cfg query document_filter w :
  exists r cq,
    QAAgent.retrieve env cfg query document_filter w = (Ok r, push (EvChroma cq) w).
Proof.
  unfold QAAgent.retrieve, VectorStore.query_with_filter.
  destruct document_filter as [[| kv f] |];
    match goal with
    | |- context [VectorStore.query ?e ?q ?n ?wh ?w] =>
        destruct (query_spec e q n wh w) as (r & E); exists r; eexists; exact E
    end.
Qed.

Lemma returns_retrieve env cfg query document_filter :
  returns (QAAgent.retrieve env cfg query document_filter).
Proof.
  intros w. destruct (retrieve_spec env cfg query document_filter w) as (r & cq & E).
  exists r, (push (EvChroma cq) w). split; [exact E | apply same_stores_push].
Qed.

Lemma returns_answer env cfg query history document_filter :
  returns (QAAgent.answer env cfg query history document_filter).
Proof.
  unfold QAAgent.answer. apply returns_try.
  - apply returns_framed. apply returns_bind; [apply returns_retrieve|].
    intros r. destruct (VectorStore.documents r); [apply returns_ret|].
    apply returns_bind; [apply returns_generate_with_context | intros; apply returns_ret].
  - intros e. apply returns_ret.
Qed.

Lemma returns_generate_sql env user_query schema :
  returns (AdminAgent._generate_sql env user_query schema).
Proof.
  unfold AdminAgent._generate_sql.
  apply returns_bind; [apply returns_generate|].
  intros a. destruct (_ || _); apply returns_ret.
Qed.

Lemma returns_admin_query env user_query : returns (AdminAgent.query env user_query).
Proof.
  unfold AdminAgent.query.
  apply returns_bind; [apply returns_generate_sql|].
  intros [sql_text |]; [| apply returns_ret].
  destruct (negb _); [apply returns_ret|].
  apply returns_try.
  - apply framed_bind; [apply framed_call_sql|].
    intros rows. apply returns_framed.
    apply returns_bind; [| intros; apply returns_ret].
    unfold AdminAgent._format_response.
    destruct (rows_count rows); [apply returns_ret | apply returns_generate].
  - intros e. apply returns_ret.
Qed.

Lemma returns_route env cfg query intent history context :
  returns (AgentOrchestrator._route_to_agent env cfg query intent history context).
Proof.
  unfold AgentOrchestrator._route_to_agent.
  destruct (String.eqb intent "qa"); [apply returns_answer|].
  destruct (String.eqb intent "admin").
  - simpl. apply returns_admin_query.
  - unfold AgentOrchestrator._handle_general_query.
    apply returns_bind; [apply returns_generate | intros; apply returns_ret].
Qed.

(** *** The two memory tiers *)

Lemma lookup_store sid v m :
  SessionMemory.lookup sid (SessionMemory.store sid v m) = Some v.
Proof.
  induction m as [| [k v0] m IH]; simpl.
  - now rewrite String.eqb_refl.
  - destruct (String.eqb k sid) eqn:E; simpl; rewrite E; auto.
Qed.

Lemma py_last_keeps_last {A} (k : Z) (l : list A) (x : A) :
  0 <= k -> Z.of_nat (List.length (l ++ [x])) > k ->
  exists earlier, py_last k (l ++ [x]) = (earlier ++ [x])%list.
Proof.
  intros K L. unfold py_last. rewrite length_app in *. simpl List.length in *.
  destruct (Z.ltb_spec 0 k).
  - exists (skipn (List.length l + 1 - Z.to_nat k) l).
    rewrite skipn_app.
    replace (List.length l + 1 - Z.to_nat k - List.length l)%nat with 0%nat by lia.
    reflexivity.
  - exists l. replace k with 0 by lia. reflexivity.
Qed.

(** The session tier ends with the turn just added. *)
Lemma session_add_turn_last max_turns m sid q r now :
  0 <= max_turns ->
  exists earlier,
    SessionMemory.get_history (SessionMemory.add_turn max_turns m sid q r now) sid
    = (earlier ++ [SessionMemory.mkTurn q r now])%list.
Proof.
  intros K. unfold SessionMemory.add_turn.
  destruct (Z.gtb_spec (Z.of_nat (List.length
             (SessionMemory.get_history m sid ++ [SessionMemory.mkTurn q r now])))
             max_turns) as [G | G].
  - destruct (py_last_keeps_last max_turns (SessionMemory.get_history m sid)
                (SessionMemory.mkTurn q r now) K ltac:(lia)) as (earlier & E).
    exists earlier. unfold SessionMemory.get_history at 1.
    now rewrite lookup_store.
  - exists (SessionMemory.get_history m sid).
    unfold SessionMemory.get_history at 1. now rewrite lookup_store.
Qed.

(** What [process_query] does to the world: it returns, the session tier
    gets the turn through [add_turn], the durable tier gets one row more,
    the cache is not touched. *)
Lemma process_query_spec env cfg self query context w :
  exists reply w' t_py t_sql chunks,
    AgentOrchestrator.process_query env cfg self query context w = (Ok reply, w') /\
    sessions w' =
      SessionMemory.add_turn (MAX_CONVERSATION_HISTORY cfg) (sessions w)
        (AgentOrchestrator.session_id self) query
        (AgentOrchestrator.reply_answer reply) t_py /\
    conversations w' =
      snd (ConversationMemory.add_turn (conversations w)
             (AgentOrchestrator.session_id self) query
             (AgentOrchestrator.reply_answer reply)
             (AgentOrchestrator.user_id self)
             (Some (AgentOrchestrator.reply_intent reply)) chunks t_sql) /\
    cache w' = cache w.
Proof.
  unfold AgentOrchestrator.process_query.
  rewrite (bind_ok read_sessions _ w (sessions w) w eq_refl).
  assert (Hi : returns (if Regex.match_anchored Regex.orchestrator_greeting_re query
                        then ret "general" else classify_intent env query)).
  { destruct (Regex.match_anchored _ _); [apply returns_ret | apply returns_classify_intent]. }
  destruct (Hi w) as (intent & w1 & E1 & S1).
  rewrite (bind_ok _ _ _ _ _ E1).
  destruct (returns_route env cfg query intent
              (SessionMemory.get_history (sessions w) (AgentOrchestrator.session_id self))
              context w1) as (response & w2 & E2 & S2).
  rewrite (bind_ok _ _ _ _ _ E2).
  unfold bind, now_py, now_sql, with_sessions, with_conversations, ret. simpl.
  destruct S1 as (A1 & B1 & C1), S2 as (A2 & B2 & C2).
  eexists _, _, (py_clock env (count_events is_py_now w2)),
    (sql_clock env (count_events is_sql_now w2)),
    (Some (match context_chunks response with Some l => l | None => [] end)).
  split; [reflexivity|]. simpl.
  rewrite A2, A1, B2, B1, C2, C1. repeat split.
Qed.

(** C3.  When the retrieval step of [QAAgent.answer] yields an empty
    passage list, the agent returns the fixed apology: a fixed head, the
    query as it was given, a fixed tail that suggests rephrasing,
    contacting the administrative office and checking the website; the
    sources are empty, and no request goes to the generation provider (the
    only event of the run is the call to the vector index). *)
Theorem C3_empty_retrieval_fallback
    env cfg query history document_filter w results w1 :
  QAAgent.retrieve env cfg query document_filter w = (Ok results, w1) ->
  VectorStore.documents results = [] ->
  QAAgent.answer env cfg query history document_filter w =
    (Ok (mkAgentResponse
           (Some (QAAgent.no_context_head ++ query ++ QAAgent.no_context_tail))
           (Some []) (Some [])
           (Some (MdQA 0 (VectorStore.distances results))) None None None),
     w1) /\
  requests (trace w1) = requests (trace w) /\
  count_events is_generate w1 = count_events is_generate w /\
  (exists cq, trace w1 = EvChroma cq :: trace w) /\
  PyStr.startswith "I apologize, but I couldn't find specific information about "
    QAAgent.no_context_head = true /\
  PyStr.contains "Try rephrasing your question" QAAgent.no_context_tail = true /\
  PyStr.contains "Contact the relevant administrative office"
    QAAgent.no_context_tail = true /\
  PyStr.contains "Check the university website" QAAgent.no_context_tail = true.
Proof.
  intros R D.
  destruct (retrieve_spec env cfg query document_filter w) as (r & cq & E).
  rewrite R in E. injection E as -> ->.
  split.
  { unfold QAAgent.answer, try_except.
    rewrite (bind_ok _ _ _ _ _ R). rewrite D. reflexivity. }
  split; [reflexivity|]. split; [reflexivity|].
  split; [exists cq; reflexivity|].
  repeat split; vm_compute; reflexivity.
Qed.

(** *** The cache at the entry point *)

Lemma faq_get_miss env cfg q w :
  FAQCache.fetch (FAQ_CACHE_TTL_HOURS cfg) (cache w) q
    (py_clock env (count_events is_py_now w)) = None ->
  App.faq_get env cfg q w = (Ok None, push EvPyNow w).
Proof.
  intros F. unfold App.faq_get, bind, now_py, read_cache. cbn [cache push].
  now rewrite F.
Qed.

Lemma faq_get_hit env cfg q w row :
  FAQCache.fetch (FAQ_CACHE_TTL_HOURS cfg) (cache w) q
    (py_clock env (count_events is_py_now w)) = Some row ->
  exists w1,
    App.faq_get env cfg q w = (Ok (Some (FAQCache.response row)), w1) /\
    sessions w1 = sessions w /\ conversations w1 = conversations w /\
    trace w1 = EvSqlNow :: EvPyNow :: trace w.
Proof.
  intros F. unfold App.faq_get, bind, now_py, now_sql, read_cache, with_cache.
  cbn [cache push]. rewrite F. unfold FAQCache.get. cbn [cache push]. rewrite F.
  eexists. split; [reflexivity|]. repeat split.
Qed.

(** C10.  When the lookup at the entry point finds a row within the TTL
    whose response is not empty, the assistant message appended to the
    chat history carries that response and an empty list of sources,
    whatever sources the answer had when it was generated; the orchestrator
    is not run and no request goes to the generation provider. *)
Theorem C10_cache_hit_has_no_sources env cfg st q w row :
  FAQCache.fetch (FAQ_CACHE_TTL_HOURS cfg) (cache w) q
    (py_clock env (count_events is_py_now w)) = Some row ->
  FAQCache.response row <> "" ->
  exists w',
    App.on_question env cfg st q w =
      (Ok (App.mkSessionState (App.session_id st) (App.username st)
             (App.chat_history st ++
                [App.mkChatMessage "user" q None;
                 App.mkChatMessage "assistant" (FAQCache.response row) (Some [])])
             (App.orchestrator st)),
       w') /\
    requests (trace w') = requests (trace w).
Proof.
  intros F NE. destruct (faq_get_hit env cfg q w row F) as (w1 & E & _ & _ & T).
  exists w1. split.
  - unfold App.on_question. rewrite (bind_ok _ _ _ _ _ E).
    destruct (FAQCache.response row) as [| c r]; [congruence|].
    unfold ret. rewrite <- app_assoc. reflexivity.
  - now rewrite T.
Qed.

(** C1, as amended.  With a non-negative window [MAX_CONVERSATION_HISTORY]:
    every query the orchestrator processes is recorded in both tiers (the
    session history of the orchestrator's session ends with the turn, the
    durable table gains one row with the query, the answer and the intent),
    and so is every question that misses the response cache at the entry
    point (no row within the TTL, or one with an empty response); a
    question answered from the response cache does not reach the
    orchestrator and leaves both tiers as they were. *)
Theorem C1_turns_recorded_on_the_orchestrator_path env cfg :
  0 <= MAX_CONVERSATION_HISTORY cfg ->
  (forall self query context w,
     exists reply w' earlier t_py row,
       AgentOrchestrator.process_query env cfg self query context w = (Ok reply, w') /\
       SessionMemory.get_history (sessions w') (AgentOrchestrator.session_id self)
       = (earlier ++ [SessionMemory.mkTurn query
                        (AgentOrchestrator.reply_answer reply) t_py])%list /\
       ConversationMemory.rows (conversations w')
       = (ConversationMemory.rows (conversations w) ++ [row])%list /\
       ConversationMemory.session_id row = AgentOrchestrator.session_id self /\
       ConversationMemory.query row = query /\
       ConversationMemory.response row = AgentOrchestrator.reply_answer reply /\
       ConversationMemory.intent row = Some (AgentOrchestrator.reply_intent reply))
  /\
  (forall st q w,
     match FAQCache.fetch (FAQ_CACHE_TTL_HOURS cfg) (cache w) q
             (py_clock env (count_events is_py_now w)) with
     | None => True
     | Some cached => FAQCache.response cached = ""
     end ->
     let sid := match App.orchestrator st with
                | Some o => AgentOrchestrator.session_id o
                | None => App.session_id st
                end in
     exists st' w' earlier a t_py row,
       App.on_question env cfg st q w = (Ok st', w') /\
       SessionMemory.get_history (sessions w') sid
       = (earlier ++ [SessionMemory.mkTurn q a t_py])%list /\
       ConversationMemory.rows (conversations w')
       = (ConversationMemory.rows (conversations w) ++ [row])%list /\
       ConversationMemory.session_id row = sid /\
       ConversationMemory.query row = q /\
       ConversationMemory.response row = a)
  /\
  (forall st q w cached,
     FAQCache.fetch (FAQ_CACHE_TTL_HOURS cfg) (cache w) q
       (py_clock env (count_events is_py_now w)) = Some cached ->
     FAQCache.response cached <> "" ->
     exists st' w',
       App.on_question env cfg st q w = (Ok st', w') /\
       sessions w' = sessions w /\
       conversations w' = conversations w /\
       requests (trace w') = requests (trace w)).
Proof.
  intros K. split; [| split].
  - intros self query context w.
    destruct (process_query_spec env cfg self query context w)
      as (reply & w' & t_py & t_sql & chunks & E & Hs & Hc & _).
    destruct (session_add_turn_last (MAX_CONVERSATION_HISTORY cfg) (sessions w)
                (AgentOrchestrator.session_id self) query
                (AgentOrchestrator.reply_answer reply) t_py K) as (earlier & L).
    exists reply, w', earlier, t_py. eexists.
    split; [exact E|]. split; [rewrite Hs; exact L|].
    rewrite Hc. unfold ConversationMemory.add_turn. cbn [snd ConversationMemory.rows].
    split; [reflexivity|]. repeat split.
  - intros st q w Hmiss sid.
    assert (G : exists cached w1,
               App.faq_get env cfg q w = (Ok cached, w1) /\
               sessions w1 = sessions w /\ conversations w1 = conversations w /\
               (cached = None \/ cached = Some "")).
    { destruct (FAQCache.fetch _ _ _ _) as [row |] eqn:F.
      - destruct (faq_get_hit env cfg q w row F) as (w1 & E & A & B & _).
        exists (Some (FAQCache.response row)), w1. rewrite Hmiss in *. auto.
      - exists None, (push EvPyNow w). rewrite (faq_get_miss env cfg q w F). auto. }
    destruct G as (cached & w1 & E & A1 & B1 & Hc).
    set (orch := match App.orchestrator st with
                 | Some o => o
                 | None => App.create_orchestrator (App.session_id st)
                             (Some (App.username st))
                 end).
    assert (Hsid : AgentOrchestrator.session_id orch = sid).
    { unfold orch, sid. destruct (App.orchestrator st); reflexivity. }
    destruct (process_query_spec env cfg orch q None w1)
      as (reply & w2 & t_py & t_sql & chunks & E2 & Hs & Hcv & _).
    destruct (session_add_turn_last (MAX_CONVERSATION_HISTORY cfg) (sessions w1)
                (AgentOrchestrator.session_id orch) q
                (AgentOrchestrator.reply_answer reply) t_py K) as (earlier & L).
    assert (Run : exists st' w',
               App.on_question env cfg st q w = (Ok st', w') /\
               sessions w' = sessions w2 /\ conversations w' = conversations w2).
    { unfold App.on_question. rewrite (bind_ok _ _ _ _ _ E).
      fold orch.
      destruct Hc as [-> | ->];
        rewrite (bind_ok _ _ _ _ _ E2);
        unfold bind, App.faq_set, now_sql, with_cache, ret; cbn;
        eexists _, _; repeat split. }
    destruct Run as (st' & w' & Eq & A3 & B3).
    exists st', w', earlier, (AgentOrchestrator.reply_answer reply), t_py. eexists.
    split; [exact Eq|].
    split; [rewrite A3, Hs, <- Hsid; exact L|].
    rewrite B3, Hcv, B1. unfold ConversationMemory.add_turn.
    cbn [snd ConversationMemory.rows].
    split; [reflexivity|]. repeat split. exact Hsid.
  - intros st q w cached F NE.
    destruct (faq_get_hit env cfg q w cached F) as (w1 & E & A & B & T).
    destruct (FAQCache.response cached) as [| c r] eqn:R; [congruence|].
    eexists _, w1. split.
    + unfold App.on_question. rewrite (bind_ok _ _ _ _ _ E).
      unfold ret. reflexivity.
    + repeat split; auto. now rewrite T.
Qed.

End AgentFacts.

(** ** The embedding adapters *)

Module EmbeddingFacts.
Import Eff EffFacts EmbeddingSpec.

Lemma embed_loop_rate_limited env text :
  always_rate_limited env text ->
  forall left attempt w,
    GeminiEmbeddingFunction.embed_loop env left attempt text w =
    (Ok None, with_trace (backoff_trace left attempt text (trace w)) w).
Proof.
  intros H. induction left as [| left IH]; intros attempt w.
  - destruct w; reflexivity.
  - cbn [GeminiEmbeddingFunction.embed_loop backoff_trace].
    unfold try_except at 1, bind at 1, call_embed at 1.
    destruct (H (count_events is_embed w)) as (e & -> & ->).
    unfold bind at 1, sleep, emit. rewrite IH. reflexivity.
Qed.

Lemma embed_loop_other_error env text left attempt w e :
  embed_provider env (count_events is_embed w) text = Raise e ->
  is_rate_limit e = false ->
  GeminiEmbeddingFunction.embed_loop env (S left) attempt text w =
  (Ok None, push (EvEmbed text) w).
Proof.
  intros P R. cbn [GeminiEmbeddingFunction.embed_loop].
  unfold try_except, bind, call_embed. now rewrite P, R.
Qed.

(** A batch of one text whose embedding failed raises. *)
Lemma call_single_failed env text w w' :
  GeminiEmbeddingFunction._embed_with_retry env text 5 w = (Ok None, w') ->
  GeminiEmbeddingFunction.call env [text] w =
  (Raise "Some embeddings failed. Please retry.", w').
Proof.
  intros E. unfold GeminiEmbeddingFunction.call.
  cbn [GeminiEmbeddingFunction.embed_each].
  unfold bind at 1. unfold bind at 1. rewrite E. reflexivity.
Qed.

Lemma embeddings_call_spec env input w :
  exists vs w',
    GeminiEmbeddings.call env input w = (Ok vs, w') /\
    List.length vs = List.length input /\
    count_events is_embed w' = (count_events is_embed w + List.length input)%nat /\
    sleeps (trace w') = sleeps (trace w) /\
    same_stores w w'.
Proof.
  revert w. induction input as [| text rest IH]; intros w.
  - exists [], w. repeat split; simpl; lia.
  - cbn [GeminiEmbeddings.call].
    assert (Hfirst : exists v,
              try_except (call_embed env text) (fun _ => ret GeminiEmbeddings.zero_vector) w
              = (Ok v, push (EvEmbed text) w)).
    { unfold try_except, call_embed.
      destruct (embed_provider env _ text); eexists; reflexivity. }
    destruct Hfirst as (v & E1). rewrite (bind_ok _ _ _ _ _ E1).
    destruct (IH (push (EvEmbed text) w)) as (vs & w' & E2 & L & C & Sl & St).
    rewrite (bind_ok _ _ _ _ _ E2). exists (v :: vs), w'. unfold ret.
    split; [reflexivity|]. split; [simpl; lia|].
    split; [rewrite C; unfold count_events; simpl; lia|].
    split; [rewrite Sl; reflexivity|].
    eapply same_stores_trans; [apply same_stores_push | exact St].
Qed.

Lemma embeddings_call_failed env text w e :
  embed_provider env (count_events is_embed w) text = Raise e ->
  GeminiEmbeddings.call env [text] w =
  (Ok [GeminiEmbeddings.zero_vector], push (EvEmbed text) w).
Proof.
  intros P. cbn [GeminiEmbeddings.call].
  unfold bind, try_except, call_embed, ret. now rewrite P.
Qed.

(** C2, as amended.  [GeminiEmbeddingFunction]: a text rate-limited on
    every attempt costs exactly five requests, each followed by a sleep of
    [30 * attempt_number] seconds (the fifth too), and [_embed_with_retry]
    returns [None] without raising; on any other error it returns [None]
    after that one request, without a sleep; a batch holding such a text
    makes [__call__] raise.  [GeminiEmbeddings]: [__call__] never raises,
    returns one vector per text after exactly one request per text and
    without sleeping, and a text whose request fails, for whatever reason,
    comes back as the vector of 768 zeros. *)
Theorem C2_embedding_failure_handling env :
  (forall text w,
     always_rate_limited env text ->
     let w' := with_trace
                 (EvSleep 150 :: EvEmbed text :: EvSleep 120 :: EvEmbed text ::
                  EvSleep 90 :: EvEmbed text :: EvSleep 60 :: EvEmbed text ::
                  EvSleep 30 :: EvEmbed text :: trace w) w in
     GeminiEmbeddingFunction._embed_with_retry env text 5 w = (Ok None, w') /\
     count_events is_embed w' = (count_events is_embed w + 5)%nat /\
     GeminiEmbeddingFunction.call env [text] w =
       (Raise "Some embeddings failed. Please retry.", w'))
  /\
  (forall text w e,
     embed_provider env (count_events is_embed w) text = Raise e ->
     is_rate_limit e = false ->
     GeminiEmbeddingFunction._embed_with_retry env text 5 w =
       (Ok None, push (EvEmbed text) w) /\
     GeminiEmbeddingFunction.call env [text] w =
       (Raise "Some embeddings failed. Please retry.", push (EvEmbed text) w))
  /\
  (forall input w,
     exists vs w',
       GeminiEmbeddings.call env input w = (Ok vs, w') /\
       List.length vs = List.length input /\
       count_events is_embed w' = (count_events is_embed w + List.length input)%nat /\
       sleeps (trace w') = sleeps (trace w))
  /\
  (forall text w e,
     embed_provider env (count_events is_embed w) text = Raise e ->
     GeminiEmbeddings.call env [text] w =
       (Ok [repeat (0 # 1)%Q 768], push (EvEmbed text) w)).
Proof.
  split; [| split; [| split]].
  - intros text w H w'.
    assert (E : GeminiEmbeddingFunction._embed_with_retry env text 5 w = (Ok None, w')).
    { unfold GeminiEmbeddingFunction._embed_with_retry.
      rewrite (embed_loop_rate_limited env text H). reflexivity. }
    split; [exact E|]. split.
    + unfold w', count_events. simpl. lia.
    + now apply call_single_failed.
  - intros text w e P R.
    assert (E : GeminiEmbeddingFunction._embed_with_retry env text 5 w
                = (Ok None, push (EvEmbed text) w)).
    { unfold GeminiEmbeddingFunction._embed_with_retry.
      eapply embed_loop_other_error; eassumption. }
    split; [exact E | now apply call_single_failed].
  - intros input w.
    destruct (embeddings_call_spec env input w) as (vs & w' & E & L & C & Sl & _).
    exists vs, w'. auto.
  - intros text w e P. now apply (embeddings_call_failed env text w e).
Qed.

End EmbeddingFacts.

(** ** Concrete runs *)

Module Runs.
Import Eff EffFacts Samples.

Lemma nodupb_sound l : nodupb l = true -> NoDup l.
Proof.
  induction l as [| x r IH]; simpl; intros H; [constructor|].
  apply andb_true_iff in H as [Hx Hr]. constructor; [| now apply IH].
  intros Hin. apply negb_true_iff in Hx. unfold PyStr.mem in Hx.
  assert (existsb (String.eqb x) r = true).
  { apply existsb_exists. exists x. split; [exact Hin | apply String.eqb_refl]. }
  congruence.
Qed.

Import LLMClient LLMClientFacts AgentFacts EmbeddingSpec EmbeddingFacts.

(** C3 on the empty index: the question about the registration deadline
    gets the apology, no sources, and no request to the provider. *)
Lemma C3_witness :
  QAAgent.retrieve empty_index_env default_config
    "What is the registration deadline?" None fresh_world
  = (Ok VectorStore.no_result,
     push (EvChroma (mkChromaQuery ["What is the registration deadline?"] 5 None))
          fresh_world) /\
  VectorStore.documents VectorStore.no_result = [] /\
  fst (QAAgent.answer empty_index_env default_config
         "What is the registration deadline?" (Some []) None fresh_world)
  = Ok (mkAgentResponse
          (Some (QAAgent.no_context_head ++ "What is the registration deadline?"
                 ++ QAAgent.no_context_tail))
          (Some []) (Some []) (Some (MdQA 0 [])) None None None) /\
  count_events is_generate
    (snd (QAAgent.answer empty_index_env default_config
            "What is the registration deadline?" (Some []) None fresh_world)) = 0%nat.
Proof.
  assert (R : QAAgent.retrieve empty_index_env default_config
                "What is the registration deadline?" None fresh_world
              = (Ok VectorStore.no_result,
                 push (EvChroma (mkChromaQuery ["What is the registration deadline?"] 5 None))
                      fresh_world)) by reflexivity.
  assert (D : VectorStore.documents VectorStore.no_result = []) by reflexivity.
  destruct (C3_empty_retrieval_fallback empty_index_env default_config
              "What is the registration deadline?" (Some []) None fresh_world
              _ _ R D) as (E & _ & C & _).
  split; [exact R|]. split; [exact D|].
  rewrite E. split; [reflexivity | exact C].
Defined.

(** C4 on three queries: a greeting, an admin request, and a question the
    provider classifies outside the three intents. *)
Lemma C4_witness :
  (Regex.match_anchored Regex.llm_greeting_re (PyStr.strip "  Thank you!! ") = true /\
   classify_intent vague_env "  Thank you!! " fresh_world = (Ok "general", fresh_world)) /\
  (Regex.match_anchored Regex.llm_greeting_re
     (PyStr.strip "List ALL USERS please") = false /\
   existsb (fun kw => PyStr.contains kw (PyStr.lower (PyStr.strip "List ALL USERS please")))
     ["student data"; "system metric"; "all users"; "manage document"] = true /\
   classify_intent vague_env "List ALL USERS please" fresh_world
   = (Ok "admin", fresh_world)) /\
  (Regex.match_anchored Regex.llm_greeting_re
     (PyStr.strip "Where is the library?") = false /\
   existsb (fun kw => PyStr.contains kw (PyStr.lower (PyStr.strip "Where is the library?")))
     ["student data"; "system metric"; "all users"; "manage document"] = false /\
   classify_intent vague_env "Where is the library?" fresh_world
   = (Ok "qa",
      push (EvGenerate (mkLlmRequest (classify_prompt "Where is the library?")
                          (1 # 10)%Q None)) fresh_world)).
Proof.
  assert (G1 : Regex.match_anchored Regex.llm_greeting_re (PyStr.strip "  Thank you!! ") = true)
    by (vm_compute; reflexivity).
  assert (G2 : Regex.match_anchored Regex.llm_greeting_re
                 (PyStr.strip "List ALL USERS please") = false)
    by (vm_compute; reflexivity).
  assert (A2 : existsb (fun kw => PyStr.contains kw
                          (PyStr.lower (PyStr.strip "List ALL USERS please")))
                 ["student data"; "system metric"; "all users"; "manage document"] = true)
    by (vm_compute; reflexivity).
  assert (G3 : Regex.match_anchored Regex.llm_greeting_re
                 (PyStr.strip "Where is the library?") = false)
    by (vm_compute; reflexivity).
  assert (A3 : existsb (fun kw => PyStr.contains kw
                          (PyStr.lower (PyStr.strip "Where is the library?")))
                 ["student data"; "system metric"; "all users"; "manage document"] = false)
    by (vm_compute; reflexivity).
  split; [| split].
  - split; [exact G1|].
    exact (proj1 (C4_intent_precedence vague_env "  Thank you!! " fresh_world) G1).
  - split; [exact G2|]. split; [exact A2|].
    exact (proj1 (proj2 (C4_intent_precedence vague_env "List ALL USERS please"
                           fresh_world)) G2 A2).
  - split; [exact G3|]. split; [exact A3|].
    destruct (proj1 (proj2 (proj2 (C4_intent_precedence vague_env
                "Where is the library?" fresh_world))) G3 A3)
      as (text & w' & k & _ & E & _ & _ & _ & Hok).
    destruct (Hok "  Maybe?  " eq_refl) as (_ & -> & ->).
    rewrite E. reflexivity.
Defined.

Import FAQCache FAQCacheFacts.

(** C5 with a cap of two: seven writes leave the last two questions, and a
    write to the full table leaves it at its cap. *)
Lemma C5_witness :
  (0 <= 2 /\
   Z.of_nat (List.length seven_writes) = 2 + 5 /\
   NoDup (map (fun x => _hash_query (fst (fst x))) seven_writes) /\
   StronglySorted Z.le (map snd seven_writes)) /\
  (count (run 24 2 (writes seven_writes) empty) = 2 /\
   map query (rows (run 24 2 (writes seven_writes) empty)) = ["q six"; "q seven"] /\
   rows_for (_hash_query "q one") (run 24 2 (writes seven_writes) empty) = []) /\
  (wf (run 24 2 (writes seven_writes) empty) /\
   count (set 2 (run 24 2 (writes seven_writes) empty) "q eight" "r8" 8) <= 2).
Proof.
  assert (M : 0 <= 2) by lia.
  assert (L : Z.of_nat (List.length seven_writes) = 2 + 5) by reflexivity.
  assert (N : NoDup (map (fun x => _hash_query (fst (fst x))) seven_writes))
    by (apply nodupb_sound; vm_compute; reflexivity).
  assert (S : StronglySorted Z.le (map snd seven_writes))
    by (repeat constructor; simpl; lia).
  assert (W : wf (run 24 2 (writes seven_writes) empty))
    by (apply wf_run, wf_empty).
  destruct (C5_cap_and_lru_eviction 24 2 M) as (A & B).
  destruct (B seven_writes L N S) as (B1 & B2 & B3).
  destruct (A (run 24 2 (writes seven_writes) empty) "q eight" "r8" 8 W)
    as (A1 & _).
  split; [repeat (split; [assumption|]); assumption|].
  split; [| split; assumption].
  split; [exact B1|]. split; [exact B2|].
  apply (B3 ("q one", "r1", 1)). simpl. now left.
Defined.

(** C7 on a table holding one other question: two writes of the same
    pair leave one row with [hit_count] 2. *)
Lemma C7_witness :
  (1 <= 1000 /\ wf (set 1000 empty "q one" "r1" 1) /\
   count (set 1000 empty "q one" "r1" 1) <= 1000 /\
   Forall (fun x => last_accessed x <= 5) (rows (set 1000 empty "q one" "r1" 1))) /\
  exists row1 row2,
    rows_for (_hash_query "What is the deadline?")
      (set 1000 (set 1000 empty "q one" "r1" 1) "What is the deadline?" "March 1" 5)
    = [row1] /\
    rows_for (_hash_query "What is the deadline?")
      (set 1000
         (set 1000 (set 1000 empty "q one" "r1" 1) "What is the deadline?" "March 1" 5)
         "What is the deadline?" "March 1" 9)
    = [row2] /\
    hit_count row2 = hit_count row1 + 1 /\ id row2 = id row1 /\
    response row2 = "March 1".
Proof.
  assert (M : 1 <= 1000) by lia.
  assert (W : wf (set 1000 empty "q one" "r1" 1)) by (apply wf_set, wf_empty).
  assert (C : count (set 1000 empty "q one" "r1" 1) <= 1000)
    by (vm_compute; discriminate).
  assert (F : Forall (fun x => last_accessed x <= 5)
                (rows (set 1000 empty "q one" "r1" 1)))
    by (vm_compute; repeat constructor; discriminate).
  split; [repeat (split; [assumption|]); assumption|].
  destruct (proj1 (C7_set_is_an_upsert 24 1000)
              (set 1000 empty "q one" "r1" 1) "What is the deadline?" "March 1"
              5 9 M W C F)
    as (row1 & row2 & R1 & R2 & H & I & Rs & _).
  exists row1, row2. repeat (split; [assumption|]); assumption.
Defined.


(** C6 two days later: the question is asked again, answered and written,
    and the lookup in another spelling still misses. *)
Lemma C6_witness :
  (wf day_zero /\ count day_zero <= 1000 /\
   normalize "  What IS   the Deadline?" = normalize "what is the deadline?" /\
   In (mkRow 1 (_hash_query "what is the deadline?") "what is the deadline?"
             "March 1" 1 0 0) (rows day_zero) /\
   0 <= 172800 - 24 * 3600) /\
  fst (get 24 (set 1000 day_zero "what is the deadline?" "March 15" 172800)
         "  What IS   the Deadline?" 172800 172800) = None /\
  map response (rows (set 1000 day_zero "what is the deadline?" "March 15" 172800))
  = ["March 15"] /\
  map created_at (rows (set 1000 day_zero "what is the deadline?" "March 15" 172800))
  = [0].
Proof.
  assert (W : wf day_zero) by (apply wf_set, wf_empty).
  assert (C : count day_zero <= 1000) by (vm_compute; discriminate).
  assert (N : normalize "  What IS   the Deadline?" = normalize "what is the deadline?")
    by (vm_compute; reflexivity).
  assert (I : In (mkRow 1 (_hash_query "what is the deadline?") "what is the deadline?"
                        "March 1" 1 0 0) (rows day_zero))
    by (vm_compute; left; reflexivity).
  assert (O : 0 <= 172800 - 24 * 3600) by lia.
  split; [repeat (split; [assumption|]); assumption|].
  destruct (C6_write_to_expired_row_is_lost 24 1000 day_zero
              "  What IS   the Deadline?" "what is the deadline?" "March 15"
              172800 172800 172800 _ W C N I eq_refl O) as (_ & _ & G).
  rewrite G. split; [reflexivity|]. split; vm_compute; reflexivity.
Defined.

(** C9 under that budget: the prompt for two passages is longer, and what
    is sent is its first sixty characters and the marker. *)
Lemma C9_witness :
  0 <= MAX_CONTEXT_LENGTH tight_config /\
  (60 < String.length (assemble "Q?" ["p1"; "p2"] None "SYS"))%nat /\
  (exists k,
     requests (trace (snd (generate_with_context handbook_env tight_config
                             "Q?" ["p1"; "p2"] None (Some "SYS") fresh_world)))
     = repeat (mkLlmRequest
                 (PyStr.take 60 (assemble "Q?" ["p1"; "p2"] None "SYS")
                  ++ nl ++ "[Context truncated due to length]")
                 (7 # 10)%Q None) k /\
     (1 <= k <= 3)%nat) /\
  (exists a b, assemble "Q?" ["p1"; "p2"] None "SYS" = a ++ "p2" ++ b).
Proof.
  assert (B : 0 <= MAX_CONTEXT_LENGTH tight_config) by (simpl; lia).
  assert (L : (60 < String.length (assemble "Q?" ["p1"; "p2"] None "SYS"))%nat)
    by (vm_compute; lia).
  destruct (C9_truncation_after_assembly handbook_env tight_config "Q?"
              ["p1"; "p2"] None (Some "SYS") fresh_world B)
    as ((_ & _ & _ & Occ) & (text & w' & k & E & R & K) & _).
  split; [exact B|]. split; [exact L|]. split.
  - exists k. rewrite E. cbn [snd]. rewrite R. cbn [fresh_world trace requests].
    rewrite app_nil_r. split; [reflexivity | exact K].
  - apply Occ. simpl. right. now left.
Defined.

(** C10: the first answer comes with the handbook as its source; the
    same question in another spelling is then served from the cache, with
    no source. *)
Lemma C10_witness :
  App.chat_history alice_after_first_ask =
    [App.mkChatMessage "user" "What is the registration deadline?" None;
     App.mkChatMessage "assistant" "Registration closes on March 1."
       (Some [mkSource "handbook.pdf" "general" (Some 3)])] /\
  exists row,
    FAQCache.fetch (FAQ_CACHE_TTL_HOURS default_config) (cache after_first_ask)
      "what is the  registration deadline?"
      (py_clock handbook_env (count_events is_py_now after_first_ask)) = Some row /\
    FAQCache.response row <> "" /\
    fst (App.on_question handbook_env default_config alice_after_first_ask
           "what is the  registration deadline?" after_first_ask)
    = Ok (App.mkSessionState "session-1" "alice"
            (App.chat_history alice_after_first_ask ++
             [App.mkChatMessage "user" "what is the  registration deadline?" None;
              App.mkChatMessage "assistant" "Registration closes on March 1."
                (Some [])])
            (App.orchestrator alice_after_first_ask)).
Proof.
  split; [vm_compute; reflexivity|].
  assert (F : exists row,
            FAQCache.fetch (FAQ_CACHE_TTL_HOURS default_config) (cache after_first_ask)
              "what is the  registration deadline?"
              (py_clock handbook_env (count_events is_py_now after_first_ask))
            = Some row /\
            FAQCache.response row = "Registration closes on March 1.")
    by (vm_compute; eexists; split; reflexivity).
  destruct F as (row & F & R).
  assert (NE : FAQCache.response row <> "") by (rewrite R; discriminate).
  exists row. split; [exact F|]. split; [exact NE|].
  destruct (C10_cache_hit_has_no_sources handbook_env default_config
              alice_after_first_ask "what is the  registration deadline?"
              after_first_ask row F NE) as (w' & E & _).
  rewrite E. cbn [fst]. rewrite R. reflexivity.
Defined.

(** C1, as amended, on the same runs: the first question is recorded in
    both tiers, a question answered from the cache is not. *)
Lemma C1_witness :
  0 <= MAX_CONVERSATION_HISTORY default_config /\
  (exists reply w' earlier t_py row,
     AgentOrchestrator.process_query handbook_env default_config
       (AgentOrchestrator.mk "session-1" (Some "alice"))
       "What is the registration deadline?" None fresh_world = (Ok reply, w') /\
     SessionMemory.get_history (sessions w') "session-1"
     = (earlier ++ [SessionMemory.mkTurn "What is the registration deadline?"
                      (AgentOrchestrator.reply_answer reply) t_py])%list /\
     ConversationMemory.rows (conversations w')
     = (ConversationMemory.rows (conversations fresh_world) ++ [row])%list /\
     ConversationMemory.query row = "What is the registration deadline?") /\
  (exists cached,
     FAQCache.fetch (FAQ_CACHE_TTL_HOURS default_config) (cache warm_world)
       "What is the deadline?"
       (py_clock handbook_env (count_events is_py_now warm_world)) = Some cached /\
     FAQCache.response cached <> "" /\
     exists st' w',
       App.on_question handbook_env default_config alice "What is the deadline?"
         warm_world = (Ok st', w') /\
       sessions w' = sessions warm_world /\
       conversations w' = conversations warm_world).
Proof.
  assert (K : 0 <= MAX_CONVERSATION_HISTORY default_config) by (simpl; lia).
  destruct (C1_turns_recorded_on_the_orchestrator_path handbook_env default_config K)
    as (A & _ & C).
  split; [exact K|]. split.
  - destruct (A (AgentOrchestrator.mk "session-1" (Some "alice"))
                "What is the registration deadline?" None fresh_world)
      as (reply & w' & earlier & t_py & row & E & Hs & Hc & _ & Hq & _).
    exists reply, w', earlier, t_py, row.
    repeat (split; [assumption|]); assumption.
  - assert (F : exists cached,
              FAQCache.fetch (FAQ_CACHE_TTL_HOURS default_config) (cache warm_world)
                "What is the deadline?"
                (py_clock handbook_env (count_events is_py_now warm_world))
              = Some cached /\
              FAQCache.response cached = "March 1")
      by (vm_compute; eexists; split; reflexivity).
    destruct F as (cached & F & R).
    assert (NE : FAQCache.response cached <> "") by (rewrite R; discriminate).
    exists cached. split; [exact F|]. split; [exact NE|].
    destruct (C alice "What is the deadline?" warm_world cached F NE)
      as (st' & w' & E & Hs & Hc & _).
    exists st', w'. repeat (split; [assumption|]); assumption.
Defined.

(** C1 as the spec states it fails: served from the cache, the question
    leaves the session tier empty. *)
Lemma C1_counterexample : ~ App.every_question_is_recorded.
Proof.
  intros H.
  assert (E : exists st' w',
            App.on_question handbook_env default_config alice
              "What is the deadline?" warm_world = (Ok st', w') /\
            sessions w' = [])
    by (vm_compute; eexists _, _; split; reflexivity).
  destruct E as (st' & w' & E & S).
  assert (K : 0 <= MAX_CONVERSATION_HISTORY default_config) by (simpl; lia).
  destruct (H _ _ _ _ _ _ _ K E) as ((earlier & a & t & Hs) & _).
  rewrite S in Hs. destruct earlier; discriminate Hs.
Qed.

Lemma exhausted_always text : always_rate_limited exhausted_env text.
Proof.
  intros n. exists "429 RESOURCE_EXHAUSTED".
  split; [reflexivity | vm_compute; reflexivity].
Qed.

(** C2, as amended, with the embedding provider out of quota. *)
Lemma C2_witness :
  always_rate_limited exhausted_env "a passage" /\
  GeminiEmbeddingFunction._embed_with_retry exhausted_env "a passage" 5 fresh_world
  = (Ok None,
     with_trace
       [EvSleep 150; EvEmbed "a passage"; EvSleep 120; EvEmbed "a passage";
        EvSleep 90; EvEmbed "a passage"; EvSleep 60; EvEmbed "a passage";
        EvSleep 30; EvEmbed "a passage"] fresh_world) /\
  fst (GeminiEmbeddingFunction.call exhausted_env ["a passage"] fresh_world)
  = Raise "Some embeddings failed. Please retry." /\
  GeminiEmbeddings.call exhausted_env ["a passage"] fresh_world
  = (Ok [repeat (0 # 1)%Q 768], push (EvEmbed "a passage") fresh_world).
Proof.
  pose proof (exhausted_always "a passage") as R.
  destruct (C2_embedding_failure_handling exhausted_env) as (A & _ & _ & D).
  destruct (A "a passage" fresh_world R) as (A1 & _ & A3).
  split; [exact R|]. split; [exact A1|]. split; [now rewrite A3|].
  exact (D "a passage" fresh_world "429 RESOURCE_EXHAUSTED" eq_refl).
Defined.

(** C2 as the spec states it fails for both adapters: the first raises
    after its five requests, the second makes one request only. *)
Lemma C2_counterexample :
  ~ retries_then_zero_vector GeminiEmbeddingFunction.call /\
  ~ retries_then_zero_vector GeminiEmbeddings.call.
Proof.
  split; intros H;
    destruct (H exhausted_env "a passage" fresh_world (exhausted_always _))
      as (zeros & w' & E & _ & C).
  - vm_compute in E. discriminate E.
  - vm_compute in E. injection E as _ <-. vm_compute in C. discriminate C.
Qed.

End Runs.

(** ** Sources of an answer *)

Module SourceFacts.
Import Eff AgentSpec.

Lemma mem_In x l : PyStr.mem x l = true <-> In x l.
Proof.
  unfold PyStr.mem. rewrite existsb_exists. split.
  - intros (y & H & E). apply String.eqb_eq in E. now subst.
  - intros H. exists x. split; [exact H | apply String.eqb_refl].
Qed.









End SourceFacts.

(** ** The session tier *)

Module SessionFacts.
Import Eff SessionMemory SessionSpec.

Lemma lookup_store_same sid v m : lookup sid (store sid v m) = Some v.
Proof.
  induction m as [| [k v0] m IH]; simpl.
  - now rewrite String.eqb_refl.
  - destruct (String.eqb k sid) eqn:E; simpl; rewrite E; auto.
Qed.

Lemma lookup_store_other sid sid' v m :
  sid' <> sid -> lookup sid' (store sid v m) = lookup sid' m.
Proof.
  intros N. induction m as [| [k v0] m IH]; simpl.
  - destruct (String.eqb_spec sid sid'); congruence.
  - destruct (String.eqb_spec k sid) as [-> | K]; simpl.
    + destruct (String.eqb_spec sid sid'); congruence.
    + now rewrite IH.
Qed.

Lemma lookup_clear_same sid m : lookup sid (clear_session m sid) = None.
Proof.
  unfold clear_session. induction m as [| [k v0] m IH]; simpl; [reflexivity|].
  destruct (String.eqb_spec k sid) as [-> | K]; simpl; [exact IH|].
  destruct (String.eqb_spec k sid); congruence.
Qed.

Lemma lookup_clear_other sid sid' m :
  sid' <> sid -> lookup sid' (clear_session m sid) = lookup sid' m.
Proof.
  intros N. unfold clear_session.
  induction m as [| [k v0] m IH]; simpl; [reflexivity|].
  destruct (String.eqb_spec k sid) as [-> | K]; simpl.
  - destruct (String.eqb_spec sid sid'); congruence.
  - now rewrite IH.
Qed.

Lemma history_add_turn max_turns m sid q r now :
  get_history (add_turn max_turns m sid q r now) sid =
  let l := (get_history m sid ++ [mkTurn q r now])%list in
  if Z.of_nat (List.length l) >? max_turns then py_last max_turns l else l.
Proof.
  unfold add_turn. cbv zeta.
  destruct (_ >? _); unfold get_history at 1; now rewrite lookup_store_same.
Qed.

Lemma history_add_turn_other max_turns m sid sid' q r now :
  sid' <> sid ->
  get_history (add_turn max_turns m sid q r now) sid' = get_history m sid'.
Proof.
  intros N. unfold add_turn.
  destruct (_ >? _); unfold get_history at 1 3; now rewrite lookup_store_other.
Qed.

Lemma history_add_turn_suffix max_turns m sid q r now :
  1 <= max_turns ->
  exists dropped earlier,
    (get_history m sid ++ [mkTurn q r now]
     = dropped ++ get_history (add_turn max_turns m sid q r now) sid)%list /\
    get_history (add_turn max_turns m sid q r now) sid
    = (earlier ++ [mkTurn q r now])%list.
Proof.
  intros K. rewrite history_add_turn. cbv zeta.
  set (before := get_history m sid).
  destruct (Z.gtb_spec (Z.of_nat (List.length (before ++ [mkTurn q r now])))
              max_turns) as [G | G].
  - unfold py_last. destruct (Z.ltb_spec 0 max_turns); [| lia].
    rewrite length_app in *. cbn [List.length] in *.
    exists (firstn (List.length before + 1 - Z.to_nat max_turns)
                   (before ++ [mkTurn q r now])),
           (skipn (List.length before + 1 - Z.to_nat max_turns) before).
    split; [now rewrite firstn_skipn|].
    rewrite skipn_app.
    replace (List.length before + 1 - Z.to_nat max_turns - List.length before)%nat
      with 0%nat by lia.
    reflexivity.
  - exists [], before. split; reflexivity.
Qed.

Lemma history_add_turn_length max_turns m sid q r now :
  1 <= max_turns ->
  List.length (get_history (add_turn max_turns m sid q r now) sid)
  = Nat.min (S (List.length (get_history m sid))) (Z.to_nat max_turns).
Proof.
  intros K. rewrite history_add_turn. cbv zeta.
  set (before := get_history m sid).
  rewrite length_app. cbn [List.length].
  destruct (Z.gtb_spec (Z.of_nat (List.length before + 1)) max_turns) as [G | G].
  - unfold py_last. destruct (Z.ltb_spec 0 max_turns); [| lia].
    rewrite length_skipn, length_app. cbn [List.length]. lia.
  - rewrite length_app. cbn [List.length]. lia.
Qed.

Lemma history_step_bound max_turns m op :
  1 <= max_turns ->
  (forall sid, Z.of_nat (List.length (get_history m sid)) <= max_turns) ->
  forall sid, Z.of_nat (List.length (get_history (step max_turns m op) sid)) <= max_turns.
Proof.
  intros K H sid. destruct op as [sid0 q r now | sid0]; cbn [step].
  - destruct (String.eqb_spec sid sid0) as [-> | N].
    + rewrite history_add_turn_length by exact K. lia.
    + rewrite history_add_turn_other by exact N. apply H.
  - destruct (String.eqb_spec sid sid0) as [-> | N].
    + unfold get_history. rewrite lookup_clear_same. simpl. lia.
    + unfold get_history. rewrite lookup_clear_other by exact N. apply H.
Qed.

(** X2.  The window of the session tier, for [max_turns >= 1]: after
    [add_turn] the history of the session is the old history with the new
    turn appended, cut from the front to its last [max_turns] turns, so it
    ends with the new turn and holds [min (old + 1) max_turns] turns; the
    history of every other session is untouched. *)
Theorem add_turn_keeps_the_last_turns max_turns m sid q r now :
  1 <= max_turns ->
  let before := get_history m sid in
  let after := get_history (add_turn max_turns m sid q r now) sid in
  (exists dropped earlier,
     (before ++ [mkTurn q r now] = dropped ++ after)%list /\
     after = (earlier ++ [mkTurn q r now])%list) /\
  List.length after = Nat.min (S (List.length before)) (Z.to_nat max_turns) /\
  (forall sid', sid' <> sid ->
     get_history (add_turn max_turns m sid q r now) sid' = get_history m sid').
Proof.
  intros K before after.
  split; [now apply history_add_turn_suffix|].
  split; [now apply history_add_turn_length|].
  intros; now apply history_add_turn_other.
Qed.

(** X3.  Whatever turns are added and whatever sessions are cleared, in
    any order and from an empty store, no session ever holds more than
    [max_turns] turns (for [max_turns >= 1]). *)
Theorem session_histories_stay_within_the_window max_turns ops sid :
  1 <= max_turns ->
  Z.of_nat (List.length (get_history (run max_turns ops []) sid)) <= max_turns.
Proof.
  intros K. unfold run.
  assert (G : forall m,
             (forall s, Z.of_nat (List.length (get_history m s)) <= max_turns) ->
             forall s, Z.of_nat (List.length
                         (get_history (fold_left (step max_turns) ops m) s))
                       <= max_turns).
  { induction ops as [| op ops IH]; intros m H s; cbn [fold_left]; [apply H|].
    apply IH. now apply history_step_bound. }
  apply G. intros s. cbn. lia.
Qed.

(** X4.  With [max_turns = 0] the trim keeps everything: the test
    [len > 0] holds and the slice [l[-0:]] is the whole list, so the
    history grows by one turn at every call and nothing is ever dropped. *)
Theorem zero_window_never_trims m sid q r now :
  get_history (add_turn 0 m sid q r now) sid
  = (get_history m sid ++ [mkTurn q r now])%list.
Proof.
  rewrite history_add_turn. cbv zeta.
  destruct (_ >? _); reflexivity.
Qed.

(** X5.  [AgentOrchestrator.clear_session] empties the session tier for
    the orchestrator's own session only: its history is [[]] afterwards,
    the histories of the other sessions, the durable conversation table,
    the cache and the trace are as before. *)
Theorem clear_session_forgets_one_session self w :
  exists w',
    OrchestratorSession.clear_session self w = (Ok tt, w') /\
    get_history (sessions w') (AgentOrchestrator.session_id self) = [] /\
    (forall sid, sid <> AgentOrchestrator.session_id self ->
       get_history (sessions w') sid = get_history (sessions w) sid) /\
    conversations w' = conversations w /\ cache w' = cache w /\
    trace w' = trace w.
Proof.
  eexists. split; [reflexivity|]. cbn [sessions conversations cache trace].
  split; [unfold get_history; now rewrite lookup_clear_same|].
  split; [| repeat split].
  intros sid N. unfold get_history. now rewrite lookup_clear_other.
Qed.

End SessionFacts.

(** ** The retry loop of the LLM client *)

Module RetryFacts.
Import Eff EffFacts LLMClient.

Lemma call_llm_run env req w :
  call_llm env req w =
  (llm_provider env (count_events is_generate w) req, push (EvGenerate req) w).
Proof. reflexivity. Qed.

Lemma count_generate_after_retry req s w :
  count_events is_generate (push (EvSleep s) (push (EvGenerate req) w))
  = S (count_events is_generate w).
Proof. reflexivity. Qed.

(** X6.  The retry budget of [generate].  A failure that is not a rate
    limit is not retried: one request, no sleep, and the error comes back
    inside the apology text.  A rate limit is retried after 15 seconds and
    then after 30 seconds; a retry that succeeds gives the provider's text.
    The third failure ends the call whatever it is: three requests, the
    two sleeps and no third one, and the apology text carries the last
    error.  [generate] itself never raises in any of these cases. *)
Theorem generate_retry_budget env prompt sys temp w :
  let req := mkLlmRequest prompt temp
               (match sys with
                | Some s => if PyStr.truthy s then Some s else None
                | None => None
                end) in
  let n := count_events is_generate w in
  let apology e := "I apologize, but I encountered an error: " ++ e in
  let first := push (EvGenerate req) w in
  let second := push (EvGenerate req) (push (EvSleep 15) first) in
  let third := push (EvGenerate req) (push (EvSleep 30) second) in
  (forall e, llm_provider env n req = Raise e -> is_rate_limit e = false ->
     generate env prompt sys temp w = (Ok (apology e), first)) /\
  (forall e1 text,
     llm_provider env n req = Raise e1 -> is_rate_limit e1 = true ->
     llm_provider env (S n) req = Ok text ->
     generate env prompt sys temp w = (Ok text, second)) /\
  (forall e1 e2 text,
     llm_provider env n req = Raise e1 -> is_rate_limit e1 = true ->
     llm_provider env (S n) req = Raise e2 -> is_rate_limit e2 = true ->
     llm_provider env (S (S n)) req = Ok text ->
     generate env prompt sys temp w = (Ok text, third)) /\
  (forall e1 e2 e3,
     llm_provider env n req = Raise e1 -> is_rate_limit e1 = true ->
     llm_provider env (S n) req = Raise e2 -> is_rate_limit e2 = true ->
     llm_provider env (S (S n)) req = Raise e3 ->
     generate env prompt sys temp w = (Ok (apology e3), third)).
Proof.
  intros req n apology first second third.
  unfold generate, _call_with_retry. fold req.
  change (Z.of_nat 3) with 3.
  repeat split.
  - intros e P R. cbn [call_loop].
    unfold try_except, bind. rewrite call_llm_run. fold n. rewrite P, R.
    reflexivity.
  - intros e1 text P1 R1 P2. cbn [call_loop].
    unfold try_except, bind. rewrite call_llm_run. fold n. rewrite P1, R1.
    cbn [andb Z.ltb Z.sub Z.add Z.mul Z.compare Z.opp Z.pos_sub Pos.compare
         Pos.compare_cont Pos.mul Pos.add Pos.succ Pos.pred_double Z.succ_double
         Z.pred_double Z.double].
    unfold sleep, emit. rewrite call_llm_run, count_generate_after_retry.
    fold n. rewrite P2. reflexivity.
  - intros e1 e2 text P1 R1 P2 R2 P3. cbn [call_loop].
    unfold try_except, bind. rewrite call_llm_run. fold n. rewrite P1, R1.
    cbn [andb Z.ltb Z.sub Z.add Z.mul Z.compare Z.opp Z.pos_sub Pos.compare
         Pos.compare_cont Pos.mul Pos.add Pos.succ Pos.pred_double Z.succ_double
         Z.pred_double Z.double].
    unfold sleep, emit. rewrite call_llm_run, count_generate_after_retry.
    fold n. rewrite P2, R2.
    cbn [andb Z.ltb Z.sub Z.add Z.mul Z.compare Z.opp Z.pos_sub Pos.compare
         Pos.compare_cont Pos.mul Pos.add Pos.succ Pos.pred_double Z.succ_double
         Z.pred_double Z.double].
    rewrite call_llm_run, !count_generate_after_retry. fold n. rewrite P3.
    reflexivity.
  - intros e1 e2 e3 P1 R1 P2 R2 P3. cbn [call_loop].
    unfold try_except, bind. rewrite call_llm_run. fold n. rewrite P1, R1.
    cbn [andb Z.ltb Z.sub Z.add Z.mul Z.compare Z.opp Z.pos_sub Pos.compare
         Pos.compare_cont Pos.mul Pos.add Pos.succ Pos.pred_double Z.succ_double
         Z.pred_double Z.double].
    unfold sleep, emit. rewrite call_llm_run, count_generate_after_retry.
    fold n. rewrite P2, R2.
    cbn [andb Z.ltb Z.sub Z.add Z.mul Z.compare Z.opp Z.pos_sub Pos.compare
         Pos.compare_cont Pos.mul Pos.add Pos.succ Pos.pred_double Z.succ_double
         Z.pred_double Z.double].
    rewrite call_llm_run, !count_generate_after_retry. fold n. rewrite P3.
    destruct (is_rate_limit e3); reflexivity.
Qed.

End RetryFacts.

(** ** Intents *)

Module IntentFacts.
Import Eff EffFacts LLMClient LLMClientFacts AgentFacts.

Lemma classify_intent_valid env query w :
  exists intent w',
    classify_intent env query w = (Ok intent, w') /\
    same_stores w w' /\ In intent valid_intents.
Proof.
  unfold classify_intent.
  destruct (Regex.match_anchored _ _).
  { exists "general", w. split; [reflexivity|].
    split; [apply same_stores_refl | simpl; auto]. }
  destruct (existsb _ _).
  { exists "admin", w. split; [reflexivity|].
    split; [apply same_stores_refl | simpl; auto]. }
  destruct (returns_generate env (classify_prompt (PyStr.strip query)) None
              (1 # 10)%Q w) as (text & w' & E & S).
  rewrite (bind_ok _ _ _ _ _ E). unfold ret.
  eexists _, w'. split; [reflexivity|]. split; [exact S|].
  destruct (PyStr.mem _ valid_intents) eqn:M.
  - now apply SourceFacts.mem_In.
  - simpl; auto.
Qed.

(** What [process_query] writes to the conversations table. *)
Lemma process_query_row env cfg self query context w :
  exists reply w' t_sql chunks,
    AgentOrchestrator.process_query env cfg self query context w = (Ok reply, w') /\
    In (AgentOrchestrator.reply_intent reply) valid_intents /\
    conversations w'
    = snd (ConversationMemory.add_turn (conversations w)
             (AgentOrchestrator.session_id self) query
             (AgentOrchestrator.reply_answer reply)
             (AgentOrchestrator.user_id self)
             (Some (AgentOrchestrator.reply_intent reply)) chunks t_sql).
Proof.
  unfold AgentOrchestrator.process_query.
  rewrite (bind_ok read_sessions _ w (sessions w) w eq_refl).
  assert (Hi : exists intent w1,
             (if Regex.match_anchored Regex.orchestrator_greeting_re query
              then ret "general" else classify_intent env query) w
             = (Ok intent, w1) /\ same_stores w w1 /\ In intent valid_intents).
  { destruct (Regex.match_anchored _ _); [| apply classify_intent_valid].
    exists "general", w. split; [reflexivity|].
    split; [apply same_stores_refl | simpl; auto]. }
  destruct Hi as (intent & w1 & E1 & S1 & V).
  rewrite (bind_ok _ _ _ _ _ E1).
  destruct (returns_route env cfg query intent
              (SessionMemory.get_history (sessions w) (AgentOrchestrator.session_id self))
              context w1) as (response & w2 & E2 & S2).
  rewrite (bind_ok _ _ _ _ _ E2).
  unfold bind, now_py, now_sql, with_sessions, with_conversations, ret. simpl.
  destruct S1 as (A1 & B1 & C1), S2 as (A2 & B2 & C2).
  eexists _, _, (sql_clock env (count_events is_sql_now w2)),
    (Some (match context_chunks response with Some l => l | None => [] end)).
  split; [reflexivity|]. cbn [AgentOrchestrator.reply_intent].
  split; [exact V|]. simpl. rewrite B2, B1. reflexivity.
Qed.


End IntentFacts.

(** ** Retrieval *)

Module RetrievalFacts.
Import Eff EffFacts LLMClient LLMClientFacts AgentFacts AgentSpec.

Lemma query_run env query_text n_results where_ w :
  VectorStore.query env query_text n_results where_ w =
  (Ok (match chroma env (count_events is_chroma w)
               (mkChromaQuery [query_text] n_results where_) with
       | Ok (Some r) =>
           VectorStore.mkResult
             (VectorStore.first_of (c_documents r))
             (VectorStore.first_of (c_metadatas r))
             (VectorStore.first_of (c_distances r))
             (VectorStore.first_of (c_ids r))
       | _ => VectorStore.no_result
       end),
   push (EvChroma (mkChromaQuery [query_text] n_results where_)) w).
Proof.
  unfold VectorStore.query, try_except, bind, call_chroma.
  destruct (chroma env _ _) as [[r |] | e]; reflexivity.
Qed.

(** X8.  [VectorStore.query] never raises and asks the index once.  When
    the index raises, or answers nothing, the result is the empty one
    (four empty lists); otherwise it is the first inner list of each field
    of the answer.  So a failing index does not surface as an error of
    [QAAgent.answer]: the agent answers with its fixed no-context text, no
    sources, and no request to the generation provider. *)
Theorem a_failing_index_reads_as_an_empty_one env cfg query_text n_results where_ w :
  let cq := mkChromaQuery [query_text] n_results where_ in
  let reply := chroma env (count_events is_chroma w) cq in
  (exists r,
     VectorStore.query env query_text n_results where_ w
     = (Ok r, push (EvChroma cq) w) /\
     ((forall found, reply <> Ok (Some found)) -> r = VectorStore.no_result) /\
     (forall found, reply = Ok (Some found) ->
        r = VectorStore.mkResult
              (VectorStore.first_of (c_documents found))
              (VectorStore.first_of (c_metadatas found))
              (VectorStore.first_of (c_distances found))
              (VectorStore.first_of (c_ids found)))) /\
  (forall history e,
     chroma env (count_events is_chroma w)
       (mkChromaQuery [query_text] (TOP_K_RESULTS cfg) None) = Raise e ->
     QAAgent.answer env cfg query_text history None w
     = (Ok (mkAgentResponse (Some (QAAgent._no_context_response query_text))
              (Some []) (Some []) (Some (MdQA 0 [])) None None None),
        push (EvChroma (mkChromaQuery [query_text] (TOP_K_RESULTS cfg) None)) w)).
Proof.
  intros cq reply. split.
  - eexists. split; [apply query_run|]. fold cq. fold reply. split.
    + intros N. destruct reply as [[found |] | e]; [| reflexivity | reflexivity].
      exfalso. now apply (N found).
    + intros found ->. reflexivity.
  - intros history e F.
    unfold QAAgent.answer, QAAgent.retrieve, try_except, bind.
    rewrite query_run, F. reflexivity.
Qed.

(** X9.  [query_with_filter] builds the [where] filter from the arguments
    that are given and non-empty: key [document_type] for the document
    type, key [source] for the source file, nothing else.  With neither it
    passes [None], never an empty dict.  It asks the index once and does
    not raise. *)
Theorem the_filter_holds_the_given_keys_only env query_text document_type source_file
    n_results w :
  exists r where_,
    VectorStore.query_with_filter env query_text document_type source_file
      n_results w
    = (Ok r, push (EvChroma (mkChromaQuery [query_text] n_results where_)) w) /\
    where_ <> Some [] /\
    (where_ = None <->
       (document_type = None \/ document_type = Some "") /\
       (source_file = None \/ source_file = Some "")) /\
    (forall k v,
       In (k, v) (match where_ with Some l => l | None => [] end) <->
       v <> "" /\
       ((k = "document_type" /\ document_type = Some v) \/
        (k = "source" /\ source_file = Some v))).
Proof.
  unfold VectorStore.query_with_filter.
  eexists _, _. split; [apply query_run|].
  destruct document_type as [[| c d] |], source_file as [[| c' f] |];
    cbn [PyStr.truthy app]; (split; [discriminate|]); split.
  all: try (split;
            [ intros E; try discriminate E; split; auto
            | intros [[E | E] [E' | E']]; try discriminate E;
              try discriminate E'; reflexivity ]).
  all: intros k v; split;
       [ intros H; cbn [In] in H;
         repeat (destruct H as [H | H];
                 [injection H as <- <-; split; [discriminate | auto] |]);
         destruct H
       | intros [V [[-> E] | [-> E]]]; try discriminate E;
         injection E as <-; cbn [In]; auto; congruence ].
Qed.

End RetrievalFacts.

(** ** What the generation client leaves in the trace *)

Module TraceFacts.
Import Eff EffFacts LLMClient AgentSpec.

Lemma call_loop_trace env left attempt max_retries req w :
  exists new,
    trace (snd (call_loop env left attempt max_retries req w))
    = (new ++ trace w)%list /\
    Forall (fun e => of_llm e = true) new.
Proof.
  revert attempt w. induction left as [| left IH]; intros attempt w.
  - exists []. split; [reflexivity | constructor].
  - cbn [call_loop]. unfold try_except at 1, bind at 1, call_llm at 1.
    destruct (llm_provider env _ req) as [text | e].
    + exists [EvGenerate req]. split; [reflexivity | repeat constructor].
    + destruct (is_rate_limit e && (attempt <? max_retries - 1)).
      * unfold bind at 1, sleep, emit.
        destruct (IH (attempt + 1)
                    (push (EvSleep (15 * (attempt + 1))) (push (EvGenerate req) w)))
          as (new & E & F).
        exists (new ++ [EvSleep (15 * (attempt + 1)); EvGenerate req])%list.
        rewrite E. cbn [trace push]. rewrite <- app_assoc. split; [reflexivity|].
        apply Forall_app. split; [exact F | repeat constructor].
      * exists [EvGenerate req]. split; [reflexivity | repeat constructor].
Qed.

Lemma generate_trace env prompt sys temp w :
  exists new,
    trace (snd (generate env prompt sys temp w)) = (new ++ trace w)%list /\
    Forall (fun e => of_llm e = true) new.
Proof.
  unfold generate, _call_with_retry, try_except, bind.
  match goal with
  | |- context [call_loop env ?l ?a ?m ?r w] =>
      destruct (call_loop_trace env l a m r w) as (new & E & F);
      destruct (call_loop env l a m r w) as [[[text |] | e] w']
  end; exists new; split; assumption.
Qed.


Lemma lookups_app new old :
  Forall (fun e => of_llm e = true) new ->
  lookups (new ++ old) = lookups old.
Proof.
  induction 1 as [| e new H F IH]; [reflexivity|].
  destruct e; try discriminate H; exact IH.
Qed.


Lemma generate_lookups env prompt sys temp w :
  lookups (trace (snd (generate env prompt sys temp w))) = lookups (trace w).
Proof.
  destruct (generate_trace env prompt sys temp w) as (new & -> & F).
  now apply lookups_app.
Qed.

End TraceFacts.

(** ** Grounded answers *)

Module GroundedFacts.
Import Eff EffFacts LLMClient LLMClientFacts AgentFacts AgentSpec TraceFacts.

(** X10.  The shape of every answer of [QAAgent.answer].  It never raises
    and never falls into its own error branch: the index is asked once and
    the response carries the retrieved passages as [context_chunks] and
    their number and distances as [metadata].  When there is a passage,
    the sources are those of [_extract_sources] on the retrieved metadata
    and the generation provider is sent the assembled and truncated
    prompt, at temperature 0.7 and without a system instruction, one to
    three times; the index is not asked again. *)
Theorem the_answer_carries_what_was_retrieved env cfg query history document_filter w :
  exists r cq resp w',
    QAAgent.retrieve env cfg query document_filter w
    = (Ok r, push (EvChroma cq) w) /\
    QAAgent.answer env cfg query history document_filter w = (Ok resp, w') /\
    context_chunks resp = Some (VectorStore.documents r) /\
    metadata resp
    = Some (MdQA (List.length (VectorStore.documents r)) (VectorStore.distances r)) /\
    lookups (trace w') = cq :: lookups (trace w) /\
    same_stores w w' /\
    (VectorStore.documents r <> [] ->
     sources resp = Some (QAAgent._extract_sources (VectorStore.metadatas r)) /\
     exists text k,
       answer resp = Some text /\ (1 <= k <= 3)%nat /\
       requests (trace w')
       = (repeat (mkLlmRequest
                    (truncate cfg
                       (assemble query (VectorStore.documents r) history
                          QAAgent.system_prompt))
                    (7 # 10)%Q None) k
          ++ requests (trace w))%list).
Proof.
  destruct (retrieve_spec env cfg query document_filter w) as (r & cq & R).
  exists r, cq. unfold QAAgent.answer, try_except.
  rewrite (bind_ok _ _ _ _ _ R).
  destruct (VectorStore.documents r) as [| p ps] eqn:D.
  - eexists _, _. split; [exact R|]. split; [reflexivity|].
    cbn [context_chunks metadata sources answer trace push lookups].
    split; [reflexivity|]. split; [reflexivity|]. split; [reflexivity|].
    split; [apply same_stores_push|]. intros N. now destruct N.
  - set (prompt := truncate cfg (assemble query (p :: ps) history QAAgent.system_prompt)).
    pose proof (generate_lookups env prompt None (7 # 10)%Q (push (EvChroma cq) w)) as L.
    destruct (generate_spec env prompt None (7 # 10)%Q (push (EvChroma cq) w))
      as (text & w' & k & G & S & Rq & K & _).
    unfold generate_with_context. fold prompt.
    rewrite (bind_ok _ _ _ _ _ G). rewrite G in L. cbn [snd] in L.
    eexists _, w'. split; [exact R|]. split; [reflexivity|].
    cbn [context_chunks metadata sources answer].
    split; [reflexivity|]. split; [reflexivity|].
    split; [exact L|].
    split; [eapply same_stores_trans; [apply same_stores_push | exact S]|].
    intros _. split; [reflexivity|].
    exists text, k. split; [reflexivity|]. split; [exact K|]. exact Rq.
Qed.

End GroundedFacts.

(** ** The admin agent *)

Module AdminFacts.
Import Eff EffFacts LLMClient LLMClientFacts AgentFacts AgentSpec TraceFacts.





End AdminFacts.

(** ** The two greeting patterns *)

Module GreetingFacts.
Import Eff EffFacts LLMClient LLMClientFacts AgentFacts AgentSpec Regex RegexFacts.

Lemma blank_app a b : blank a = true -> blank b = true -> blank (a ++ b) = true.
Proof.
  induction a as [| c a IH]; intros A B; [exact B|].
  cbn [blank append] in *. apply andb_true_iff in A as [A1 A2].
  rewrite A1. now apply IH.
Qed.

Lemma lstrip_split s :
  exists lead, s = lead ++ PyStr.lstrip s /\ blank lead = true.
Proof.
  induction s as [| c s IH].
  - exists "". split; reflexivity.
  - cbn [PyStr.lstrip]. destruct (PyStr.isspace c) eqn:E.
    + destruct IH as (lead & E1 & B). exists (String c lead).
      cbn [append blank]. rewrite E, B, <- E1. split; reflexivity.
    + exists "". split; reflexivity.
Qed.

Lemma rstrip_split s :
  exists trail, s = PyStr.rstrip s ++ trail /\ blank trail = true.
Proof.
  induction s as [| c s IH].
  - exists "". split; reflexivity.
  - cbn [PyStr.rstrip]. destruct IH as (trail & E1 & B).
    destruct (PyStr.rstrip s) as [| c' r'] eqn:R.
    + cbn [append] in E1. subst trail.
      destruct (PyStr.isspace c) eqn:E.
      * exists (String c s). cbn [append blank]. rewrite E, B. split; reflexivity.
      * exists s. split; [reflexivity | exact B].
    + exists trail. split; [| exact B]. cbn [append]. cbn [append] in E1.
      now rewrite <- E1.
Qed.

Lemma strip_split s :
  exists lead trail,
    s = lead ++ PyStr.strip s ++ trail /\ blank lead = true /\ blank trail = true.
Proof.
  destruct (lstrip_split s) as (lead & E1 & B1).
  destruct (rstrip_split (PyStr.lstrip s)) as (trail & E2 & B2).
  exists lead, trail. unfold PyStr.strip. rewrite <- E2. auto.
Qed.

Lemma denotes_ws_blank s : blank s = true -> Denotes ws s.
Proof.
  induction s as [| c s IH]; intros B; [constructor|].
  cbn [blank] in B. apply andb_true_iff in B as [B1 B2].
  change (String c s) with (String c "" ++ s).
  apply DStarMore; [now constructor | now apply IH].
Qed.

Lemma chop_final_newline_spec s s' :
  chop_final_newline s = Some s' -> s = s' ++ nl.
Proof.
  revert s'. induction s as [| c s IH]; intros s' H; [discriminate|].
  cbn [chop_final_newline] in H. destruct s as [| c2 s2].
  - destruct (Ascii.eqb_spec c (ascii_of_nat 10)) as [-> | N]; [| discriminate].
    injection H as <-. reflexivity.
  - destruct (chop_final_newline (String c2 s2)) as [r' |]; [| discriminate].
    injection H as <-. cbn [append]. now rewrite <- (IH r' eq_refl).
Qed.

Lemma denotes_alts l s :
  Denotes (alts l) s <-> exists r, In r l /\ Denotes r s.
Proof.
  induction l as [| a l IH].
  - split; [intros D; now apply denotes_void in D | intros (r & [] & _)].
  - destruct l as [| b l].
    + cbn [alts]. split.
      * intros D. exists a. split; [now left | exact D].
      * intros (r & [<- | []] & D). exact D.
    + change (alts (a :: b :: l)) with (Alt a (alts (b :: l))). split.
      * intros D. apply denotes_alt in D as [D | D].
        -- exists a. split; [now left | exact D].
        -- apply IH in D as (r & I & D). exists r. split; [now right | exact D].
      * intros (r & [<- | I] & D); [now apply DAltL|].
        apply DAltR, IH. now exists r.
Qed.

(** A match of [a \s* [!?.]*] inside white space is a match of
    [\s* a' \s* [!?.]* \s*] when [a'] has the words of [a]. *)
Lemma widen a a' lead u trail :
  (forall s, Denotes a s -> Denotes a' s) ->
  blank lead = true -> blank trail = true ->
  Denotes (seqs [a; ws; punct]) u ->
  Denotes (seqs [ws; a'; ws; punct; ws]) (lead ++ u ++ trail).
Proof.
  intros Sub L T D. cbn [seqs] in *.
  apply denotes_seq in D as (s1 & s23 & -> & D1 & D23).
  apply denotes_seq in D23 as (s2 & s3 & -> & D2 & D3).
  replace ((s1 ++ s2 ++ s3) ++ trail) with (s1 ++ s2 ++ s3 ++ trail)
    by now rewrite !str_app_assoc.
  apply DSeq; [now apply denotes_ws_blank|].
  apply DSeq; [now apply Sub|].
  apply DSeq; [exact D2|].
  apply DSeq; [exact D3 | now apply denotes_ws_blank].
Qed.

Lemma more_words s :
  Denotes (alts (greeting_words ++ [lit "aidez"; comment_vas])) s ->
  Denotes (alts (greeting_words ++ [lit "help"; lit "aidez"; comment_vas])) s.
Proof.
  intros D. apply denotes_alts in D as (r & I & D). apply denotes_alts.
  exists r. split; [| exact D].
  apply in_app_iff in I as [I | I]; apply in_app_iff; [now left | right].
  now right.
Qed.

Lemma greeting_inclusion q :
  match_anchored llm_greeting_re (PyStr.strip q) = true ->
  fullmatch orchestrator_greeting_re q = true.
Proof.
  intros H. apply fullmatch_denotes.
  destruct (strip_split q) as (lead & trail & E & L & T).
  unfold match_anchored in H. apply orb_true_iff in H as [H | H].
  - apply fullmatch_denotes in H. rewrite E.
    unfold orchestrator_greeting_re.
    apply (widen _ _ lead (PyStr.strip q) trail more_words L T H).
  - destruct (chop_final_newline (PyStr.strip q)) as [u |] eqn:C; [| discriminate].
    apply chop_final_newline_spec in C. apply fullmatch_denotes in H.
    rewrite E, C, str_app_assoc.
    unfold orchestrator_greeting_re.
    apply (widen _ _ lead u (nl ++ trail) more_words L); [| exact H].
    cbn [nl append blank]. now rewrite T.
Qed.

(** X13.  Every text that [classify_intent] would label a greeting by its
    own pattern (on the stripped query) is matched by the orchestrator's
    pattern on the raw query.  So [process_query] settles it before the
    classifier is called: the reply has intent [general], no sources, the
    metadata of the general handler, and the only requests to the provider
    are those of the general prompt (one to three of them). *)
Theorem greetings_are_settled_by_the_orchestrator env cfg self query context w :
  match_anchored llm_greeting_re (PyStr.strip query) = true ->
  match_anchored orchestrator_greeting_re query = true /\
  exists reply w' k,
    AgentOrchestrator.process_query env cfg self query context w = (Ok reply, w') /\
    AgentOrchestrator.reply_intent reply = "general" /\
    AgentOrchestrator.reply_sources reply = [] /\
    AgentOrchestrator.reply_metadata reply = MdGeneral /\
    (1 <= k <= 3)%nat /\
    requests (trace w')
    = (repeat (mkLlmRequest (AgentOrchestrator.general_prompt query) (7 # 10)%Q None) k
       ++ requests (trace w))%list.
Proof.
  intros H. apply greeting_inclusion in H.
  assert (M : match_anchored orchestrator_greeting_re query = true).
  { unfold match_anchored. now rewrite H. }
  split; [exact M|].
  unfold AgentOrchestrator.process_query.
  rewrite (bind_ok read_sessions _ w (sessions w) w eq_refl). rewrite M.
  rewrite (bind_ok (ret "general") _ w "general" w eq_refl).
  unfold AgentOrchestrator._route_to_agent.
  change (String.eqb "general" "qa") with false.
  change (String.eqb "general" "admin") with false. cbv iota.
  unfold AgentOrchestrator._handle_general_query.
  destruct (generate_spec env (AgentOrchestrator.general_prompt query) None
              (7 # 10)%Q w) as (text & w1 & k & G & S & Rq & K & _).
  unfold bind at 1 2. rewrite G. unfold ret at 1.
  unfold bind, now_py, now_sql, with_sessions, with_conversations, ret.
  cbn [ConversationMemory.add_turn].
  eexists _, _, k. split; [reflexivity|].
  cbn [AgentOrchestrator.reply_intent AgentOrchestrator.reply_sources
       AgentOrchestrator.reply_metadata sources metadata trace push requests].
  repeat split; try lia. exact Rq.
Qed.

End GreetingFacts.

(** ** More on the response cache *)

Module CacheFacts.
Import FAQCache FAQCacheFacts.




Lemma count_upsert t q r now :
  count (upsert t q r now)
  = if existsb (has_hash (_hash_query q)) (rows t) then count t else count t + 1.
Proof.
  unfold upsert, count. destruct (existsb _ _); cbn [rows].
  - now rewrite length_update.
  - rewrite length_app. cbn [List.length]. lia.
Qed.

(** X15.  A write to a table within its cap never shrinks it and evicts
    at most one row: the count after [set] is the old count or one more.
    Nothing is evicted when the key is already present, or when the table
    has room for one more row; a new key written to a full table takes the
    place of exactly one row. *)
Theorem a_write_evicts_at_most_one_row max_size t q r now :
  0 <= max_size -> wf t -> count t <= max_size ->
  let present := existsb (has_hash (_hash_query q)) (rows t) in
  let written := upsert t q r now in
  let t' := set max_size t q r now in
  count t <= count t' <= count t + 1 /\
  count written - count t' <= 1 /\
  (present = true -> t' = written /\ count t' = count t) /\
  (present = false -> count t < max_size ->
     t' = written /\ count t' = count t + 1) /\
  (present = false -> count t = max_size ->
     count t' = count t /\ count written - count t' = 1).
Proof.
  intros M W C present written t'.
  assert (Cs : count t' = Z.min (count written) max_size).
  { apply cleanup_count; [exact M | now apply wf_upsert]. }
  assert (Cu : count written = if present then count t else count t + 1)
    by apply count_upsert.
  split; [destruct present; lia|]. split; [destruct present; lia|].
  split; [| split].
  - intros P. rewrite P in Cu. split; [| lia].
    apply set_within_cap. fold written. lia.
  - intros P L. rewrite P in Cu. split; [| lia].
    apply set_within_cap. fold written. lia.
  - intros P L. rewrite P in Cu. lia.
Qed.

Lemma length_rows_for h t :
  wf t -> (List.length (rows_for h t) <= 1)%nat.
Proof.
  intros (_ & _ & U). unfold rows_for.
  destruct (existsb (has_hash h) (rows t)) eqn:E.
  - apply existsb_has_hash in E.
    destruct (rows_for_unique h (rows t) U E) as (row & -> & _). simpl. lia.
  - rewrite rows_for_absent; [simpl; lia|].
    intros I. apply existsb_has_hash in I. congruence.
Qed.

(** X16.  [invalidate] with a non-empty query deletes the row under its
    key and nothing else: it returns the number of rows deleted, 0 or 1 on
    a well-formed table, and afterwards a lookup of any spelling with the
    same normal form misses, at any time.  With [None], and also with the
    empty string, it deletes every row and returns their number.  The
    largest rowid handed out is kept, so ids are not reused. *)
Theorem invalidate_forgets_every_spelling ttl_hours t q :
  wf t -> q <> "" ->
  let h := _hash_query q in
  let n := fst (invalidate t (Some q)) in
  let t' := snd (invalidate t (Some q)) in
  n = Z.of_nat (List.length (rows_for h t)) /\ 0 <= n <= 1 /\
  rows t' = filter (fun r => negb (has_hash h r)) (rows t) /\
  last_rowid t' = last_rowid t /\
  (forall q' py_now sql_now,
     normalize q' = normalize q ->
     get ttl_hours t' q' py_now sql_now = (None, t')) /\
  invalidate t None = (count t, mkTable [] (last_rowid t)) /\
  invalidate t (Some "") = (count t, mkTable [] (last_rowid t)).
Proof.
  intros W Q h n t'.
  assert (T : PyStr.truthy q = true) by (destruct q; [congruence | reflexivity]).
  assert (E : invalidate t (Some q)
              = (Z.of_nat (List.length (rows t))
                 - Z.of_nat (List.length
                     (filter (fun r => negb (has_hash h r)) (rows t))),
                 mkTable (filter (fun r => negb (has_hash h r)) (rows t))
                         (last_rowid t))).
  { unfold invalidate. now rewrite T. }
  subst n t'. rewrite E. cbn [fst snd rows last_rowid].
  pose proof (filter_length (has_hash h) (rows t)) as L.
  pose proof (length_rows_for h t W) as L1. unfold rows_for in *.
  split; [lia|]. split; [lia|]. split; [reflexivity|]. split; [reflexivity|].
  split; [| split].
  - intros q' py_now sql_now N. apply get_expired_miss.
    intros row I H. exfalso. cbn [rows] in I. apply filter_In in I as (_ & I).
    apply negb_true_iff in I. rewrite (hash_of_normalize _ _ N) in H.
    apply has_hash_true in H. fold h in H. congruence.
  - unfold invalidate, count. cbn [List.length]. f_equal. lia.
  - unfold invalidate, count. cbn [PyStr.truthy List.length]. f_equal. lia.
Qed.

End CacheFacts.

(** ** Who reads the clocks *)

Module ClockFacts.
Import Eff EffFacts LLMClient AgentSpec.

















End ClockFacts.

(** ** The chat handler *)

Module HandlerFacts.
Import Eff EffFacts LLMClient LLMClientFacts AgentFacts.








End HandlerFacts.

(** ** More on the embedding adapters *)

Module AdapterFacts.
Import Eff EffFacts EmbeddingSpec.

Lemma count_backoff left attempt text tr :
  List.length (filter is_embed (backoff_trace left attempt text tr))
  = (left + List.length (filter is_embed tr))%nat.
Proof.
  revert attempt tr. induction left as [| left IH]; intros attempt tr;
    cbn [backoff_trace]; [reflexivity|].
  rewrite IH. cbn [filter is_embed List.length]. lia.
Qed.

(** [k] rate-limited attempts and then an answer. *)
Lemma embed_loop_recovers env text v :
  forall k left attempt w,
    (k < left)%nat ->
    (forall i, (i < k)%nat ->
       exists e, embed_provider env (count_events is_embed w + i) text = Raise e /\
                 is_rate_limit e = true) ->
    embed_provider env (count_events is_embed w + k) text = Ok v ->
    GeminiEmbeddingFunction.embed_loop env left attempt text w =
    (Ok (Some v),
     push (EvEmbed text) (with_trace (backoff_trace k attempt text (trace w)) w)).
Proof.
  induction k as [| k IH]; intros left attempt w L Fail Good.
  - destruct left as [| left]; [lia|].
    cbn [GeminiEmbeddingFunction.embed_loop backoff_trace].
    unfold try_except, bind, call_embed. rewrite Nat.add_0_r in Good.
    rewrite Good. destruct w; reflexivity.
  - destruct left as [| left]; [lia|].
    cbn [GeminiEmbeddingFunction.embed_loop backoff_trace].
    unfold try_except at 1, bind at 1, call_embed at 1.
    destruct (Fail 0%nat ltac:(lia)) as (e & P & R).
    rewrite Nat.add_0_r in P. rewrite P, R.
    unfold bind at 1, sleep, emit.
    rewrite (IH left (attempt + 1)
               (push (EvSleep (30 * (attempt + 1))) (push (EvEmbed text) w))).
    + reflexivity.
    + lia.
    + intros i Hi. destruct (Fail (S i) ltac:(lia)) as (e' & P' & R').
      exists e'. split; [| exact R'].
      replace (count_events is_embed
                 (push (EvSleep (30 * (attempt + 1))) (push (EvEmbed text) w)) + i)%nat
        with (count_events is_embed w + S i)%nat; [exact P'|].
      unfold count_events. cbn [trace push filter is_embed List.length]. lia.
    + replace (count_events is_embed
                 (push (EvSleep (30 * (attempt + 1))) (push (EvEmbed text) w)) + k)%nat
        with (count_events is_embed w + S k)%nat; [exact Good|].
      unfold count_events. cbn [trace push filter is_embed List.length]. lia.
Qed.

(** X19.  A text that the provider throttles [k <= 4] times in a row and
    then embeds gets its vector from [_embed_with_retry]: the adapter
    sends [k + 1] requests, sleeps [30 * i] seconds after the [i]-th
    throttled one, and does not sleep after the answer. *)
Theorem throttled_texts_are_embedded_in_the_end env text v k w :
  (k <= 4)%nat ->
  (forall i, (i < k)%nat ->
     exists e, embed_provider env (count_events is_embed w + i) text = Raise e /\
               is_rate_limit e = true) ->
  embed_provider env (count_events is_embed w + k) text = Ok v ->
  let w' := push (EvEmbed text) (with_trace (backoff_trace k 0 text (trace w)) w) in
  GeminiEmbeddingFunction._embed_with_retry env text 5 w = (Ok (Some v), w') /\
  count_events is_embed w' = (count_events is_embed w + k + 1)%nat /\
  sleeps (trace w')
  = (rev (map (fun i => 30 * Z.of_nat i) (seq 1 k)) ++ sleeps (trace w))%list.
Proof.
  intros K Fail Good w'.
  split; [| split].
  - unfold GeminiEmbeddingFunction._embed_with_retry.
    apply embed_loop_recovers; [lia | exact Fail | exact Good].
  - subst w'. unfold count_events at 1. cbn [trace push filter is_embed List.length].
    change (trace (with_trace ?tr w)) with tr.
    rewrite count_backoff. unfold count_events. lia.
  - subst w'. cbn [trace push sleeps].
    change (trace (with_trace ?tr w)) with tr.
    assert (G : forall n a tr,
               sleeps (backoff_trace n (Z.of_nat a) text tr)
               = (rev (map (fun i => 30 * Z.of_nat i) (seq (S a) n)) ++ sleeps tr)%list).
    { induction n as [| n IH]; intros a tr; cbn [backoff_trace seq map rev];
        [reflexivity|].
      replace (Z.of_nat a + 1) with (Z.of_nat (S a)) by lia.
      rewrite IH. cbn [sleeps]. rewrite <- app_assoc. reflexivity. }
    apply (G k 0%nat).
Qed.





End AdapterFacts.

(** ** Batches *)

Module BatchFacts.
Import Eff EffFacts EmbeddingFacts Batches.

Lemma str_of_nat_inj n m : str_of_nat n = str_of_nat m -> n = m.
Proof.
  unfold str_of_nat. intros E.
  assert (U : Nat.to_uint n = Nat.to_uint m).
  { pose proof (NilEmpty.usu (Nat.to_uint n)) as A.
    pose proof (NilEmpty.usu (Nat.to_uint m)) as B.
    rewrite E in A. congruence. }
  rewrite <- (Unsigned.of_to n), <- (Unsigned.of_to m). now rewrite U.
Qed.

Lemma doc_ids_length n : List.length (doc_ids n) = n.
Proof. unfold doc_ids. now rewrite length_map, length_seq. Qed.

Lemma doc_ids_nth n i :
  (i < n)%nat -> nth_error (doc_ids n) i = Some ("doc_" ++ str_of_nat i).
Proof.
  intros L. unfold doc_ids. rewrite nth_error_map.
  rewrite nth_error_nth' with (d := 0%nat) by (rewrite length_seq; exact L).
  rewrite seq_nth by exact L. reflexivity.
Qed.

Lemma NoDup_map_of_inj {A B} (f : A -> B) (l : list A) :
  (forall a b, f a = f b -> a = b) -> NoDup l -> NoDup (map f l).
Proof.
  intros I. induction 1 as [| x l N ND IH]; cbn [map]; constructor; [| exact IH].
  intros H. apply in_map_iff in H as (y & E & Hy). apply I in E. now subst.
Qed.

Lemma doc_ids_NoDup n : NoDup (doc_ids n).
Proof.
  unfold doc_ids. apply NoDup_map_of_inj; [| apply seq_NoDup].
  intros a b E. apply str_of_nat_inj.
  injection E as E. exact E.
Qed.

Lemma slices_concat {A} size (l : list A) :
  (1 <= size)%nat ->
  forall fuel, (List.length l <= fuel)%nat -> List.concat (slices fuel size l) = l.
Proof.
  intros S1 fuel. revert l. induction fuel as [| fuel IH]; intros l L.
  - destruct l; [reflexivity | simpl in L; lia].
  - destruct l as [| x l]; [reflexivity|].
    cbn [slices List.concat]. rewrite IH; [apply firstn_skipn|].
    rewrite length_skipn. cbn [List.length] in *. lia.
Qed.

Lemma slices_bounds {A} size (l : list A) :
  (1 <= size)%nat ->
  forall fuel,
    Forall (fun b => (1 <= List.length b <= size)%nat) (slices fuel size l).
Proof.
  intros S1 fuel. revert l. induction fuel as [| fuel IH]; intros l.
  - constructor.
  - destruct l as [| x l]; [constructor|].
    cbn [slices]. constructor; [| apply IH].
    rewrite length_firstn. cbn [List.length]. lia.
Qed.

Lemma ceil_step n size :
  (1 <= size)%nat -> (1 <= n)%nat ->
  ((n + size - 1) / size = S ((n - size + size - 1) / size))%nat.
Proof.
  intros S1 N1. destruct (Nat.le_gt_cases n size) as [L | G].
  - replace (n - size)%nat with 0%nat by lia.
    rewrite (Nat.div_small (0 + size - 1) size) by lia.
    replace (n + size - 1)%nat with ((n - 1) + 1 * size)%nat by lia.
    rewrite Nat.div_add by lia. rewrite Nat.div_small by lia. reflexivity.
  - replace (n + size - 1)%nat with ((n - size + size - 1) + 1 * size)%nat by lia.
    rewrite Nat.div_add by lia. lia.
Qed.

Lemma slices_count {A} size (l : list A) :
  (1 <= size)%nat ->
  forall fuel, (List.length l <= fuel)%nat ->
    List.length (slices fuel size l) = ((List.length l + size - 1) / size)%nat.
Proof.
  intros S1 fuel. revert l. induction fuel as [| fuel IH]; intros l L.
  - destruct l; [| simpl in L; lia]. cbn [slices List.length].
    rewrite Nat.div_small by lia. reflexivity.
  - destruct l as [| x l].
    + cbn [slices List.length]. rewrite Nat.div_small by lia. reflexivity.
    + cbn [slices].
      change (List.length (firstn size (x :: l) :: slices fuel size (skipn size (x :: l))))
        with (S (List.length (slices fuel size (skipn size (x :: l))))).
      rewrite IH by (rewrite length_skipn; cbn [List.length] in *; lia).
      rewrite length_skipn.
      symmetry. apply ceil_step; [exact S1 | cbn [List.length]; lia].
Qed.

(** Embedding a list is embedding its front and then its back. *)
Lemma call_app env a b w :
  GeminiEmbeddings.call env (a ++ b) w =
  (va <- GeminiEmbeddings.call env a ;;
   vb <- GeminiEmbeddings.call env b ;;
   ret (va ++ vb)%list) w.
Proof.
  revert w. induction a as [| text a IH]; intros w.
  - cbn [app GeminiEmbeddings.call]. unfold bind at 1, ret at 1.
    destruct (embeddings_call_spec env b w) as (vs & w' & E & _).
    rewrite (bind_ok _ _ _ _ _ E). exact E.
  - assert (Hfirst : exists v,
              try_except (call_embed env text)
                (fun _ => ret GeminiEmbeddings.zero_vector) w
              = (Ok v, push (EvEmbed text) w)).
    { unfold try_except, call_embed.
      destruct (embed_provider env _ text); eexists; reflexivity. }
    destruct Hfirst as (v & E1).
    destruct (embeddings_call_spec env a (push (EvEmbed text) w))
      as (va & w1 & Ea & _).
    destruct (embeddings_call_spec env b w1) as (vb & w2 & Eb & _).
    assert (Eab : GeminiEmbeddings.call env (a ++ b) (push (EvEmbed text) w)
                  = (Ok (va ++ vb)%list, w2)).
    { rewrite IH, (bind_ok _ _ _ _ _ Ea), (bind_ok _ _ _ _ _ Eb). reflexivity. }
    assert (Eta : GeminiEmbeddings.call env (text :: a) w = (Ok (v :: va), w1)).
    { cbn [GeminiEmbeddings.call].
      rewrite (bind_ok _ _ _ _ _ E1), (bind_ok _ _ _ _ _ Ea). reflexivity. }
    transitivity (@Ok (list (list Q)) (v :: va ++ vb)%list, w2).
    + change ((text :: a) ++ b)%list with (text :: (a ++ b))%list.
      cbn [GeminiEmbeddings.call].
      rewrite (bind_ok _ _ _ _ _ E1), (bind_ok _ _ _ _ _ Eab). reflexivity.
    + symmetry. rewrite (bind_ok _ _ _ _ _ Eta), (bind_ok _ _ _ _ _ Eb).
      reflexivity.
Qed.

Lemma embed_batches_slices env size :
  (1 <= size)%nat ->
  forall fuel texts w,
    (List.length texts <= fuel)%nat ->
    GeminiEmbeddingsBatch.embed_batches env (slices fuel size texts) w
    = GeminiEmbeddings.call env texts w.
Proof.
  intros S1. induction fuel as [| fuel IH]; intros texts w L.
  - destruct texts; [reflexivity | simpl in L; lia].
  - destruct texts as [| x texts]; [reflexivity|].
    cbn [slices GeminiEmbeddingsBatch.embed_batches].
    set (l := x :: texts) in *.
    transitivity (GeminiEmbeddings.call env (firstn size l ++ skipn size l) w);
      [| now rewrite firstn_skipn].
    rewrite call_app.
    destruct (embeddings_call_spec env (firstn size l) w) as (va & w1 & Ea & _).
    rewrite !(bind_ok _ _ _ _ _ Ea).
    unfold bind. rewrite IH; [reflexivity|].
    rewrite length_skipn. subst l. cbn [List.length] in *. lia.
Qed.

(** X21.  [batch_embed] with a batch size of at least one gives what a
    single [__call__] on the whole list gives: the same vectors in the
    same order, after the same requests, whatever the batch size.  With a
    batch size of zero it raises the ValueError of [range] before any
    request; with a negative one it sends nothing and returns the empty
    list, dropping every text. *)
Theorem batching_does_not_change_the_embeddings env texts batch_size w :
  (1 <= batch_size ->
   GeminiEmbeddingsBatch.batch_embed env texts batch_size w
   = GeminiEmbeddings.call env texts w) /\
  (batch_size = 0 ->
   GeminiEmbeddingsBatch.batch_embed env texts batch_size w
   = (Raise "range() arg 3 must not be zero", w)) /\
  (batch_size < 0 ->
   GeminiEmbeddingsBatch.batch_embed env texts batch_size w = (Ok [], w)).
Proof.
  unfold GeminiEmbeddingsBatch.batch_embed, py_slices.
  split; [| split]; intros B.
  - destruct (Z.eqb_spec batch_size 0); [lia|].
    destruct (Z.ltb_spec batch_size 0); [lia|].
    apply embed_batches_slices; lia.
  - subst. reflexivity.
  - destruct (Z.eqb_spec batch_size 0); [lia|].
    destruct (Z.ltb_spec batch_size 0); [reflexivity | lia].
Qed.

Lemma add_calls_documents fuel documents ids metadatas :
  map VectorStoreIngest.add_documents_of
      (VectorStoreIngest.add_calls fuel documents ids metadatas)
  = slices fuel VectorStoreIngest.batch_size documents.
Proof.
  revert documents ids metadatas.
  induction fuel as [| fuel IH]; intros documents ids metadatas; [reflexivity|].
  destruct documents as [| d documents]; [reflexivity|].
  cbn [VectorStoreIngest.add_calls slices map VectorStoreIngest.add_documents_of].
  now rewrite IH.
Qed.

Lemma add_calls_ids fuel documents ids metadatas :
  List.length ids = List.length documents ->
  map VectorStoreIngest.add_ids_of
      (VectorStoreIngest.add_calls fuel documents ids metadatas)
  = slices fuel VectorStoreIngest.batch_size ids.
Proof.
  revert documents ids metadatas.
  induction fuel as [| fuel IH]; intros documents ids metadatas L; [reflexivity|].
  destruct documents as [| d documents], ids as [| i ids]; try discriminate L;
    [reflexivity|].
  cbn [VectorStoreIngest.add_calls slices map VectorStoreIngest.add_ids_of].
  rewrite IH; [reflexivity|]. now rewrite !length_skipn, L.
Qed.

Lemma add_calls_metadatas fuel documents ids metadatas :
  List.length metadatas = List.length documents ->
  map VectorStoreIngest.add_metadatas_of
      (VectorStoreIngest.add_calls fuel documents ids metadatas)
  = slices fuel VectorStoreIngest.batch_size metadatas.
Proof.
  revert documents ids metadatas.
  induction fuel as [| fuel IH]; intros documents ids metadatas L; [reflexivity|].
  destruct documents as [| d documents], metadatas as [| m metadatas];
    try discriminate L; [reflexivity|].
  cbn [VectorStoreIngest.add_calls slices map VectorStoreIngest.add_metadatas_of].
  rewrite IH; [reflexivity|]. now rewrite !length_skipn, L.
Qed.

Lemma add_calls_aligned fuel documents ids metadatas :
  List.length ids = List.length documents ->
  List.length metadatas = List.length documents ->
  Forall (fun c =>
            (1 <= List.length (VectorStoreIngest.add_documents_of c) <= 100)%nat /\
            List.length (VectorStoreIngest.add_ids_of c)
            = List.length (VectorStoreIngest.add_documents_of c) /\
            List.length (VectorStoreIngest.add_metadatas_of c)
            = List.length (VectorStoreIngest.add_documents_of c))
         (VectorStoreIngest.add_calls fuel documents ids metadatas).
Proof.
  revert documents ids metadatas.
  induction fuel as [| fuel IH]; intros documents ids metadatas Li Lm; [constructor|].
  destruct documents as [| d documents]; [constructor|].
  cbn [VectorStoreIngest.add_calls]. constructor.
  - cbn [VectorStoreIngest.add_documents_of VectorStoreIngest.add_ids_of
         VectorStoreIngest.add_metadatas_of].
    rewrite !length_firstn, Li, Lm. unfold VectorStoreIngest.batch_size.
    cbn [List.length]. lia.
  - apply IH; now rewrite !length_skipn, ?Li, ?Lm.
Qed.

(** X22.  [VectorStore.add_documents], when the ids and the metadata are
    omitted or as many as the documents: the calls of [collection.add]
    carry every document, id and metadata dict exactly once and in order;
    each call has between 1 and 100 documents with as many ids and
    metadata dicts; there are [ceil (n / 100)] calls, so none for an empty
    list.  The default ids are [doc_0], [doc_1], ... by position, pairwise
    different. *)
Theorem add_documents_sends_everything_once documents ids metadatas :
  match ids with
  | Some l => List.length l = List.length documents
  | None => True
  end ->
  match metadatas with
  | Some l => List.length l = List.length documents
  | None => True
  end ->
  let calls := VectorStoreIngest.add_documents documents ids metadatas in
  let sent_ids := List.concat (map VectorStoreIngest.add_ids_of calls) in
  List.concat (map VectorStoreIngest.add_documents_of calls) = documents /\
  sent_ids = match ids with
             | Some l => l
             | None => doc_ids (List.length documents)
             end /\
  List.concat (map VectorStoreIngest.add_metadatas_of calls)
  = match metadatas with
    | Some l => l
    | None => map (fun _ => Eff.mkMeta (Some "unknown") None None) documents
    end /\
  Forall (fun c =>
            (1 <= List.length (VectorStoreIngest.add_documents_of c) <= 100)%nat /\
            List.length (VectorStoreIngest.add_ids_of c)
            = List.length (VectorStoreIngest.add_documents_of c) /\
            List.length (VectorStoreIngest.add_metadatas_of c)
            = List.length (VectorStoreIngest.add_documents_of c)) calls /\
  List.length calls = ((List.length documents + 99) / 100)%nat /\
  (ids = None ->
   NoDup sent_ids /\
   forall i, (i < List.length documents)%nat ->
     nth_error sent_ids i = Some ("doc_" ++ str_of_nat i)).
Proof.
  intros Hi Hm calls sent_ids.
  set (ids' := match ids with
               | Some l => l
               | None => doc_ids (List.length documents)
               end).
  set (metas' := match metadatas with
                 | Some l => l
                 | None => map (fun _ => Eff.mkMeta (Some "unknown") None None) documents
                 end).
  assert (Li : List.length ids' = List.length documents).
  { subst ids'. destruct ids; [exact Hi | apply doc_ids_length]. }
  assert (Lm : List.length metas' = List.length documents).
  { subst metas'. destruct metadatas; [exact Hm | apply length_map]. }
  assert (S1 : (1 <= VectorStoreIngest.batch_size)%nat)
    by (unfold VectorStoreIngest.batch_size; lia).
  assert (Ei : sent_ids = ids').
  { subst sent_ids calls. unfold VectorStoreIngest.add_documents. fold ids' metas'.
    rewrite add_calls_ids by exact Li. apply slices_concat; [exact S1 | lia]. }
  split; [| split; [exact Ei | split; [| split; [| split]]]].
  - subst calls. unfold VectorStoreIngest.add_documents.
    rewrite add_calls_documents. apply slices_concat; [exact S1 | lia].
  - subst calls. unfold VectorStoreIngest.add_documents. fold ids' metas'.
    rewrite add_calls_metadatas by exact Lm. apply slices_concat; [exact S1 | lia].
  - subst calls. unfold VectorStoreIngest.add_documents.
    now apply add_calls_aligned.
  - subst calls. unfold VectorStoreIngest.add_documents.
    rewrite <- (length_map VectorStoreIngest.add_documents_of), add_calls_documents.
    rewrite slices_count by (exact S1 || lia).
    unfold VectorStoreIngest.batch_size. f_equal. lia.
  - intros N. rewrite Ei. subst ids'. rewrite N.
    split; [apply doc_ids_NoDup | apply doc_ids_nth].
Qed.

Lemma steps_nil fuel ids : LoadDocument.steps fuel [] ids = [].
Proof. destruct fuel; reflexivity. Qed.

Lemma steps_interspersed fuel :
  forall documents ids,
    (List.length documents <= fuel)%nat ->
    let run := LoadDocument.steps fuel documents ids in
    run = intersperse (LoadDocument.Wait 60)
            (map (fun b => LoadDocument.Add (fst b) (snd b)) (LoadDocument.added run)) /\
    (documents <> [] -> LoadDocument.added run <> []).
Proof.
  induction fuel as [| fuel IH]; intros documents ids L run.
  - destruct documents; [| simpl in L; lia]. split; [reflexivity | congruence].
  - destruct documents as [| d documents]; [split; [reflexivity | congruence]|].
    subst run. cbn [LoadDocument.steps].
    set (rest := LoadDocument.steps fuel
                   (skipn LoadDocument.BATCH_SIZE (d :: documents))
                   (skipn LoadDocument.BATCH_SIZE ids)).
    destruct (IH (skipn LoadDocument.BATCH_SIZE (d :: documents))
                 (skipn LoadDocument.BATCH_SIZE ids)) as (E & NE).
    { rewrite length_skipn. cbn [List.length] in *.
      unfold LoadDocument.BATCH_SIZE. lia. }
    fold rest in E, NE.
    split; [| cbn [app LoadDocument.added]; discriminate].
    destruct (Nat.ltb_spec LoadDocument.BATCH_SIZE (List.length (d :: documents)))
      as [More | Last].
    + cbn [app LoadDocument.added map fst snd].
      destruct (LoadDocument.added rest) as [| p ps] eqn:A.
      * exfalso. apply NE; [| reflexivity].
        intros Z. apply (f_equal (@List.length string)) in Z.
        rewrite length_skipn in Z. cbn [List.length] in *.
        unfold LoadDocument.BATCH_SIZE in *. lia.
      * rewrite E at 1. reflexivity.
    + assert (Z : skipn LoadDocument.BATCH_SIZE (d :: documents) = []).
      { apply skipn_all2. exact Last. }
      subst rest. rewrite Z, steps_nil. reflexivity.
Qed.

Lemma steps_added fuel documents ids :
  List.length ids = List.length documents ->
  map fst (LoadDocument.added (LoadDocument.steps fuel documents ids))
  = slices fuel LoadDocument.BATCH_SIZE documents /\
  map snd (LoadDocument.added (LoadDocument.steps fuel documents ids))
  = slices fuel LoadDocument.BATCH_SIZE ids.
Proof.
  revert documents ids.
  induction fuel as [| fuel IH]; intros documents ids L; [split; reflexivity|].
  destruct documents as [| d documents], ids as [| i ids]; try discriminate L;
    [split; reflexivity|].
  cbn [LoadDocument.steps slices].
  destruct (IH (skipn LoadDocument.BATCH_SIZE (d :: documents))
               (skipn LoadDocument.BATCH_SIZE (i :: ids))) as (E1 & E2).
  { now rewrite !length_skipn, L. }
  destruct (_ <? _)%nat; cbn [app LoadDocument.added map fst snd];
    rewrite E1, E2; split; reflexivity.
Qed.

(** X23.  The loop of [load_documents] over [n] chunks: it adds them all,
    once and in order, in batches of 1 to 50 with the ids [doc_0] ...
    [doc_(n-1)] by position, and it sleeps 60 seconds between two batches
    and nowhere else: not before the first batch, not after the last one,
    so not at all for 50 chunks or fewer. *)
Theorem load_documents_sleeps_between_batches_only documents :
  let run := LoadDocument.load_documents documents in
  let batches := LoadDocument.added run in
  run = intersperse (LoadDocument.Wait 60)
          (map (fun b => LoadDocument.Add (fst b) (snd b)) batches) /\
  List.concat (map fst batches) = documents /\
  List.concat (map snd batches) = doc_ids (List.length documents) /\
  Forall (fun b => (1 <= List.length b <= 50)%nat) (map fst batches) /\
  List.length batches = ((List.length documents + 49) / 50)%nat /\
  ((List.length documents <= 50)%nat ->
   forall s, ~ In (LoadDocument.Wait s) run).
Proof.
  intros run batches.
  assert (S1 : (1 <= LoadDocument.BATCH_SIZE)%nat)
    by (unfold LoadDocument.BATCH_SIZE; lia).
  destruct (steps_added (List.length documents) documents
              (doc_ids (List.length documents)) (doc_ids_length _)) as (E1 & E2).
  fold (LoadDocument.load_documents documents) in E1, E2. fold run in E1, E2.
  fold batches in E1, E2.
  destruct (steps_interspersed (List.length documents) documents
              (doc_ids (List.length documents)) (Nat.le_refl _)) as (I & _).
  fold (LoadDocument.load_documents documents) in I. fold run in I. fold batches in I.
  split; [exact I|].
  split; [rewrite E1; apply slices_concat; [exact S1 | lia]|].
  split; [rewrite E2; apply slices_concat; [exact S1 | rewrite doc_ids_length; lia]|].
  split; [rewrite E1; now apply slices_bounds|].
  split.
  - rewrite <- (length_map fst), E1, slices_count by (exact S1 || lia).
    unfold LoadDocument.BATCH_SIZE. f_equal. lia.
  - intros Small s H.
    assert (B : (List.length batches <= 1)%nat).
    { rewrite <- (length_map fst), E1, slices_count by (exact S1 || lia).
      unfold LoadDocument.BATCH_SIZE.
      destruct documents as [| d documents]; [cbn; lia|].
      replace (List.length (d :: documents) + 50 - 1)%nat
        with ((List.length (d :: documents) - 1) + 1 * 50)%nat
        by (cbn [List.length]; lia).
      rewrite Nat.div_add by lia. rewrite Nat.div_small; [lia|]. lia. }
    rewrite I in H. destruct batches as [| b [| b2 bs]];
      [destruct H | destruct H as [H | []]; discriminate H | cbn in B; lia].
Qed.

End BatchFacts.

(** ** Accounts *)

Module AccountFacts.
Import DatabaseOperations AppAuth.

Lemma named_true name u : named name u = true <-> username u = name.
Proof. unfold named. apply String.eqb_eq. Qed.

Lemma existsb_named name rs :
  existsb (named name) rs = true <-> In name (map username rs).
Proof.
  rewrite existsb_exists, in_map_iff. split.
  - intros (u & I & N). exists u. split; [now apply named_true | exact I].
  - intros (u & N & I). exists u. split; [exact I | now apply named_true].
Qed.

Lemma find_new_row (p : User -> bool) rs u :
  (forall x, In x rs -> p x = false) -> p u = true ->
  find p (rs ++ [u]) = Some u.
Proof.
  intros No Yes. induction rs as [| x rs IH]; cbn [app find].
  - now rewrite Yes.
  - rewrite (No x) by now left. apply IH. intros y I. apply No. now right.
Qed.

Lemma find_none_new_row (p : User -> bool) rs u :
  (forall x, In x rs -> p x = false) -> p u = false ->
  find p (rs ++ [u]) = None.
Proof.
  intros No N. induction rs as [| x rs IH]; cbn [app find].
  - now rewrite N.
  - rewrite (No x) by now left. apply IH. intros y I. apply No. now right.
Qed.

Lemma absent_rows name rs :
  existsb (named name) rs = false -> forall x, In x rs -> named name x = false.
Proof.
  intros A x I. destruct (named name x) eqn:N; [| reflexivity].
  assert (existsb (named name) rs = true) by (apply existsb_exists; eauto).
  congruence.
Qed.

(** X24.  Registration and login.  Registering a free user name succeeds
    and creates a student account.  After it, [login] with the same
    password succeeds: the session state gets the account (role
    [student]) and an orchestrator for the visitor's session id and that
    user name, and the chat history is kept; [login] with any other
    password fails and leaves the session state and the table as they
    were; registering the name again fails and leaves the table as it
    was, so the first password stays the valid one. *)
Theorem a_registered_user_can_log_in t name pass now st wrong other later :
  existsb (named name) (rows t) = false ->
  wrong <> pass ->
  let t1 := snd (register t name pass now) in
  fst (register t name pass now) = true /\
  (exists account t2,
     login st t1 name pass later
     = (true,
        mkVisit (visit_session_id st) (Some account) (visit_chat_history st)
          (Some (AgentOrchestrator.mk (visit_session_id st) (Some name))),
        t2) /\
     account_username account = name /\ account_role account = "student" /\
     account_id account = last_rowid t + 1 /\
     get_user t2 name
     = Some (mkProfile (last_rowid t + 1) name "student" None now (Some later))) /\
  login st t1 name wrong later = (false, st, t1) /\
  register t1 name other later = (false, t1).
Proof.
  intros A Wrong t1.
  assert (R : register t name pass now
              = (true, mkTable (rows t ++ [mkUser (last_rowid t + 1) name pass
                                             "student" None now None])
                               (last_rowid t + 1))).
  { unfold register, create_user. now rewrite A. }
  subst t1. rewrite R. cbn [fst snd].
  set (u := mkUser (last_rowid t + 1) name pass "student" None now None).
  pose proof (absent_rows _ _ A) as No.
  assert (Nu : named name u = true) by (apply named_true; reflexivity).
  split; [reflexivity|]. split; [| split].
  - unfold login, authenticate_user. cbn [rows last_rowid].
    rewrite (find_new_row _ (rows t) u).
    + eexists _, _. split; [reflexivity|]. cbn [account_username account_role
        account_id u username role id].
      repeat split. unfold get_user. cbn [rows].
      unfold update_named. rewrite map_app. cbn [map]. rewrite Nu.
      rewrite (find_new_row (named name)).
      * reflexivity.
      * intros x I. apply in_map_iff in I as (y & <- & I).
        pose proof (No y I) as N. rewrite N. exact N.
      * exact Nu.
    + intros x I. now rewrite (No x I).
    + rewrite Nu. cbn [u password]. now rewrite String.eqb_refl.
  - unfold login, authenticate_user. cbn [rows last_rowid].
    rewrite (find_none_new_row _ (rows t) u); [reflexivity | |].
    + intros x I. now rewrite (No x I).
    + rewrite Nu. cbn [u password andb].
      apply String.eqb_neq. congruence.
  - unfold register, create_user. cbn [rows].
    rewrite existsb_app. cbn [existsb]. rewrite Nu, orb_true_r. reflexivity.
Qed.

Lemma map_id_update_named name f rs :
  (forall u, id (f u) = id u) -> map id (update_named name f rs) = map id rs.
Proof.
  intros H. unfold update_named. rewrite map_map. apply map_ext.
  intros u. destruct (named name u); [apply H | reflexivity].
Qed.

Lemma map_username_update_named name f rs :
  (forall u, username (f u) = username u) ->
  map username (update_named name f rs) = map username rs.
Proof.
  intros H. unfold update_named. rewrite map_map. apply map_ext.
  intros u. destruct (named name u); [apply H | reflexivity].
Qed.

Lemma wf_update_named name f t :
  (forall u, id (f u) = id u) -> (forall u, username (f u) = username u) ->
  wf t -> wf (mkTable (update_named name f (rows t)) (last_rowid t)).
Proof.
  intros Hi Hn (A & B & C). unfold wf. cbn [rows last_rowid].
  rewrite map_id_update_named, map_username_update_named by assumption.
  split; [exact A|]. split; [| exact C].
  unfold update_named. apply Forall_map. eapply Forall_impl; [| exact B].
  intros u H. cbn beta. destruct (named name u); [now rewrite Hi | exact H].
Qed.

Lemma users_step_keeps_keys t op : wf t -> wf (step t op).
Proof.
  intros W. destruct op as [n p r e now | n p now | n r]; cbn [step].
  - unfold create_user. destruct (existsb (named n) (rows t)) eqn:E; [exact W|].
    destruct W as (A & B & C). unfold wf. cbn [snd rows last_rowid].
    rewrite !map_app. cbn [map id username].
    split; [| split].
    + apply NoDup_app; [exact A | repeat constructor; intros [] |].
      intros x I [<- | []]. apply in_map_iff in I as (u & E' & I).
      rewrite Forall_forall in B. specialize (B u I). lia.
    + apply Forall_app. split.
      * eapply Forall_impl; [| exact B]. intros u H. cbn beta in *. lia.
      * repeat constructor. cbn [id]. lia.
    + apply NoDup_app; [exact C | repeat constructor; intros [] |].
      intros x I [<- | []]. apply existsb_named in I. congruence.
  - unfold authenticate_user. destruct (find _ _); [| exact W].
    cbn [snd]. now apply wf_update_named.
  - cbn [update_user_role snd]. now apply wf_update_named.
Qed.

(** X25.  The users table keeps its keys: after any sequence of
    [create_user], [authenticate_user] and [update_user_role] on an empty
    table, the ids are pairwise different and so are the user names.
    [update_user_role] answers whether the user exists; for an unknown
    user it leaves every row as it was, and for a known one the profile
    shows the new role afterwards while the user name, the id and the
    validity of the password are untouched. *)
Theorem user_names_stay_unique ops :
  let t := run ops empty in
  NoDup (map id (rows t)) /\ NoDup (map username (rows t)) /\
  (forall name role_,
     existsb (named name) (rows t) = false ->
     update_user_role t name role_ = (false, t)) /\
  (forall name role_ u,
     find (named name) (rows t) = Some u ->
     let t' := snd (update_user_role t name role_) in
     fst (update_user_role t name role_) = true /\
     get_user t' name
     = Some (mkProfile (id u) (username u) role_ (email u) (created_at u)
               (last_login u)) /\
     forall pass now,
       fst (authenticate_user t' name pass now) <> None <->
       fst (authenticate_user t name pass now) <> None).
Proof.
  intros t.
  assert (W : wf t).
  { subst t. unfold run.
    assert (G : forall l t0, wf t0 -> wf (fold_left step l t0)).
    { induction l as [| op l IH]; intros t0 W0; [exact W0|].
      cbn [fold_left]. apply IH. now apply users_step_keeps_keys. }
    apply G. repeat split; constructor. }
  destruct W as (A & B & C).
  split; [exact A|]. split; [exact C|]. split.
  - intros name role_ E. unfold update_user_role. rewrite E. f_equal.
    destruct t as [rs lr]. cbn [rows last_rowid] in *. f_equal.
    unfold update_named. rewrite <- (map_id rs) at 2. apply map_ext_in.
    intros u I. now rewrite (AccountFacts.absent_rows name rs E u I).
  - intros name role_ u F t'. subst t'. cbn [update_user_role fst snd].
    apply find_some in F as F'. destruct F' as (I & N).
    split; [apply existsb_exists; eauto|]. split.
    + unfold get_user. cbn [rows]. unfold update_named.
      assert (G : forall rs,
                 find (named name) rs = Some u ->
                 find (named name)
                   (map (fun x => if named name x then with_role role_ x else x) rs)
                 = Some (with_role role_ u)).
      { induction rs as [| x rs IH]; cbn [find map]; [discriminate|].
        destruct (named name x) eqn:Nx.
        - intros E. injection E as ->.
          change (named name (with_role role_ u)) with (named name u).
          now rewrite Nx.
        - rewrite Nx. exact IH. }
      rewrite (G _ F). reflexivity.
    + intros pass now. unfold authenticate_user. cbn [rows].
      set (p := fun x => named name x && String.eqb (password x) pass).
      assert (G : forall rs,
                 find p (update_named name (with_role role_) rs) = None <->
                 find p rs = None).
      { induction rs as [| x rs IH]; cbn [find map update_named]; [tauto|].
        unfold p at 1 3. destruct (named name x) eqn:Nx.
        - change (named name (with_role role_ x)) with (named name x).
          change (password (with_role role_ x)) with (password x).
          rewrite Nx. destruct (String.eqb (password x) pass); cbn [andb];
            [split; discriminate | exact IH].
        - rewrite Nx. cbn [andb]. exact IH. }
      destruct (G (rows t)) as (G1 & G2).
      destruct (find p (update_named name (with_role role_) (rows t))) eqn:E1;
        destruct (find p (rows t)) eqn:E2; cbn [fst]; split; intros H;
        try discriminate;
        try (specialize (G1 eq_refl); discriminate);
        try (specialize (G2 eq_refl); discriminate);
        now destruct H.
Qed.

End AccountFacts.

(** ** Reading the conversations table *)

Module ConversationFacts.
Import ConversationMemory ConversationQueries.

Lemma insert_oldest r l :
  Forall (before r) l ->
  insert_newer_first r l = (l ++ [r])%list.
Proof.
  induction 1 as [| x l (T & I) F IH]; [reflexivity|].
  cbn [insert_newer_first app]. unfold newer.
  destruct (Z.ltb_spec (timestamp x) (timestamp r)); [lia|].
  destruct (Z.eqb_spec (timestamp x) (timestamp r)); cbn [orb andb].
  - destruct (Z.leb_spec (id x) (id r)); [lia|]. now rewrite IH.
  - now rewrite IH.
Qed.

Lemma order_of_chronological l :
  StronglySorted before l -> order_newer_first l = rev l.
Proof.
  induction 1 as [| r l S IH F]; [reflexivity|].
  cbn [order_newer_first rev]. rewrite IH. apply insert_oldest.
  apply Forall_rev. exact F.
Qed.

Lemma StronglySorted_filter {A} (R : A -> A -> Prop) p (l : list A) :
  StronglySorted R l -> StronglySorted R (filter p l).
Proof.
  induction 1 as [| x l S IH F]; cbn [filter]; [constructor|].
  destruct (p x); [| exact IH]. constructor; [exact IH|].
  apply Forall_forall. intros y I. apply filter_In in I as (I & _).
  rewrite Forall_forall in F. now apply F.
Qed.

Lemma session_rows_add_turn m sid sid' q r u i c now :
  session_rows (snd (add_turn m sid q r u i c now)) sid'
  = (session_rows m sid'
     ++ (if String.eqb sid sid'
         then [mkRow (last_rowid m + 1) sid u q r i
                 (match c with
                  | Some ((_ :: _) as l) => PyStr.join "|" l
                  | _ => EmptyString
                  end) now]
         else []))%list.
Proof.
  unfold session_rows, add_turn. cbn [snd rows].
  rewrite filter_app. cbn [filter session_id]. reflexivity.
Qed.

Lemma chronological_history m sid limit :
  chronological m ->
  get_history m sid limit
  = map turn_of (if limit <? 0 then session_rows m sid
                 else skipn (List.length (session_rows m sid) - Z.to_nat limit)
                        (session_rows m sid)).
Proof.
  intros (S & _).
  assert (Sm : StronglySorted before (session_rows m sid))
    by (unfold session_rows; now apply StronglySorted_filter).
  unfold get_history, sql_limit.
  rewrite (order_of_chronological _ Sm).
  destruct (limit <? 0); [now rewrite rev_involutive|].
  now rewrite firstn_rev, rev_involutive.
Qed.

Lemma chronological_add_turn m sid q r u i c now :
  chronological m ->
  Forall (fun x => timestamp x <= now) (rows m) ->
  chronological (snd (add_turn m sid q r u i c now)).
Proof.
  intros (S & B) F. unfold chronological, add_turn. cbn [snd rows last_rowid].
  split.
  - induction S as [| x l S' IH F'].
    + repeat constructor.
    + cbn [app]. inversion F as [| ? ? Fx Fl]; subst.
      inversion B as [| ? ? Bx Bl]; subst.
      constructor; [apply IH; assumption|].
      apply Forall_app. split; [exact F'|].
      repeat constructor; cbn [timestamp id]; lia.
  - apply Forall_app. split.
    + eapply Forall_impl; [| exact B]. intros x H. cbn beta in *. lia.
    + repeat constructor. cbn [id]. lia.
Qed.

(** X26.  [ConversationMemory.get_history] on a table whose rows are in
    the order of their ids with a clock that never ran backwards: it
    returns the last [limit] turns of the session and no others, in the
    order in which they were added, each with its query, response, intent
    and timestamp; with a negative limit it returns them all, with limit 0
    none.  [add_turn] with a clock reading that is not before the last
    timestamp keeps the table in that order, and the history read back
    with a limit of at least one then ends with the turn just added. *)
Theorem get_history_returns_the_last_turns m sid limit :
  chronological m ->
  let mine := session_rows m sid in
  get_history m sid limit
  = map turn_of (if limit <? 0 then mine
                 else skipn (List.length mine - Z.to_nat limit) mine) /\
  (0 <= limit -> Z.of_nat (List.length (get_history m sid limit)) <= limit) /\
  (forall q r u i c now,
     Forall (fun x => timestamp x <= now) (rows m) ->
     let m' := snd (add_turn m sid q r u i c now) in
     chronological m' /\
     (1 <= limit ->
      exists earlier,
        get_history m' sid limit = (earlier ++ [mkTurn q r i now])%list)).
Proof.
  intros C mine.
  pose proof (chronological_history m sid limit C) as E. fold mine in E.
  split; [exact E|]. split.
  - intros L. rewrite E. destruct (Z.ltb_spec limit 0); [lia|].
    rewrite length_map, length_skipn. lia.
  - intros q r u i c now F m'.
    pose proof (chronological_add_turn m sid q r u i c now C F) as C'.
    fold m' in C'. split; [exact C'|].
    intros L. rewrite (chronological_history m' sid limit C').
    subst m'. rewrite session_rows_add_turn, String.eqb_refl. fold mine.
    destruct (Z.ltb_spec limit 0); [lia|].
    rewrite length_app. cbn [List.length].
    rewrite skipn_app.
    replace (List.length mine + 1 - Z.to_nat limit - List.length mine)%nat
      with 0%nat by lia.
    cbn [skipn]. rewrite map_app. cbn [map turn_of query response intent timestamp].
    eexists. reflexivity.
Qed.

Lemma filter_out_then_in sid (l : list Row) :
  filter (fun r => String.eqb (session_id r) sid)
    (filter (fun r => negb (String.eqb (session_id r) sid)) l) = [].
Proof.
  induction l as [| x l IH]; [reflexivity|].
  cbn [filter]. destruct (String.eqb (session_id x) sid) eqn:E; cbn [negb filter];
    [exact IH | now rewrite E].
Qed.

Lemma filter_out_other sid other (l : list Row) :
  other <> sid ->
  filter (fun r => String.eqb (session_id r) other)
    (filter (fun r => negb (String.eqb (session_id r) sid)) l)
  = filter (fun r => String.eqb (session_id r) other) l.
Proof.
  intros N. induction l as [| x l IH]; [reflexivity|].
  cbn [filter]. destruct (String.eqb_spec (session_id x) sid) as [E | E];
    cbn [negb filter].
  - destruct (String.eqb_spec (session_id x) other); [congruence | exact IH].
  - now rewrite IH.
Qed.

(** X27.  [ConversationMemory.clear_session] deletes the rows of the
    session and no others: it returns their number, afterwards the
    session has no row and its history is empty for every limit, and the
    rows and the history of every other session are as before.  The
    largest rowid handed out is kept. *)
Theorem clearing_a_session_spares_the_others m sid :
  let n := fst (clear_session m sid) in
  let m' := snd (clear_session m sid) in
  n = Z.of_nat (List.length (session_rows m sid)) /\
  Z.of_nat (List.length (rows m')) = Z.of_nat (List.length (rows m)) - n /\
  session_rows m' sid = [] /\
  (forall limit, get_history m' sid limit = []) /\
  (forall other, other <> sid ->
     session_rows m' other = session_rows m other /\
     forall limit, get_history m' other limit = get_history m other limit) /\
  last_rowid m' = last_rowid m.
Proof.
  cbv zeta. unfold clear_session. cbn [fst snd].
  assert (Gone : session_rows
                   (mk (filter (fun r => negb (String.eqb (session_id r) sid)) (rows m))
                       (last_rowid m)) sid = [])
    by apply filter_out_then_in.
  assert (Kept : forall other, other <> sid ->
            session_rows
              (mk (filter (fun r => negb (String.eqb (session_id r) sid)) (rows m))
                  (last_rowid m)) other
            = session_rows m other)
    by (intros other N; now apply filter_out_other).
  split; [reflexivity|]. split.
  - cbn [rows]. unfold session_rows.
    pose proof (filter_length (fun r => String.eqb (session_id r) sid) (rows m)). lia.
  - split; [exact Gone|]. split.
    + intros limit. unfold get_history. rewrite Gone. unfold sql_limit.
      destruct (limit <? 0); [reflexivity|]. now rewrite firstn_nil.
    + split; [| reflexivity]. intros other N. split; [now apply Kept|].
      intros limit. unfold get_history. now rewrite Kept.
Qed.

End ConversationFacts.

(** ** The key of the cache *)

Module KeyFacts.
Import AgentSpec FAQCache FAQCacheFacts.




















End KeyFacts.

(** ** The most asked questions *)

Module ReportFacts.
Import FAQCache FAQCacheReports.

Lemma insert_by_hits_perm r l : Permutation (insert_by_hits r l) (r :: l).
Proof.
  induction l as [| x l IH]; cbn [insert_by_hits]; [reflexivity|].
  destruct (hit_count x <=? hit_count r); [reflexivity|].
  rewrite IH. apply perm_swap.
Qed.

Lemma order_by_hits_perm l : Permutation (order_by_hits l) l.
Proof.
  induction l as [| r l IH]; cbn [order_by_hits]; [reflexivity|].
  rewrite insert_by_hits_perm. now constructor.
Qed.

Lemma insert_by_hits_sorted r l :
  StronglySorted (fun a b => hit_count b <= hit_count a) l ->
  StronglySorted (fun a b => hit_count b <= hit_count a) (insert_by_hits r l).
Proof.
  induction 1 as [| x l S IH F]; cbn [insert_by_hits].
  - repeat constructor.
  - destruct (Z.leb_spec (hit_count x) (hit_count r)) as [E | E].
    + constructor; [now constructor|].
      constructor; [exact E|].
      eapply Forall_impl; [| exact F]. intros y H. cbn beta in *. lia.
    + constructor; [exact IH|].
      apply Forall_forall. intros y Hy.
      apply (Permutation_in _ (insert_by_hits_perm r l)) in Hy.
      destruct Hy as [<- | Hy]; [lia|].
      rewrite Forall_forall in F. now apply F.
Qed.

Lemma order_by_hits_sorted l :
  StronglySorted (fun a b => hit_count b <= hit_count a) (order_by_hits l).
Proof.
  induction l as [| r l IH]; cbn [order_by_hits];
    [constructor | now apply insert_by_hits_sorted].
Qed.

Lemma In_front {A} n (l : list A) x : In x (firstn n l) -> In x l.
Proof.
  intros H. rewrite <- (firstn_skipn n l). apply in_or_app. now left.
Qed.

Lemma StronglySorted_firstn {A} (R : A -> A -> Prop) n (l : list A) :
  StronglySorted R l -> StronglySorted R (firstn n l).
Proof.
  intros S. revert n. induction S as [| x l S IH F]; intros [| n];
    cbn [firstn]; try constructor.
  - apply IH.
  - apply Forall_forall. intros y Hy. apply In_front in Hy.
    rewrite Forall_forall in F. now apply F.
Qed.

Lemma preview_short response :
  (String.length response <= 200)%nat -> preview response = response.
Proof.
  intros L. unfold preview, PyStr.len.
  destruct (Z.gtb_spec (Z.of_nat (String.length response)) 200); [lia | reflexivity].
Qed.

Lemma preview_long response :
  (200 < String.length response)%nat ->
  preview response = PyStr.take 200 response ++ "..." /\
  String.length (preview response) = 203%nat.
Proof.
  intros L. unfold preview, PyStr.len.
  destruct (Z.gtb_spec (Z.of_nat (String.length response)) 200); [| lia].
  unfold PyStr.slice_to. change (0 <=? 200) with true. cbv iota.
  change (Z.to_nat 200) with 200%nat. split; [reflexivity|].
  rewrite str_length_app, length_take.
  change (String.length "...") with 3%nat. lia.
Qed.

(** X29.  [get_popular_queries] with a limit [>= 0] returns
    [min (limit, rows)] entries ([all] for a negative limit), by
    descending hit count: the rows shown and the rows left out make up the
    table, and no row left out has more hits than a row shown.  Each entry
    carries the query, hit count and last access of its row; a response
    of at most 200 characters is given whole, a longer one as its first
    200 characters followed by three dots. *)
Theorem popular_queries_are_the_most_hit t limit :
  let out := get_popular_queries t limit in
  (0 <= limit -> Z.of_nat (List.length out) = Z.min limit (count t)) /\
  (limit < 0 -> List.length out = List.length (rows t)) /\
  StronglySorted (fun a b => popular_hit_count b <= popular_hit_count a) out /\
  (exists shown rest,
     Permutation (rows t) (shown ++ rest) /\
     out = map popular_of shown /\
     forall x y, In x shown -> In y rest -> hit_count y <= hit_count x) /\
  (forall response,
     ((String.length response <= 200)%nat -> preview response = response) /\
     ((200 < String.length response)%nat ->
      preview response = PyStr.take 200 response ++ "..." /\
      String.length (preview response) = 203%nat)).
Proof.
  intros out. subst out. unfold get_popular_queries, ConversationQueries.sql_limit.
  pose proof (order_by_hits_perm (rows t)) as P.
  pose proof (order_by_hits_sorted (rows t)) as S.
  assert (Len : List.length (order_by_hits (rows t)) = List.length (rows t))
    by now apply Permutation_length.
  split; [| split; [| split; [| split]]].
  - intros L. destruct (Z.ltb_spec limit 0); [lia|].
    rewrite length_map, length_firstn, Len. unfold count. lia.
  - intros L. destruct (Z.ltb_spec limit 0); [| lia]. now rewrite length_map.
  - assert (G : forall l,
               StronglySorted (fun a b => hit_count b <= hit_count a) l ->
               StronglySorted (fun a b => popular_hit_count b <= popular_hit_count a)
                 (map popular_of l)).
    { induction 1 as [| x l S' IH F]; cbn [map]; constructor; [exact IH|].
      apply Forall_map. eapply Forall_impl; [| exact F].
      intros y H. exact H. }
    apply G. destruct (limit <? 0); [exact S | now apply StronglySorted_firstn].
  - destruct (limit <? 0).
    + exists (order_by_hits (rows t)), []. rewrite app_nil_r.
      split; [now symmetry|]. split; [reflexivity|]. intros x y _ [].
    + exists (firstn (Z.to_nat limit) (order_by_hits (rows t))),
             (skipn (Z.to_nat limit) (order_by_hits (rows t))).
      rewrite firstn_skipn. split; [now symmetry|]. split; [reflexivity|].
      intros x y Hx Hy.
      rewrite <- (firstn_skipn (Z.to_nat limit) (order_by_hits (rows t))) in S.
      exact (StronglySorted_app_le _ _ _ S x y Hx Hy).
  - intros response. split; [apply preview_short | apply preview_long].
Qed.

End ReportFacts.

(** ** The summary of a session *)

Module SummaryFacts.
Import Eff ConversationMemory ConversationSummary.

Lemma insert_label_In y s ls : In y (insert_label s ls) <-> y = s \/ In y ls.
Proof.
  induction ls as [| x r IH]; cbn [insert_label In]; [intuition congruence|].
  destruct (String.compare s x) eqn:C; cbn [In].
  - apply String.compare_eq_iff in C. subst x. intuition congruence.
  - intuition congruence.
  - rewrite IH. intuition congruence.
Qed.

Lemma insert_label_sorted s ls :
  StronglySorted OrderedTypeEx.String_as_OT.lt ls ->
  StronglySorted OrderedTypeEx.String_as_OT.lt (insert_label s ls).
Proof.
  induction 1 as [| x r S IH F]; cbn [insert_label]; [repeat constructor|].
  destruct (String.compare s x) eqn:C.
  - now constructor.
  - apply OrderedTypeEx.String_as_OT.cmp_lt in C.
    constructor; [now constructor|]. constructor; [exact C|].
    eapply Forall_impl; [| exact F]. intros y H.
    eapply OrderedTypeEx.String_as_OT.lt_trans; eassumption.
  - assert (L : OrderedTypeEx.String_as_OT.lt x s).
    { apply OrderedTypeEx.String_as_OT.cmp_lt.
      rewrite OrderedTypeEx.String_as_OT.cmp_antisym.
      unfold OrderedTypeEx.String_as_OT.cmp. now rewrite C. }
    constructor; [exact IH|].
    apply Forall_forall. intros y Hy. apply insert_label_In in Hy as [-> | Hy];
      [exact L|].
    rewrite Forall_forall in F. now apply F.
Qed.

Lemma labels_sorted l : StronglySorted OrderedTypeEx.String_as_OT.lt (labels l).
Proof.
  induction l as [| r l IH]; cbn [labels]; [constructor|].
  destruct (intent r) as [[| c s] |]; try exact IH.
  now apply insert_label_sorted.
Qed.

Lemma sorted_NoDup ls :
  StronglySorted OrderedTypeEx.String_as_OT.lt ls -> NoDup ls.
Proof.
  induction 1 as [| x r S IH F]; constructor; [| exact IH].
  intros I. rewrite Forall_forall in F. specialize (F x I).
  apply OrderedTypeEx.String_as_OT.lt_not_eq in F. now apply F.
Qed.

Lemma labels_In s l :
  In s (labels l) <-> s <> "" /\ exists r, In r l /\ intent r = Some s.
Proof.
  induction l as [| r l IH]; cbn [labels].
  - split; [intros [] | intros (_ & r & [] & _)].
  - destruct (intent r) as [[| c t] |] eqn:E.
    + rewrite IH. split.
      * intros (N & x & I & Hx). split; [exact N|]. exists x. split; [now right | exact Hx].
      * intros (N & x & [<- | I] & Hx); [congruence|]. split; [exact N|]. now exists x.
    + rewrite insert_label_In, IH. split.
      * intros [-> | (N & x & I & Hx)].
        -- split; [discriminate|]. exists r. split; [now left | exact E].
        -- split; [exact N|]. exists x. split; [now right | exact Hx].
      * intros (N & x & [<- | I] & Hx); [left; congruence|].
        right. split; [exact N|]. now exists x.
    + rewrite IH. split.
      * intros (N & x & I & Hx). split; [exact N|]. exists x. split; [now right | exact Hx].
      * intros (N & x & [<- | I] & Hx); [congruence|]. split; [exact N|]. now exists x.
Qed.

Lemma lookup_map_In (f : string -> Z) k ls :
  In k ls -> lookup k (map (fun s => (s, f s)) ls) = Some (f k).
Proof.
  induction ls as [| x r IH]; intros I; [destruct I|].
  cbn [map lookup]. destruct (String.eqb_spec x k) as [-> | N]; [reflexivity|].
  destruct I as [E | I]; [congruence | now apply IH].
Qed.

Lemma lookup_map_absent (f : string -> Z) k ls :
  ~ In k ls -> lookup k (map (fun s => (s, f s)) ls) = None.
Proof.
  induction ls as [| x r IH]; intros I; [reflexivity|].
  cbn [map lookup]. destruct (String.eqb_spec x k) as [-> | N].
  - exfalso. apply I. now left.
  - apply IH. intros H. apply I. now right.
Qed.

Lemma count_intent_positive s l :
  count_intent s l <> 0 <-> exists r, In r l /\ intent r = Some s.
Proof.
  unfold count_intent. split.
  - intros N. destruct (filter (has_intent s) l) as [| r rs] eqn:F; [now destruct N|].
    assert (I : In r (filter (has_intent s) l)) by (rewrite F; now left).
    apply filter_In in I as (I & H). exists r. split; [exact I|].
    unfold has_intent in H. destruct (intent r) as [x |]; [| discriminate].
    apply String.eqb_eq in H. now subst.
  - intros (r & I & E).
    assert (J : In r (filter (has_intent s) l)).
    { apply filter_In. split; [exact I|]. unfold has_intent. rewrite E.
      apply String.eqb_refl. }
    destruct (filter (has_intent s) l); [destruct J | cbn [List.length]; lia].
Qed.

Lemma fold_min_bounds l a :
  fold_left (fun a x => Z.min a (timestamp x)) l a <= a /\
  forall x, In x l -> fold_left (fun a x => Z.min a (timestamp x)) l a <= timestamp x.
Proof.
  revert a. induction l as [| y l IH]; intros a; cbn [fold_left].
  - split; [lia | intros x []].
  - destruct (IH (Z.min a (timestamp y))) as (A & B). split; [lia|].
    intros x [<- | I]; [lia | now apply B].
Qed.

Lemma fold_max_bounds l a :
  a <= fold_left (fun a x => Z.max a (timestamp x)) l a /\
  forall x, In x l -> timestamp x <= fold_left (fun a x => Z.max a (timestamp x)) l a.
Proof.
  revert a. induction l as [| y l IH]; intros a; cbn [fold_left].
  - split; [lia | intros x []].
  - destruct (IH (Z.max a (timestamp y))) as (A & B). split; [lia|].
    intros x [<- | I]; [lia | now apply B].
Qed.

(** X30.  [get_session_summary] of a session: [total_turns] is the number
    of its rows; [intents] has pairwise different keys, never the empty
    one, and gives for each intent the number of rows of the session with
    that intent (no entry when there is none); [start_time] and [end_time]
    are [None] for a session without rows and otherwise bound the
    timestamp of each of its rows.  The orchestrator's method returns this
    summary for its own session and changes nothing.  Each query that
    [process_query] handles adds one to [total_turns] of its session and
    one to the count of the intent it was given. *)
Theorem the_summary_counts_the_turns env cfg self query context w :
  let sid := AgentOrchestrator.session_id self in
  let mine := session_rows (conversations w) sid in
  let s := get_session_summary (conversations w) sid in
  OrchestratorSummary.get_session_summary self w = (Ok s, w) /\
  total_turns s = Z.of_nat (List.length mine) /\
  NoDup (map fst (intents s)) /\
  (forall label,
     lookup label (intents s)
     = if String.eqb label "" || (count_intent label mine =? 0) then None
       else Some (count_intent label mine)) /\
  (mine = [] -> start_time s = None /\ end_time s = None) /\
  (forall row, In row mine ->
     exists a b, start_time s = Some a /\ end_time s = Some b /\
                 a <= timestamp row <= b) /\
  (exists reply w',
     AgentOrchestrator.process_query env cfg self query context w = (Ok reply, w') /\
     let s' := get_session_summary (conversations w') sid in
     total_turns s' = total_turns s + 1 /\
     lookup (AgentOrchestrator.reply_intent reply) (intents s')
     = Some (count_intent (AgentOrchestrator.reply_intent reply) mine + 1)).
Proof.
  intros sid mine s.
  assert (Look : forall l label,
            lookup label (map (fun x => (x, count_intent x l)) (labels l))
            = if String.eqb label "" || (count_intent label l =? 0) then None
              else Some (count_intent label l)).
  { intros l label. destruct (String.eqb_spec label "") as [-> | N]; cbn [orb].
    - apply lookup_map_absent. intros I. apply labels_In in I as (I & _). now apply I.
    - destruct (Z.eqb_spec (count_intent label l) 0) as [Z | P].
      + apply lookup_map_absent. intros I. apply labels_In in I as (_ & I).
        apply count_intent_positive in I. contradiction.
      + apply lookup_map_In. apply labels_In. split; [exact N|].
        now apply count_intent_positive. }
  split; [reflexivity|]. split; [reflexivity|]. split; [| split; [| split; [| split]]].
  - subst s. unfold get_session_summary. cbn [intents]. rewrite map_map. cbn [fst].
    rewrite map_id. apply sorted_NoDup, labels_sorted.
  - intros label. apply Look.
  - intros E. subst s. unfold get_session_summary. fold mine. rewrite E.
    split; reflexivity.
  - intros row I. subst s. unfold get_session_summary. fold mine.
    cbn [start_time end_time]. destruct mine as [| r l]; [destruct I|].
    cbn [min_timestamp max_timestamp]. eexists _, _. split; [reflexivity|].
    split; [reflexivity|].
    destruct (fold_min_bounds l (timestamp r)) as (A1 & A2).
    destruct (fold_max_bounds l (timestamp r)) as (B1 & B2).
    destruct I as [<- | I]; [lia|]. specialize (A2 row I). specialize (B2 row I). lia.
  - destruct (IntentFacts.process_query_row env cfg self query context w)
      as (reply & w' & t_sql & chunks & E & V & C).
    exists reply, w'. split; [exact E|]. cbv zeta.
    assert (M : session_rows (conversations w') sid
                = (mine ++ [mkRow (last_rowid (conversations w) + 1) sid
                              (AgentOrchestrator.user_id self) query
                              (AgentOrchestrator.reply_answer reply)
                              (Some (AgentOrchestrator.reply_intent reply))
                              (match chunks with
                               | Some ((_ :: _) as l) => PyStr.join "|" l
                               | _ => EmptyString
                               end) t_sql])%list).
    { rewrite C. fold sid. rewrite ConversationFacts.session_rows_add_turn.
      now rewrite String.eqb_refl. }
    unfold get_session_summary. rewrite M. cbn [total_turns intents].
    split.
    + subst s. unfold get_session_summary. fold mine. cbn [total_turns].
      rewrite length_app. cbn [List.length]. lia.
    + rewrite Look.
      assert (Cnt : count_intent (AgentOrchestrator.reply_intent reply)
                      (mine ++ [mkRow (last_rowid (conversations w) + 1) sid
                                  (AgentOrchestrator.user_id self) query
                                  (AgentOrchestrator.reply_answer reply)
                                  (Some (AgentOrchestrator.reply_intent reply))
                                  (match chunks with
                                   | Some ((_ :: _) as l) => PyStr.join "|" l
                                   | _ => EmptyString
                                   end) t_sql])
                    = count_intent (AgentOrchestrator.reply_intent reply) mine + 1).
      { unfold count_intent. rewrite filter_app. cbn [filter has_intent intent].
        rewrite String.eqb_refl, length_app. cbn [List.length]. lia. }
      rewrite Cnt.
      assert (NE : String.eqb (AgentOrchestrator.reply_intent reply) "" = false).
      { apply String.eqb_neq. intros Z. rewrite Z in V.
        cbn in V. intuition discriminate. }
      rewrite NE. cbn [orb].
      destruct (Z.eqb_spec (count_intent (AgentOrchestrator.reply_intent reply) mine + 1) 0)
        as [Z | _]; [| reflexivity].
      unfold count_intent in Z. lia.
Qed.

End SummaryFacts.

(** ** More concrete runs *)

Module MoreRuns.
Import Eff Samples MoreSamples.

(** X2 with a window of two turns: the oldest of three is dropped. *)
Lemma add_turn_keeps_the_last_turns_witness :
  1 <= 2 /\
  List.length (SessionMemory.get_history
                 (SessionMemory.add_turn 2 two_turns "session-1" "thanks" "Welcome" 3)
                 "session-1") = 2%nat.
Proof.
  split; [lia|].
  exact (proj1 (proj2 (SessionFacts.add_turn_keeps_the_last_turns 2 two_turns
                         "session-1" "thanks" "Welcome" 3 ltac:(lia)))).
Defined.

(** X3 on a run that adds three turns, clears and adds again. *)
Lemma session_histories_stay_within_the_window_witness :
  1 <= 2 /\
  Z.of_nat (List.length (SessionMemory.get_history
    (SessionSpec.run 2
       [SessionSpec.OpAdd "s" "a" "b" 1; SessionSpec.OpAdd "s" "c" "d" 2;
        SessionSpec.OpAdd "s" "e" "f" 3; SessionSpec.OpClear "s";
        SessionSpec.OpAdd "s" "g" "h" 4] []) "s")) <= 2.
Proof.
  split; [lia|].
  apply SessionFacts.session_histories_stay_within_the_window. lia.
Defined.

(** X6 with a provider that is always out of quota: three requests, two
    sleeps, an apology. *)
Lemma generate_retry_budget_witness :
  let req := mkLlmRequest "hello" (7 # 10)%Q None in
  LLMClient.generate busy_env "hello" None (7 # 10)%Q fresh_world
  = (Ok "I apologize, but I encountered an error: 429 Too Many Requests",
     mkWorld [EvGenerate req; EvSleep 30; EvGenerate req; EvSleep 15; EvGenerate req]
             [] ConversationMemory.empty FAQCache.empty).
Proof.
  exact (proj2 (proj2 (proj2
           (RetryFacts.generate_retry_budget busy_env "hello" None (7 # 10)%Q
              fresh_world)))
           "429 Too Many Requests" "429 Too Many Requests" "429 Too Many Requests"
           eq_refl eq_refl eq_refl eq_refl eq_refl).
Defined.


(** X13 on a greeting inside white space. *)
Lemma greetings_are_settled_by_the_orchestrator_witness :
  Regex.match_anchored Regex.llm_greeting_re (PyStr.strip "  Bonjour !  ") = true /\
  Regex.match_anchored Regex.orchestrator_greeting_re "  Bonjour !  " = true.
Proof.
  assert (H : Regex.match_anchored Regex.llm_greeting_re (PyStr.strip "  Bonjour !  ")
              = true) by (vm_compute; reflexivity).
  split; [exact H|].
  exact (proj1 (GreetingFacts.greetings_are_settled_by_the_orchestrator handbook_env
                  default_config alice_orchestrator "  Bonjour !  " None fresh_world H)).
Defined.


(** X15 on a second question written to [day_zero]. *)
Lemma a_write_evicts_at_most_one_row_witness :
  (0 <= 1000 /\ FAQCache.wf day_zero /\ FAQCache.count day_zero <= 1000) /\
  FAQCache.count day_zero
  <= FAQCache.count (FAQCache.set 1000 day_zero "where is the library?" "Building C" 5)
  <= FAQCache.count day_zero + 1.
Proof.
  assert (M : 0 <= 1000) by lia.
  assert (W : FAQCache.wf day_zero)
    by (apply FAQCacheFacts.wf_set, FAQCacheFacts.wf_empty).
  assert (C : FAQCache.count day_zero <= 1000) by (vm_compute; discriminate).
  split; [repeat (split; [assumption|]); assumption|].
  exact (proj1 (CacheFacts.a_write_evicts_at_most_one_row 1000 day_zero
                  "where is the library?" "Building C" 5 M W C)).
Defined.

(** X16 on [day_zero]: one row goes, and the question misses in another
    spelling. *)
Lemma invalidate_forgets_every_spelling_witness :
  (FAQCache.wf day_zero /\ "what is the deadline?" <> "") /\
  fst (FAQCache.invalidate day_zero (Some "what is the deadline?"))
  = Z.of_nat (List.length
      (FAQCache.rows_for (FAQCache._hash_query "what is the deadline?") day_zero)).
Proof.
  assert (W : FAQCache.wf day_zero)
    by (apply FAQCacheFacts.wf_set, FAQCacheFacts.wf_empty).
  assert (N : "what is the deadline?" <> "") by discriminate.
  split; [split; assumption|].
  exact (proj1 (CacheFacts.invalidate_forgets_every_spelling 24 day_zero
                  "what is the deadline?" W N)).
Defined.


(** X19 with two throttled requests before the answer. *)
Lemma throttled_texts_are_embedded_in_the_end_witness :
  fst (GeminiEmbeddingFunction._embed_with_retry throttled_env "a chunk" 5 fresh_world)
  = Ok (Some [(1 # 2)%Q]) /\
  sleeps (trace (snd (GeminiEmbeddingFunction._embed_with_retry throttled_env
                        "a chunk" 5 fresh_world)))
  = [60; 30].
Proof.
  destruct (AdapterFacts.throttled_texts_are_embedded_in_the_end throttled_env
              "a chunk" [(1 # 2)%Q] 2 fresh_world) as (E & _ & Sl).
  - lia.
  - intros i Hi. exists "429 RESOURCE_EXHAUSTED".
    destruct i as [| [| i]]; [split; reflexivity | split; reflexivity | lia].
  - reflexivity.
  - rewrite E. cbn [fst snd]. split; [reflexivity | exact Sl].
Defined.

(** X21 with batches of two over three texts, and with batches of zero. *)
Lemma batching_does_not_change_the_embeddings_witness :
  GeminiEmbeddingsBatch.batch_embed handbook_env ["a"; "b"; "c"] 2 fresh_world
  = GeminiEmbeddings.call handbook_env ["a"; "b"; "c"] fresh_world /\
  GeminiEmbeddingsBatch.batch_embed handbook_env ["a"; "b"; "c"] 0 fresh_world
  = (Raise "range() arg 3 must not be zero", fresh_world).
Proof.
  destruct (BatchFacts.batching_does_not_change_the_embeddings handbook_env
              ["a"; "b"; "c"] 2 fresh_world) as (A & _).
  destruct (BatchFacts.batching_does_not_change_the_embeddings handbook_env
              ["a"; "b"; "c"] 0 fresh_world) as (_ & B & _).
  split; [apply A; lia | apply B; reflexivity].
Defined.

(** X22 with two documents and their own ids. *)
Lemma add_documents_sends_everything_once_witness :
  List.length ["id-a"; "id-b"] = List.length ["first"; "second"] /\
  List.concat (map VectorStoreIngest.add_ids_of
                 (VectorStoreIngest.add_documents ["first"; "second"]
                    (Some ["id-a"; "id-b"]) None))
  = ["id-a"; "id-b"].
Proof.
  split; [reflexivity|].
  exact (proj1 (proj2 (BatchFacts.add_documents_sends_everything_once
                         ["first"; "second"] (Some ["id-a"; "id-b"]) None
                         eq_refl I))).
Defined.

(** X24 for a first user. *)
Lemma a_registered_user_can_log_in_witness :
  (existsb (DatabaseOperations.named "alice")
     (DatabaseOperations.rows DatabaseOperations.empty) = false /\
   "letmein" <> "s3cret") /\
  fst (AppAuth.register DatabaseOperations.empty "alice" "s3cret" 100) = true /\
  AppAuth.login visitor
    (snd (AppAuth.register DatabaseOperations.empty "alice" "s3cret" 100))
    "alice" "letmein" 200
  = (false, visitor,
     snd (AppAuth.register DatabaseOperations.empty "alice" "s3cret" 100)).
Proof.
  assert (A : existsb (DatabaseOperations.named "alice")
                (DatabaseOperations.rows DatabaseOperations.empty) = false)
    by reflexivity.
  assert (N : "letmein" <> "s3cret") by discriminate.
  split; [split; assumption|].
  destruct (AccountFacts.a_registered_user_can_log_in DatabaseOperations.empty
              "alice" "s3cret" 100 visitor "letmein" "other" 200 A N)
    as (R & _ & L & _).
  split; assumption.
Defined.

(** X26 on a table with two turns in the same second. *)
Lemma get_history_returns_the_last_turns_witness :
  ConversationQueries.chronological three_rows /\
  ConversationQueries.get_history three_rows "session-1" 1
  = [ConversationQueries.mkTurn "when is the deadline?" "March 1" (Some "qa") 9].
Proof.
  assert (C : ConversationQueries.chronological three_rows).
  { split.
    - repeat constructor; cbn; lia.
    - repeat constructor; cbn; lia. }
  split; [exact C|].
  exact (proj1 (ConversationFacts.get_history_returns_the_last_turns three_rows
                  "session-1" 1 C)).
Defined.

End MoreRuns.
